(** * blas_benchmark: a shallow embedding of the measurement engine

    Sources embedded here:
    - [src/src/benchmark/blas_functions.h]  : namespace [flops] (FLOP model)
    - [src/src/benchmark/blas_functions.cpp]: [benchmark_dot] and its siblings
    - [src/src/utils/timer.h]               : [flush_cache]
    - [src/src/benchmark/benchmark.cpp]     : [BenchmarkRunner] (constructor,
                                              [run_all], [run_single_benchmark],
                                              [run_level1..3])
    - [src/src/main.cpp]                    : the part of [main] after the
                                              configuration has been assembled

    [std::size_t] is a 64-bit unsigned integer, modelled as [Z] with its
    wrap-around written out.  [double] values are kept abstract behind a small
    record of operations ([Arith]); it has two instances: IEEE-754 binary64
    ([PrimFloat], what the program computes) and exact rationals ([Q], the
    idealised arithmetic the formulas are meant to compute). *)

From Stdlib Require Import ZArith Lia List Bool String Ascii.
From Stdlib Require Import QArith Qfield.
From Stdlib Require Import Floats.
From Stdlib Require Import DecimalString.
Import ListNotations.

Open Scope Z_scope.

(** ** [std::size_t] arithmetic *)

Definition size_t_modulus : Z := 2 ^ 64.

(** Reduction of an unbounded result to [std::size_t]. *)
Definition size_t_wrap (z : Z) : Z := z mod size_t_modulus.

(** [int] to [std::size_t] conversion (negative values wrap). *)
Definition size_of_int (z : Z) : Z := size_t_wrap z.

Definition size_t_range (z : Z) : Prop := 0 <= z < size_t_modulus.

(** ** Floating-point operations used by the source *)

(** The operations on [double] that the measurement engine uses: the literal
    [0.0], [+], [*], [/], [<] and [static_cast<double>] of an integer. *)
Record Arith := {
  val : Type;
  a_zero : val;
  a_add : val -> val -> val;
  a_mul : val -> val -> val;
  a_div : val -> val -> val;
  a_ltb : val -> val -> bool;
  a_of_size : Z -> val
}.

(** [static_cast<double>] of an integer: round to nearest, ties to even. *)
Definition float_of_Z (z : Z) : float :=
  SF2Prim (SpecFloat.binary_normalize FloatOps.prec FloatOps.emax z 0 false).

(** IEEE-754 binary64, the [double] of the program. *)
Definition Double : Arith := {|
  val := float;
  a_zero := float_of_Z 0;
  a_add := PrimFloat.add;
  a_mul := PrimFloat.mul;
  a_div := PrimFloat.div;
  a_ltb := PrimFloat.ltb;
  a_of_size := float_of_Z
|}.

Definition Qltb (x y : Q) : bool := negb (Qle_bool y x).

(** Exact rational arithmetic: the same formulas without rounding. *)
Definition Exact : Arith := {|
  val := Q;
  a_zero := 0%Q;
  a_add := Qplus;
  a_mul := Qmult;
  a_div := Qdiv;
  a_ltb := Qltb;
  a_of_size := inject_Z
|}.

(** ** FLOP model ([namespace flops], blas_functions.h)

    Every function takes and returns [std::size_t]; each product is reduced
    to 64 bits as C++ evaluates it, left to right. *)
Module flops.

Definition dot (n : Z) : Z := size_t_wrap (2 * n).

Definition axpy (n : Z) : Z := size_t_wrap (2 * n).

Definition scal (n : Z) : Z := n.

Definition gemv (m n : Z) : Z := size_t_wrap (size_t_wrap (2 * m) * n).

Definition gemm (m n k : Z) : Z :=
  size_t_wrap (size_t_wrap (size_t_wrap (2 * m) * n) * k).

End flops.

(** ** Cache size for flushing ([BenchmarkRunner::BenchmarkRunner]) *)

Definition MiB : Z := 1024 * 1024.

(** [m_cache_size = l1 + l2 + l3; if (m_cache_size < 1024 * 1024)
    m_cache_size = 16 * 1024 * 1024;] *)
Definition runner_cache_size (l1_cache l2_cache l3_cache : Z) : Z :=
  let s := size_t_wrap (size_t_wrap (l1_cache + l2_cache) + l3_cache) in
  if s <? 1024 * 1024 then 16 * 1024 * 1024 else s.

(** ** Exceptions and [std::vector<double>] storage *)

(** The exceptions the embedded code can throw, all derived from
    [std::exception]. *)
Inductive Exn :=
| LengthError (what : string)    (* std::length_error *)
| BadAlloc                       (* std::bad_alloc *)
| RandomDeviceError              (* std::random_device cannot be read *)
| BadOptionalAccess              (* std::bad_optional_access *)
| RuntimeError (what : string)   (* std::runtime_error *)
| StoiError                      (* std::invalid_argument or std::out_of_range from std::stoi *)
| FilesystemError.               (* std::filesystem::filesystem_error *)

(** [sizeof(double)] *)
Definition sizeof_double : Z := 8.

(** [std::vector<double>::max_size()] in libstdc++ on a 64-bit target:
    [PTRDIFF_MAX / sizeof(double)] = 2^60 - 1. *)
Definition vector_max_size : Z := (2 ^ 63 - 1) / sizeof_double.

(** libstdc++'s messages: the constructors check the requested length with
    the first, [reserve] with the second. *)
Definition vector_ctor_msg : string := "cannot create std::vector larger than max_size()".
Definition vector_reserve_msg : string := "vector::reserve".

(** Obtaining storage for [n] doubles in an empty [std::vector<double>], as
    [std::vector<double>(n)], [std::vector<double>(n, v)] and [reserve(n)]
    do it: [std::length_error] with message [what] when [n > max_size()];
    no allocation for [n = 0]; otherwise [operator new], which throws
    [std::bad_alloc] unless the heap provides the storage ([heap_ok n]).
    [None] is success. *)
Definition vector_alloc (heap_ok : Z -> bool) (what : string) (n : Z) : option Exn :=
  if vector_max_size <? n then Some (LengthError what)
  else if (n =? 0) || heap_ok n then None
  else Some BadAlloc.

(** ** Cache evictor ([utils::flush_cache], timer.h) *)

(** One access of the eviction loop to [buffer[i]]. *)
Inductive Access :=
| ReadElem (i : Z)
| WriteElem (i : Z).

(** [buffer_size = cache_size_bytes * multiplier / sizeof(double)] *)
Definition flush_buffer_size (cache_size_bytes : Z) : Z :=
  let multiplier := 4 in
  size_t_wrap (cache_size_bytes * multiplier) / sizeof_double.

(** [for (i = 0; i < buffer_size; ++i) { sum += buffer[i]; buffer[i] = i; }]
    run from index [i] for [fuel] more iterations. *)
Fixpoint flush_loop (i : Z) (fuel : nat) : list Access :=
  match fuel with
  | O => []
  | S fuel' => ReadElem i :: WriteElem i :: flush_loop (i + 1) fuel'
  end.

Module utils.

(** The effect of [flush_cache]: the exception the allocation of
    [std::vector<double>(buffer_size, 0.0)] throws, or the number of
    [double] elements of the buffer and the accesses performed on it. *)
Definition flush_cache (heap_ok : Z -> bool) (cache_size_bytes : Z) : Exn + (Z * list Access) :=
  let buffer_size := flush_buffer_size cache_size_bytes in
  match vector_alloc heap_ok vector_ctor_msg buffer_size with
  | Some e => inl e
  | None => inr (buffer_size, flush_loop 0 (Z.to_nat buffer_size))
  end.

End utils.

(** ** Observable effects of a run *)

(** The backend call a benchmark issues, with its shape in [std::size_t]. *)
Inductive Kernel :=
| KDot (n : Z)
| KAxpy (n : Z)
| KScal (n : Z)
| KGemv (m n : Z)
| KGemm (m n k : Z).

Inductive Level := L1 | L2 | L3.

(** The operand vectors each benchmark allocates with
    [generate_random_data], in order: [benchmark_dot] and [benchmark_axpy]
    [x] and [y] of [n] elements; [benchmark_scal] [x]; [benchmark_gemv]
    [a] ([m * n]), [x] ([n]) and [y] ([m]); [benchmark_gemm] [a] ([m * k]),
    [b] ([k * n]) and [c] ([m * n]), the products in [std::size_t]. *)
Definition operand_sizes (k : Kernel) : list Z :=
  match k with
  | KDot n | KAxpy n => [n; n]
  | KScal n => [n]
  | KGemv m n => [size_t_wrap (m * n); n; m]
  | KGemm m n k => [size_t_wrap (m * k); size_t_wrap (k * n); size_t_wrap (m * n)]
  end.

(** What the program does that can be observed: the thread-count setting, a
    cache flush (with its size argument), an untimed warmup call, a timed
    call, the warnings and errors it logs ([spdlog::info] and [spdlog::debug]
    lines are not recorded), the "Benchmark failed" error of [main]'s
    [catch], and the report written by [write_output] (to standard output
    for an empty file name; its content is not recorded). *)
Inductive Event :=
| EvSetThreads (num_threads : Z)
| EvFlush (cache_size : Z)
| EvWarmup (k : Kernel)
| EvTimed (k : Kernel)
| EvWarn (lv : Level) (func_name : string)
| EvError (msg : string)
| EvBenchmarkFailed (e : Exn)
| EvOutput (output_file : string).

(** The state threaded through a run: the events so far and the number of
    timed calls made so far (which selects the next clock reading). *)
Record St := { trace : list Event; ticks : nat }.

(** How a computation ends: with a value, with an exception on its way to
    the nearest [catch], or in undefined behaviour.  What was done before an
    exception stays done. *)
Inductive Outcome (T : Type) :=
| Ok (x : T) (st : St)
| Thrown (e : Exn) (st : St)
| UB.

Arguments Ok {T} x st.
Arguments Thrown {T} e st.
Arguments UB {T}.

(** State, exceptions and undefined behaviour. *)
Definition M (T : Type) : Type := St -> Outcome T.

Definition ret {T} (x : T) : M T := fun st => Ok x st.

Definition bind {T U} (c : M T) (k : T -> M U) : M U :=
  fun st => match c st with
            | Ok x st' => k x st'
            | Thrown e st' => Thrown e st'
            | UB => UB
            end.

Notation "x <- c ;; k" := (bind c (fun x => k))
  (at level 61, c at next level, right associativity).
Notation "c ;;; k" := (bind c (fun _ => k))
  (at level 61, right associativity).

Definition undefined {T} : M T := fun _ => UB.

Definition throw {T} (e : Exn) : M T := fun st => Thrown e st.

(** [try { c } catch (const std::exception &e) { handler(e) }] *)
Definition try_catch {T} (c : M T) (handler : Exn -> M T) : M T :=
  fun st => match c st with
            | Thrown e st' => handler e st'
            | o => o
            end.

Definition emit (e : Event) : M unit :=
  fun st => Ok tt {| trace := trace st ++ [e]; ticks := ticks st |}.

(** [for (i = 0; i < n; ++i) body;] *)
Fixpoint repeat_M (n : nat) (body : M unit) : M unit :=
  match n with
  | O => ret tt
  | S n' => body ;;; repeat_M n' body
  end.

(** Decimal rendering of an integer, as [std::format("{}", z)]. *)
Definition fmt_int (z : Z) : string := NilZero.string_of_int (Z.to_int z).

(** ** Configuration (config_parser.h) *)

Module config.

(** [BenchmarkConfig] restricted to the fields the engine reads (output file,
    format and weights are only read by the formatter). *)
Record BenchmarkConfig := {
  threads : Z;
  cycles : Z;
  warmup : Z;
  flush_cache : bool;
  level1_size : option Z;
  level2_size : option (Z * Z);
  level3_size : option (Z * Z * Z);
  level1_functions : list string;
  level2_functions : list string;
  level3_functions : list string
}.

(** [ConfigParser::get_default()] *)
Definition get_default : BenchmarkConfig := {|
  threads := 1; cycles := 5; warmup := 3; flush_cache := true;
  level1_size := Some 1000000;
  level2_size := Some (1024, 1024);
  level3_size := Some (1024, 1024, 1024);
  level1_functions := ["cblas_ddot"%string; "cblas_daxpy"%string; "cblas_dscal"%string];
  level2_functions := ["cblas_dgemv"%string];
  level3_functions := ["cblas_dgemm"%string]
|}.

End config.

(** The part of [utils::SystemInfo] the runner reads. *)
Record SystemInfo := { l1_cache : Z; l2_cache : Z; l3_cache : Z }.

Record BenchmarkRunner := { m_config : config.BenchmarkConfig; m_cache_size : Z }.

(** [BenchmarkRunner::BenchmarkRunner(config)], given what the system-info
    collector returns. *)
Definition make_runner (config : config.BenchmarkConfig) (sys_info : SystemInfo)
  : BenchmarkRunner :=
  {| m_config := config;
     m_cache_size := runner_cache_size (l1_cache sys_info) (l2_cache sys_info)
                                       (l3_cache sys_info) |}.

(** What the environment of the program decides: whether [operator new]
    obtains storage for [n] doubles, whether [std::random_device] can be
    constructed and read, and whether [std::ofstream] opens a path. *)
Record Env := {
  heap_ok : Z -> bool;
  random_device_ok : bool;
  file_opens : string -> bool
}.

Section Engine.

Variable A : Arith.

(** The clock: the elapsed time [timer.elapsed_ms()] reports for the [i]-th
    timed backend call of the run. *)
Variable clock : nat -> val A.

(** The environment the run happens in. *)
Variable env : Env.

Abbreviation zero := (a_zero A).
Abbreviation add := (a_add A).
Abbreviation mul := (a_mul A).
Abbreviation div := (a_div A).
Abbreviation ltb := (a_ltb A).
Abbreviation of_size := (a_of_size A).

(** [timer.start(); BlasWrapper<T>::op(...); timer.stop(); timer.elapsed_ms()] *)
Definition timed_call (k : Kernel) : M (val A) :=
  fun st => Ok (clock (ticks st))
                {| trace := trace st ++ [EvTimed k]; ticks := S (ticks st) |}.

(** A [std::vector<double>] allocation, with its exceptions. *)
Definition allocate (what : string) (n : Z) : M unit :=
  match vector_alloc (heap_ok env) what n with
  | Some e => throw e
  | None => ret tt
  end.

(** [if (flush_cache) utils::flush_cache(cache_size);]: the allocation of
    [utils.flush_cache] (its accesses are not recorded in the trace). *)
Definition maybe_flush (flush : bool) (cache_size : Z) : M unit :=
  if flush then
    allocate vector_ctor_msg (flush_buffer_size cache_size) ;;;
    emit (EvFlush cache_size)
  else ret tt.

(** [generate_random_data<double>(size)]: [std::vector<T> data(size)], then
    [std::random_device rd; std::mt19937 gen(rd());] (the random values are
    not modelled). *)
Definition generate_random_data (size : Z) : M unit :=
  allocate vector_ctor_msg size ;;;
  if random_device_ok env then ret tt else throw RandomDeviceError.

(** The operand allocations at the start of a benchmark, in order. *)
Fixpoint generate_operands (sizes : list Z) : M unit :=
  match sizes with
  | [] => ret tt
  | size :: sizes' => generate_random_data size ;;; generate_operands sizes'
  end.

(** The timed loop of [benchmark_dot]: [total_time += timer.elapsed_ms()]. *)
Fixpoint timed_loop (k : Kernel) (flush : bool) (cache_size : Z) (n : nat)
    (total_time : val A) : M (val A) :=
  match n with
  | O => ret total_time
  | S n' =>
      maybe_flush flush cache_size ;;;
      e <- timed_call k ;;
      timed_loop k flush cache_size n' (add total_time e)
  end.

(** [benchmark_dot], [benchmark_axpy], [benchmark_scal], [benchmark_gemv] and
    [benchmark_gemm] (blas_functions.cpp) share this body; they differ only in
    the operands they allocate and the backend call. *)
Definition benchmark_kernel (k : Kernel) (warmup cycles : Z) (flush : bool)
    (cache_size : Z) : M (val A) :=
  generate_operands (operand_sizes k) ;;;
  repeat_M (Z.to_nat warmup) (maybe_flush flush cache_size ;;; emit (EvWarmup k)) ;;;
  total_time <- timed_loop k flush cache_size (Z.to_nat cycles) zero ;;
  ret (div total_time (of_size cycles)).

Definition benchmark_dot (n warmup cycles : Z) flush cache_size :=
  benchmark_kernel (KDot n) warmup cycles flush cache_size.
Definition benchmark_axpy (n warmup cycles : Z) flush cache_size :=
  benchmark_kernel (KAxpy n) warmup cycles flush cache_size.
Definition benchmark_scal (n warmup cycles : Z) flush cache_size :=
  benchmark_kernel (KScal n) warmup cycles flush cache_size.
Definition benchmark_gemv (m n warmup cycles : Z) flush cache_size :=
  benchmark_kernel (KGemv m n) warmup cycles flush cache_size.
Definition benchmark_gemm (m n k warmup cycles : Z) flush cache_size :=
  benchmark_kernel (KGemm m n k) warmup cycles flush cache_size.


(** ** Result aggregation and [run_single_benchmark] (benchmark.cpp) *)

Record BenchmarkResult := {
  function_name : string;
  config_str : string;
  threads : Z;
  min_time_ms : val A;
  avg_time_ms : val A;
  max_time_ms : val A;
  gflops : val A;
  flops : Z
}.

Fixpoint min_from (smallest : val A) (l : list (val A)) : val A :=
  match l with
  | [] => smallest
  | x :: l' => min_from (if ltb x smallest then x else smallest) l'
  end.

Fixpoint max_from (largest : val A) (l : list (val A)) : val A :=
  match l with
  | [] => largest
  | x :: l' => max_from (if ltb largest x then x else largest) l'
  end.

(** [*std::min_element(times.begin(), times.end())]: the first least element;
    on an empty range the dereference of [end()] is undefined. *)
Definition min_element (l : list (val A)) : option (val A) :=
  match l with
  | [] => None
  | x :: l' => Some (min_from x l')
  end.

(** [*std::max_element(times.begin(), times.end())] *)
Definition max_element (l : list (val A)) : option (val A) :=
  match l with
  | [] => None
  | x :: l' => Some (max_from x l')
  end.

(** [std::accumulate(times.begin(), times.end(), 0.0) / times.size()] *)
Definition average (times : list (val A)) : val A :=
  div (fold_left add times zero) (of_size (Z.of_nat (List.length times))).

(** [result.gflops = static_cast<double>(flops_count) / (time_sec * 1e9)]
    with [time_sec = result.avg_time_ms / 1000.0]. *)
Definition gflops_of (flops_count : Z) (avg_time_ms : val A) : val A :=
  let time_sec := div avg_time_ms (of_size 1000) in
  div (of_size flops_count) (mul time_sec (of_size 1000000000)).

(** [for (int i = 0; i < m_config.cycles; ++i) times.push_back(benchmark_func());] *)
Fixpoint collect_times (n : nat) (benchmark_func : M (val A)) : M (list (val A)) :=
  match n with
  | O => ret []
  | S n' =>
      time_ms <- benchmark_func ;;
      times <- collect_times n' benchmark_func ;;
      ret (time_ms :: times)
  end.

(** Lines 108-116 of [run_single_benchmark]: statistics and throughput of a
    sample vector; [None] where [min_element]/[max_element] return [end()]. *)
Definition aggregate (cfg : config.BenchmarkConfig) (name cstr : string)
    (times : list (val A)) (flops_count : Z) : option BenchmarkResult :=
  match min_element times, max_element times with
  | Some mn, Some mx =>
      let avg := average times in
      Some {| function_name := name; config_str := cstr;
              threads := config.threads cfg;
              min_time_ms := mn; avg_time_ms := avg; max_time_ms := mx;
              gflops := gflops_of flops_count avg;
              flops := flops_count |}
  | _, _ => None
  end.

Definition run_single_benchmark (cfg : config.BenchmarkConfig)
    (name cstr : string) (benchmark_func : M (val A)) (flops_count : Z)
    : M BenchmarkResult :=
  allocate vector_reserve_msg (size_of_int (config.cycles cfg)) ;;;
  times <- collect_times (Z.to_nat (config.cycles cfg)) benchmark_func ;;
  match aggregate cfg name cstr times flops_count with
  | Some result => ret result
  | None => undefined
  end.

(** ** The orchestrator *)

Record BenchmarkReport := {
  level1_results : list BenchmarkResult;
  level2_results : list BenchmarkResult;
  level3_results : list BenchmarkResult;
  report_config : config.BenchmarkConfig
}.

(** [report.levelN_results.push_back(result)] *)
Definition push_result (lv : Level) (report : BenchmarkReport)
    (result : BenchmarkResult) : BenchmarkReport :=
  match lv with
  | L1 => {| level1_results := level1_results report ++ [result];
             level2_results := level2_results report;
             level3_results := level3_results report;
             report_config := report_config report |}
  | L2 => {| level1_results := level1_results report;
             level2_results := level2_results report ++ [result];
             level3_results := level3_results report;
             report_config := report_config report |}
  | L3 => {| level1_results := level1_results report;
             level2_results := level2_results report;
             level3_results := level3_results report ++ [result];
             report_config := report_config report |}
  end.

(** The [if (func_name == "...") ... else if ... else] chain of one level:
    the reported name, the benchmark closure and the FLOP count of a
    recognised name, or [None]. *)
Definition Dispatch : Type := string -> option (string * M (val A) * Z).

(** The loop of [run_level1], [run_level2] and [run_level3]. *)
Fixpoint run_level_loop (lv : Level) (dispatch : Dispatch) (cfg : config.BenchmarkConfig)
    (cstr : string) (names : list string) (report : BenchmarkReport)
    : M BenchmarkReport :=
  match names with
  | [] => ret report
  | func_name :: names' =>
      match dispatch func_name with
      | Some (name, benchmark_func, flops_count) =>
          result <- run_single_benchmark cfg name cstr benchmark_func flops_count ;;
          run_level_loop lv dispatch cfg cstr names' (push_result lv report result)
      | None =>
          emit (EvWarn lv func_name) ;;;
          run_level_loop lv dispatch cfg cstr names' report
      end
  end.

Definition dispatch1 (runner : BenchmarkRunner) (n : Z) : Dispatch :=
  let cfg := m_config runner in
  let w := size_of_int (config.warmup cfg) in
  let fl := config.flush_cache cfg in
  let cs := m_cache_size runner in
  fun func_name =>
    if String.eqb func_name "cblas_ddot" then
      Some ("ddot"%string, benchmark_dot n w 1 fl cs, flops.dot n)
    else if String.eqb func_name "cblas_daxpy" then
      Some ("daxpy"%string, benchmark_axpy n w 1 fl cs, flops.axpy n)
    else if String.eqb func_name "cblas_dscal" then
      Some ("dscal"%string, benchmark_scal n w 1 fl cs, flops.scal n)
    else None.

(** Level 2 sizes are [int]s, converted to [std::size_t] at each call. *)
Definition dispatch2 (runner : BenchmarkRunner) (m n : Z) : Dispatch :=
  let cfg := m_config runner in
  let w := size_of_int (config.warmup cfg) in
  let fl := config.flush_cache cfg in
  let cs := m_cache_size runner in
  fun func_name =>
    if String.eqb func_name "cblas_dgemv" then
      Some ("dgemv"%string, benchmark_gemv (size_of_int m) (size_of_int n) w 1 fl cs,
            flops.gemv (size_of_int m) (size_of_int n))
    else None.

Definition dispatch3 (runner : BenchmarkRunner) (m n k : Z) : Dispatch :=
  let cfg := m_config runner in
  let w := size_of_int (config.warmup cfg) in
  let fl := config.flush_cache cfg in
  let cs := m_cache_size runner in
  fun func_name =>
    if String.eqb func_name "cblas_dgemm" then
      Some ("dgemm"%string,
            benchmark_gemm (size_of_int m) (size_of_int n) (size_of_int k) w 1 fl cs,
            flops.gemm (size_of_int m) (size_of_int n) (size_of_int k))
    else None.

(** [run_level1]: [m_config.level1_size.value()] throws on an empty optional. *)
Definition run_level1 (runner : BenchmarkRunner) (report : BenchmarkReport)
    : M BenchmarkReport :=
  let cfg := m_config runner in
  match config.level1_size cfg with
  | Some n =>
      run_level_loop L1 (dispatch1 runner n) cfg ("N=" ++ fmt_int n)%string
                     (config.level1_functions cfg) report
  | None => throw BadOptionalAccess
  end.

Definition run_level2 (runner : BenchmarkRunner) (report : BenchmarkReport)
    : M BenchmarkReport :=
  let cfg := m_config runner in
  match config.level2_size cfg with
  | Some (m, n) =>
      run_level_loop L2 (dispatch2 runner m n) cfg
                     ("M=" ++ fmt_int m ++ ",N=" ++ fmt_int n)%string
                     (config.level2_functions cfg) report
  | None => throw BadOptionalAccess
  end.

Definition run_level3 (runner : BenchmarkRunner) (report : BenchmarkReport)
    : M BenchmarkReport :=
  let cfg := m_config runner in
  match config.level3_size cfg with
  | Some (m, n, k) =>
      run_level_loop L3 (dispatch3 runner m n k) cfg
                     ("M=" ++ fmt_int m ++ ",N=" ++ fmt_int n ++ ",K=" ++ fmt_int k)%string
                     (config.level3_functions cfg) report
  | None => throw BadOptionalAccess
  end.

Definition has_value {T} (o : option T) : bool :=
  match o with Some _ => true | None => false end.

Definition is_empty {T} (l : list T) : bool :=
  match l with [] => true | _ => false end.

(** [BenchmarkRunner::run_all].  Its [m_info_collector.collect()] reads the
    files the constructor's call has read, and is not modelled. *)
Definition run_all (runner : BenchmarkRunner) : M BenchmarkReport :=
  let cfg := m_config runner in
  let report := {| level1_results := []; level2_results := []; level3_results := [];
                   report_config := cfg |} in
  emit (EvSetThreads (config.threads cfg)) ;;;
  report <- (if has_value (config.level1_size cfg) && negb (is_empty (config.level1_functions cfg))
             then run_level1 runner report else ret report) ;;
  report <- (if has_value (config.level2_size cfg) && negb (is_empty (config.level2_functions cfg))
             then run_level2 runner report else ret report) ;;
  report <- (if has_value (config.level3_size cfg) && negb (is_empty (config.level3_functions cfg))
             then run_level3 runner report else ret report) ;;
  ret report.

(** [!config.level1_size.has_value() && !config.level2_size.has_value() &&
     !config.level3_size.has_value()] *)
Definition no_benchmark_sizes (cfg : config.BenchmarkConfig) : bool :=
  negb (has_value (config.level1_size cfg)) && negb (has_value (config.level2_size cfg))
  && negb (has_value (config.level3_size cfg)).

(** [blas_benchmark::BenchmarkRunner runner(config)]: [collected] is what
    the constructor's [m_info_collector.collect()] returns, [None] where it
    throws (the [std::stoi] of [get_physical_cores]). *)
Definition construct_runner (collected : option SystemInfo) (cfg : config.BenchmarkConfig)
    : M BenchmarkRunner :=
  match collected with
  | Some sys_info => ret (make_runner cfg sys_info)
  | None => throw StoiError
  end.

(** [write_output(output, config.output_file)] *)
Definition write_output (output_file : string) : M unit :=
  if String.eqb output_file EmptyString || file_opens env output_file
  then emit (EvOutput output_file)
  else throw (RuntimeError ("Cannot open output file: " ++ output_file)).

(** [main], lines 283-302: the [try] block (runner, [run_all], formatting,
    [write_output]) and its [catch], which logs the error and returns 1.
    Printing to standard output is assumed to succeed. *)
Definition run_benchmarks (collected : option SystemInfo) (cfg : config.BenchmarkConfig)
    (output_file : string) : M Z :=
  try_catch
    (runner <- construct_runner collected cfg ;;
     report <- run_all runner ;;
     write_output output_file ;;;
     ret 0)
    (fun e => emit (EvBenchmarkFailed e) ;;; ret 1).

(** [main] from the check "at least one benchmark is configured" on, for a
    configuration already assembled from defaults, file and command line,
    and the [-o] option; returns the exit status. *)
Definition main_after_config (collected : option SystemInfo) (cfg : config.BenchmarkConfig)
    (output_file : string) : M Z :=
  if no_benchmark_sizes cfg then
    emit (EvError "No benchmark sizes specified. Use --level1, --level2, or --level3 options.") ;;;
    ret 1
  else run_benchmarks collected cfg output_file.

End Engine.

Arguments ret {T} x st /.
Arguments bind {T U} c k st /.
Arguments emit e st /.
Arguments throw {T} e st /.

(** [Timer::elapsed_ms()] for a duration of [us] microseconds:
    [static_cast<double>(duration.count()) / 1000.0]. *)
Definition elapsed_ms (A : Arith) (us : Z) : val A :=
  a_div A (a_of_size A us) (a_of_size A 1000).

(** ** Vocabulary of the properties *)

Definition is_backend_call (e : Event) : bool :=
  match e with EvWarmup _ | EvTimed _ => true | _ => false end.

Definition no_warn (e : Event) : bool :=
  match e with EvWarn _ _ => false | _ => true end.

Definition level_eqb (lv lv' : Level) : bool :=
  match lv, lv' with L1, L1 | L2, L2 | L3, L3 => true | _, _ => false end.

Definition is_warn_for (lv : Level) (e : Event) : bool :=
  match e with EvWarn lv' _ => level_eqb lv lv' | _ => false end.

(** Events of one warmup call and of one call of the per-cycle benchmark
    closure ([W] warmups, then one timed call). *)
Definition flush_events (flush : bool) (cache_size : Z) : list Event :=
  if flush then [EvFlush cache_size] else [].

Definition cycle_events (k : Kernel) (W : nat) (flush : bool) (cache_size : Z)
    : list Event :=
  List.concat (repeat (flush_events flush cache_size ++ [EvWarmup k]) W)
  ++ flush_events flush cache_size ++ [EvTimed k].

(** Arithmetic mean of a list of rationals. *)
Definition mean (l : list Q) : Q :=
  fold_right Qplus 0%Q l / inject_Z (Z.of_nat (List.length l)).

(** Per-level views of a configuration and a report. *)
Definition level_has_size (cfg : config.BenchmarkConfig) (lv : Level) : bool :=
  match lv with
  | L1 => has_value (config.level1_size cfg)
  | L2 => has_value (config.level2_size cfg)
  | L3 => has_value (config.level3_size cfg)
  end.

Definition level_functions (cfg : config.BenchmarkConfig) (lv : Level) : list string :=
  match lv with
  | L1 => config.level1_functions cfg
  | L2 => config.level2_functions cfg
  | L3 => config.level3_functions cfg
  end.

Definition level_results {A} (report : BenchmarkReport A) (lv : Level)
    : list (BenchmarkResult A) :=
  match lv with
  | L1 => level1_results A report
  | L2 => level2_results A report
  | L3 => level3_results A report
  end.

(** The closed set of operation names of each level. *)
Definition recognized_names (lv : Level) : list string :=
  match lv with
  | L1 => ["cblas_ddot"; "cblas_daxpy"; "cblas_dscal"]%string
  | L2 => ["cblas_dgemv"]%string
  | L3 => ["cblas_dgemm"]%string
  end.

Definition recognized (lv : Level) (s : string) : bool :=
  existsb (String.eqb s) (recognized_names lv).

(** The FLOP model value for a reported operation at the configured shape. *)
Definition configured_flops (cfg : config.BenchmarkConfig) (name : string) : option Z :=
  if String.eqb name "ddot" then option_map flops.dot (config.level1_size cfg)
  else if String.eqb name "daxpy" then option_map flops.axpy (config.level1_size cfg)
  else if String.eqb name "dscal" then option_map flops.scal (config.level1_size cfg)
  else if String.eqb name "dgemv" then
    option_map (fun '(m, n) => flops.gemv (size_of_int m) (size_of_int n))
               (config.level2_size cfg)
  else if String.eqb name "dgemm" then
    option_map (fun '(m, n, k) => flops.gemm (size_of_int m) (size_of_int n) (size_of_int k))
               (config.level3_size cfg)
  else None.

(** The field consistency of a result produced under [cfg]. *)
Definition result_ok {A} (cfg : config.BenchmarkConfig) (r : BenchmarkResult A) : Prop :=
  threads A r = config.threads cfg
  /\ gflops A r = gflops_of A (flops A r) (avg_time_ms A r)
  /\ configured_flops cfg (function_name A r) = Some (flops A r).

(** Whether [run_all] runs a level: it has a size and a non-empty list. *)
Definition level_runs (cfg : config.BenchmarkConfig) (lv : Level) : bool :=
  level_has_size cfg lv && negb (is_empty (level_functions cfg lv)).

(** Whether the storage for [n] doubles is obtained: [vector_alloc] succeeds. *)
Definition alloc_ok (env : Env) (n : Z) : bool :=
  (n <=? vector_max_size) && ((n =? 0) || heap_ok env n).

(** The allocations of one call of a benchmark closure succeed: its
    operands, the random device and, when flushing, the flush buffer. *)
Definition kernel_env_ok (env : Env) (k : Kernel) (flush : bool) (cache_size : Z) : bool :=
  forallb (alloc_ok env) (operand_sizes k) && random_device_ok env
  && (negb flush || alloc_ok env (flush_buffer_size cache_size)).

(** The operand sizes the benchmarks of a level allocate at the configured
    shape (every level-1 operand has [n] elements). *)
Definition level_operand_sizes (cfg : config.BenchmarkConfig) (lv : Level) : list Z :=
  match lv with
  | L1 => match config.level1_size cfg with Some n => [n] | None => [] end
  | L2 => match config.level2_size cfg with
          | Some (m, n) => operand_sizes (KGemv (size_of_int m) (size_of_int n))
          | None => []
          end
  | L3 => match config.level3_size cfg with
          | Some (m, n, k) =>
              operand_sizes (KGemm (size_of_int m) (size_of_int n) (size_of_int k))
          | None => []
          end
  end.

(** Every allocation a run of [runner] makes succeeds: the [reserve] of the
    sample vector, the random device, the flush buffer when flushing, and
    the operands of every level that runs. *)
Definition run_allocs_ok (env : Env) (runner : BenchmarkRunner) : bool :=
  let cfg := m_config runner in
  alloc_ok env (size_of_int (config.cycles cfg)) && random_device_ok env
  && (negb (config.flush_cache cfg) || alloc_ok env (flush_buffer_size (m_cache_size runner)))
  && forallb (fun lv => negb (level_runs cfg lv) || forallb (alloc_ok env) (level_operand_sizes cfg lv))
             [L1; L2; L3].

(** An environment in which every allocation succeeds, the random device
    can be read and every output file opens. *)
Definition unlimited_env : Env :=
  {| heap_ok := fun _ => true; random_device_ok := true; file_opens := fun _ => true |}.

Definition run_level (A : Arith) (clock : nat -> val A) (env : Env) (runner : BenchmarkRunner)
    (lv : Level) : BenchmarkReport A -> M (BenchmarkReport A) :=
  match lv with
  | L1 => run_level1 A clock env runner
  | L2 => run_level2 A clock env runner
  | L3 => run_level3 A clock env runner
  end.

(** The configured operation name a result was reported for. *)
Definition cblas_name {A} (r : BenchmarkResult A) : string :=
  ("cblas_" ++ function_name A r)%string.

(** A dispatch chain of level [lv] that resolves exactly the recognised
    names, each to a benchmark closure with the runner's warmup, flush flag
    and cache size, and to the configured FLOP count. *)
Definition dispatch_ok (A : Arith) (clock : nat -> val A) (env : Env)
    (runner : BenchmarkRunner) (lv : Level) (d : Dispatch A) : Prop :=
  forall s,
    match d s with
    | Some (nm, f, fc) =>
        recognized lv s = true /\ ("cblas_" ++ nm)%string = s
        /\ configured_flops (m_config runner) nm = Some fc
        /\ exists k, f = benchmark_kernel A clock env k
                           (size_of_int (config.warmup (m_config runner))) 1
                           (config.flush_cache (m_config runner)) (m_cache_size runner)
                    /\ incl (operand_sizes k) (level_operand_sizes (m_config runner) lv)
    | None => recognized lv s = false
    end.

(** A configuration that runs only level 1, with vector size [n]. *)
Definition level1_config (cyc w : Z) (fl : bool) (n : Z) (funcs : list string)
    : config.BenchmarkConfig :=
  {| config.threads := 1; config.cycles := cyc; config.warmup := w;
     config.flush_cache := fl;
     config.level1_size := Some n; config.level2_size := None; config.level3_size := None;
     config.level1_functions := funcs;
     config.level2_functions := []; config.level3_functions := [] |}.

(** ** [std::string] operations

    Positions are [std::size_t]; [npos] is the largest one. *)

Definition npos : Z := size_t_modulus - 1.

Definition str_size (s : string) : Z := Z.of_nat (String.length s).

Fixpoint str_drop (n : nat) (s : string) : string :=
  match n, s with
  | O, _ => s
  | S _, EmptyString => EmptyString
  | S n', String _ s' => str_drop n' s'
  end.

Fixpoint first_index (p : ascii -> bool) (s : string) : option nat :=
  match s with
  | EmptyString => None
  | String c s' => if p c then Some O else option_map S (first_index p s')
  end.

Fixpoint last_index (p : ascii -> bool) (s : string) : option nat :=
  match s with
  | EmptyString => None
  | String c s' =>
      match last_index p s' with
      | Some k => Some (S k)
      | None => if p c then Some O else None
      end
  end.

(** Membership of a character in the character set of [find_*_not_of]. *)
Fixpoint str_has (set : string) (c : ascii) : bool :=
  match set with
  | EmptyString => false
  | String c' set' => Ascii.eqb c c' || str_has set' c
  end.

(** [s.find(c, pos)] *)
Definition find_char (s : string) (c : ascii) (pos : Z) : Z :=
  if pos <? str_size s then
    match first_index (Ascii.eqb c) (str_drop (Z.to_nat pos) s) with
    | Some k => pos + Z.of_nat k
    | None => npos
    end
  else npos.

Fixpoint find_str_aux (pat s : string) : option nat :=
  if String.prefix pat s then Some O
  else match s with
       | EmptyString => None
       | String _ s' => option_map S (find_str_aux pat s')
       end.

(** [s.find(pat, pos)] *)
Definition find_str (s pat : string) (pos : Z) : Z :=
  if str_size s <? pos then npos
  else match find_str_aux pat (str_drop (Z.to_nat pos) s) with
       | Some k => pos + Z.of_nat k
       | None => npos
       end.

(** [s.find_first_not_of(set)] and [s.find_last_not_of(set)] *)
Definition find_first_not_of (s set : string) : Z :=
  match first_index (fun c => negb (str_has set c)) s with
  | Some k => Z.of_nat k
  | None => npos
  end.

Definition find_last_not_of (s set : string) : Z :=
  match last_index (fun c => negb (str_has set c)) s with
  | Some k => Z.of_nat k
  | None => npos
  end.

(** [s.substr(pos, len)]: the length is clamped to what is left of [s].
    Every call site below passes [pos <= s.size()], where it does not throw. *)
Definition substr (s : string) (pos len : Z) : string :=
  String.substring (Z.to_nat pos) (Z.to_nat (Z.min len (str_size s - pos))) s.

(** [s.back()] of a non-empty string. *)
Definition str_back (s : string) : option ascii :=
  String.get (String.length s - 1) s.

(** The [while (...) pop_back()] and [while (...) value = value.substr(1)]
    loops: drop the trailing, resp. leading, characters satisfying [p]. *)
Fixpoint rstrip_by (p : ascii -> bool) (s : string) : string :=
  match s with
  | EmptyString => EmptyString
  | String c s' =>
      let r := rstrip_by p s' in
      match r with
      | EmptyString => if p c then EmptyString else String c EmptyString
      | _ => String c r
      end
  end.

Fixpoint lstrip_by (p : ascii -> bool) (s : string) : string :=
  match s with
  | EmptyString => EmptyString
  | String c s' => if p c then lstrip_by p s' else s
  end.

Definition newline : string := String "010"%char EmptyString.

(** ** Integer conversions of the C++ library *)

(** [isspace] in the C locale: space, \t, \n, \v, \f, \r. *)
Definition is_space (c : ascii) : bool :=
  let n := nat_of_ascii c in (n =? 32)%nat || ((9 <=? n)%nat && (n <=? 13)%nat).

Definition digit_value (c : ascii) : option Z :=
  let n := nat_of_ascii c in
  if (48 <=? n)%nat && (n <=? 57)%nat then Some (Z.of_nat n - 48) else None.

Fixpoint skip_spaces (s : string) : string :=
  match s with
  | String c s' => if is_space c then skip_spaces s' else s
  | EmptyString => EmptyString
  end.

(** The run of decimal digits at the front of [s], accumulated onto [acc];
    [None] when no digit is read at all. *)
Fixpoint read_digits (s : string) (acc : Z) (seen : bool) : option Z :=
  match s with
  | String c s' =>
      match digit_value c with
      | Some d => read_digits s' (10 * acc + d) true
      | None => if seen then Some acc else None
      end
  | EmptyString => if seen then Some acc else None
  end.

(** The base-10 scan shared by [strtol], [strtoul] and [strtoull]: white
    space, an optional sign, then digits.  The sign ([true] for '-') and the
    magnitude, or [None] when no conversion can be performed. *)
Definition strto_parse (s : string) : option (bool * Z) :=
  match skip_spaces s with
  | String c s' =>
      if Ascii.eqb c "-"%char then option_map (pair true) (read_digits s' 0 false)
      else if Ascii.eqb c "+"%char then option_map (pair false) (read_digits s' 0 false)
      else option_map (pair false) (read_digits (String c s') 0 false)
  | EmptyString => None
  end.

Definition int_min : Z := - 2 ^ 31.
Definition int_max : Z := 2 ^ 31 - 1.

(** [std::stoi]; [None] where it throws: [invalid_argument] when nothing is
    converted, [out_of_range] when the value does not fit a [long] or an
    [int]. *)
Definition stoi (s : string) : option Z :=
  match strto_parse s with
  | Some (neg, m) =>
      let v := if neg then - m else m in
      if (int_min <=? v) && (v <=? int_max) then Some v else None
  | None => None
  end.

(** [std::stoul] ([unsigned long] is 64 bits on Linux): [out_of_range] when
    the magnitude exceeds [2^64 - 1]; a '-' sign negates modulo [2^64]. *)
Definition stoul (s : string) : option Z :=
  match strto_parse s with
  | Some (neg, m) =>
      if m <=? size_t_modulus - 1 then Some (if neg then size_t_wrap (- m) else m)
      else None
  | None => None
  end.

(** [std::stoull]: [unsigned long long] has the same 64 bits. *)
Definition stoull (s : string) : option Z := stoul s.

(** [static_cast<int>] of a [std::size_t] (reduction modulo [2^32]). *)
Definition int_of_size (n : Z) : Z :=
  let r := n mod 2 ^ 32 in if r <? 2 ^ 31 then r else r - 2 ^ 32.

(** The dimensions [BlasWrapper<double>] passes to the CBLAS routine of each
    kernel: every [std::size_t] argument goes through [static_cast<int>]. *)
Definition blas_dims (k : Kernel) : list Z :=
  match k with
  | KDot n | KAxpy n | KScal n => [int_of_size n]
  | KGemv m n => [int_of_size m; int_of_size n]
  | KGemm m n k => [int_of_size m; int_of_size n; int_of_size k]
  end.

(** ** Command line and configuration loading (main.cpp, config_parser.cpp) *)

(** [parse_size_pair] of main.cpp; [None] is [std::nullopt]. *)
Definition parse_size_pair (str : string) : option (Z * Z) :=
  let pos := find_char str ","%char 0 in
  if pos =? npos then None
  else match stoi (substr str 0 pos) with
       | Some m =>
           match stoi (substr str (pos + 1) npos) with
           | Some n => Some (m, n)
           | None => None
           end
       | None => None
       end.

(** [parse_size_triple] of main.cpp. *)
Definition parse_size_triple (str : string) : option (Z * Z * Z) :=
  let pos1 := find_char str ","%char 0 in
  if pos1 =? npos then None
  else
    let pos2 := find_char str ","%char (pos1 + 1) in
    if pos2 =? npos then None
    else match stoi (substr str 0 pos1) with
         | Some m =>
             match stoi (substr str (pos1 + 1) (pos2 - pos1 - 1)) with
             | Some n =>
                 match stoi (substr str (pos2 + 1) npos) with
                 | Some k => Some (m, n, k)
                 | None => None
                 end
             | None => None
             end
         | None => None
         end.

(** Field updates of [BenchmarkConfig]. *)
Definition set_run_params (cfg : config.BenchmarkConfig) (thr cyc w : Z) (fl : bool)
    : config.BenchmarkConfig :=
  {| config.threads := thr; config.cycles := cyc; config.warmup := w;
     config.flush_cache := fl;
     config.level1_size := config.level1_size cfg;
     config.level2_size := config.level2_size cfg;
     config.level3_size := config.level3_size cfg;
     config.level1_functions := config.level1_functions cfg;
     config.level2_functions := config.level2_functions cfg;
     config.level3_functions := config.level3_functions cfg |}.

Definition set_sizes (cfg : config.BenchmarkConfig) (s1 : option Z) (s2 : option (Z * Z))
    (s3 : option (Z * Z * Z)) : config.BenchmarkConfig :=
  {| config.threads := config.threads cfg; config.cycles := config.cycles cfg;
     config.warmup := config.warmup cfg; config.flush_cache := config.flush_cache cfg;
     config.level1_size := s1; config.level2_size := s2; config.level3_size := s3;
     config.level1_functions := config.level1_functions cfg;
     config.level2_functions := config.level2_functions cfg;
     config.level3_functions := config.level3_functions cfg |}.

Definition set_functions (cfg : config.BenchmarkConfig) (f1 f2 f3 : list string)
    : config.BenchmarkConfig :=
  {| config.threads := config.threads cfg; config.cycles := config.cycles cfg;
     config.warmup := config.warmup cfg; config.flush_cache := config.flush_cache cfg;
     config.level1_size := config.level1_size cfg;
     config.level2_size := config.level2_size cfg;
     config.level3_size := config.level3_size cfg;
     config.level1_functions := f1; config.level2_functions := f2;
     config.level3_functions := f3 |}.

(** The options [main] reads after [app.parse] (output file and format are
    only used after the run). *)
Record CliOptions := {
  opt_threads : Z;
  opt_cycles : Z;
  opt_warmup : Z;
  level1_str : string;
  level2_str : string;
  level3_str : string
}.

(** Where [main] stops after applying the command line: an exit status with
    the logged error, or the configuration it goes on with. *)
Inductive CliOutcome :=
| CliExit (status : Z) (msg : string)
| CliConfig (cfg : config.BenchmarkConfig).

(** [main], lines 199-248: the command-line overrides. *)
Definition apply_cli (opts : CliOptions) (cfg0 : config.BenchmarkConfig) : CliOutcome :=
  let cfg1 := set_run_params cfg0 (opt_threads opts) (opt_cycles opts) (opt_warmup opts)
                             (config.flush_cache cfg0) in
  let l1 := level1_str opts in
  let l2 := level2_str opts in
  let l3 := level3_str opts in
  match (if String.eqb l1 EmptyString then Some cfg1
         else option_map (fun v => set_sizes cfg1 (Some v) (config.level2_size cfg1)
                                             (config.level3_size cfg1)) (stoull l1)) with
  | None => CliExit 1 ("Invalid level1 size: " ++ l1)
  | Some cfg2 =>
      match (if String.eqb l2 EmptyString then Some cfg2
             else option_map (fun p => set_sizes cfg2 (config.level1_size cfg2) (Some p)
                                                 (config.level3_size cfg2))
                             (parse_size_pair l2)) with
      | None => CliExit 1 ("Invalid level2 size format: " ++ l2 ++ ". Expected M,N")
      | Some cfg3 =>
          match (if String.eqb l3 EmptyString then Some cfg3
                 else option_map (fun t => set_sizes cfg3 (config.level1_size cfg3)
                                                     (config.level2_size cfg3) (Some t))
                                 (parse_size_triple l3)) with
          | None => CliExit 1 ("Invalid level3 size format: " ++ l3 ++ ". Expected M,N,K")
          | Some cfg4 => CliConfig cfg4
          end
      end
  end.

(** A parsed TOML document, as toml++ represents it. *)
#[warnings="-register-all"]
Inductive toml_node :=
| TString (s : string)
| TInteger (z : Z)
| TFloat (f : float)
| TBoolean (b : bool)
| TDateTime
| TArray (items : list toml_node)
| TTable (entries : list (string * toml_node)).

Fixpoint table_find (entries : list (string * toml_node)) (key : string) : option toml_node :=
  match entries with
  | [] => None
  | (k, v) :: rest => if String.eqb k key then Some v else table_find rest key
  end.

(** [table.contains(key)] *)
Definition table_contains (entries : list (string * toml_node)) (key : string) : bool :=
  has_value (table_find entries key).

(** A [node_view]: the node it refers to, if any; [view[key]],
    [view.as_table()] and [view.as_array()]. *)
Definition view_at (v : option toml_node) (key : string) : option toml_node :=
  match v with Some (TTable e) => table_find e key | _ => None end.

Definition as_table (v : option toml_node) : option (list (string * toml_node)) :=
  match v with Some (TTable e) => Some e | _ => None end.

Definition as_array (v : option toml_node) : option (list toml_node) :=
  match v with Some (TArray l) => Some l | _ => None end.

(** [item.value_or("")] on an array element. *)
Definition string_value_or (v : toml_node) (d : string) : string :=
  match v with TString s => s | _ => d end.

Section ParseString.

(** toml++'s [node::value<int>()] and [node::value<bool>()]: the conversions
    of a node to [int] and [bool] the library accepts. *)
Variable int_value : toml_node -> option Z.
Variable bool_value : toml_node -> option bool.

Definition int_value_or (v : option toml_node) (d : Z) : Z :=
  match v with
  | Some n => match int_value n with Some z => z | None => d end
  | None => d
  end.

Definition bool_value_or (v : option toml_node) (d : bool) : bool :=
  match v with
  | Some n => match bool_value n with Some b => b | None => d end
  | None => d
  end.

(** One [if (functions.as_table()->contains("levelN"))] block. *)
Definition parse_level_functions (functions : list (string * toml_node)) (key : string)
    (current : list string) : list string :=
  if table_contains functions key then
    match as_array (table_find functions key) with
    | Some items => map (fun item => string_value_or item EmptyString) items
    | None => []
    end
  else current.

(** The [defaults] section, once [defaults.as_table()] is known non-null. *)
Definition parse_defaults (defaults : list (string * toml_node)) (cfg : config.BenchmarkConfig)
    : config.BenchmarkConfig :=
  let d := Some (TTable defaults) in
  let cfg := set_run_params cfg (int_value_or (view_at d "threads") (config.threads cfg))
                                (int_value_or (view_at d "cycles") (config.cycles cfg))
                                (int_value_or (view_at d "warmup") (config.warmup cfg))
                                (bool_value_or (view_at d "flush_cache") (config.flush_cache cfg)) in
  let s1 := if table_contains defaults "level1_size"
            then Some (size_of_int (int_value_or (view_at d "level1_size") 0))
            else config.level1_size cfg in
  let s2 := if table_contains defaults "level2_m" && table_contains defaults "level2_n"
            then Some (int_value_or (view_at d "level2_m") 1024,
                       int_value_or (view_at d "level2_n") 1024)
            else config.level2_size cfg in
  let s3 := if table_contains defaults "level3_m" && table_contains defaults "level3_n"
               && table_contains defaults "level3_k"
            then Some (int_value_or (view_at d "level3_m") 1024,
                       int_value_or (view_at d "level3_n") 1024,
                       int_value_or (view_at d "level3_k") 1024)
            else config.level3_size cfg in
  set_sizes cfg s1 s2 s3.

(** [ConfigParser::parse_string] after [toml::parse] succeeded.  [None] is
    the null dereference of [x.as_table()->contains(...)] when the
    [functions], [weights] or [defaults] entry is not a table.  The weights
    are stored in the configuration but never read, so only that
    dereference is kept of their parsing. *)
Definition parse_string (tbl : list (string * toml_node)) : option config.BenchmarkConfig :=
  let cfg := config.get_default in
  let after_functions :=
    if table_contains tbl "functions" then
      match as_table (table_find tbl "functions") with
      | Some fns =>
          Some (set_functions cfg
                  (parse_level_functions fns "level1" (config.level1_functions cfg))
                  (parse_level_functions fns "level2" (config.level2_functions cfg))
                  (parse_level_functions fns "level3" (config.level3_functions cfg)))
      | None => None
      end
    else Some cfg in
  match after_functions with
  | None => None
  | Some cfg =>
      let weights_deref :=
        if table_contains tbl "weights" then has_value (as_table (table_find tbl "weights"))
        else true in
      if negb weights_deref then None
      else if table_contains tbl "defaults" then
        match as_table (table_find tbl "defaults") with
        | Some defaults => Some (parse_defaults defaults cfg)
        | None => None
        end
      else Some cfg
  end.

End ParseString.

(** The configuration file as [main] finds it. *)
Inductive ConfigSource :=
| NoConfigFile                                            (* [!std::filesystem::exists] *)
| ConfigExistsError                                       (* [std::filesystem::exists] throws *)
| ConfigLoadError                                         (* cannot open, or TOML syntax error *)
| ConfigTable (tbl : list (string * toml_node)).

(** [main], lines 175-197: [parse_file]'s exceptions are caught and give the
    defaults, the one of [std::filesystem::exists] is not. *)
Definition load_config (int_value : toml_node -> option Z) (bool_value : toml_node -> option bool)
    (src : ConfigSource) : M config.BenchmarkConfig :=
  match src with
  | ConfigExistsError => throw FilesystemError
  | NoConfigFile | ConfigLoadError => ret config.get_default
  | ConfigTable tbl =>
      match parse_string int_value bool_value tbl with
      | Some cfg => ret cfg
      | None => undefined
      end
  end.

(** The outcome of [app.parse(argc, argv)]: a [CLI::ParseError] with the
    exit code [app.exit(e)] returns for it (0 for [--help], 109 for extra
    arguments, ...), or the values of [--system-info], [-o] and the options
    [main] reads afterwards. *)
Inductive CliParse :=
| CliParseError (exit_code : Z)
| CliParsed (show_system_info : bool) (output_file : string) (opts : CliOptions).

(** [main]: the command line, [--system-info], the configuration and the
    run; printing is not modelled.  [collected] is what
    [SystemInfoCollector::collect()] returns, [None] where it throws.  An
    exception that leaves [main_run] leaves [main], which calls
    [std::terminate]. *)
Definition main_run (A : Arith) (clock : nat -> val A) (env : Env)
    (int_value : toml_node -> option Z) (bool_value : toml_node -> option bool)
    (collected : option SystemInfo) (src : ConfigSource) (parsed : CliParse) : M Z :=
  match parsed with
  | CliParseError exit_code => ret exit_code
  | CliParsed show_system_info output_file opts =>
      if show_system_info then
        match collected with
        | Some _ => ret 0
        | None => throw StoiError
        end
      else
        cfg <- load_config int_value bool_value src ;;
        match apply_cli opts cfg with
        | CliExit status msg => emit (EvError msg) ;;; ret status
        | CliConfig cfg' => main_after_config A clock env collected cfg' output_file
        end
  end.

(** ** System information (system_info.cpp) *)

(** " \t\n\r", the set [trim] strips. *)
Definition whitespace : string :=
  String " "%char (String "009"%char (String "010"%char (String "013"%char EmptyString))).

(** [trim] *)
Definition trim (str : string) : string :=
  let start := find_first_not_of str whitespace in
  if start =? npos then EmptyString
  else
    let end_ := find_last_not_of str whitespace in
    substr str start (end_ - start + 1).

Definition is_blank (c : ascii) : bool := Ascii.eqb c " "%char || Ascii.eqb c "009"%char.

(** The body of [parse_cpuinfo]'s loop for one line: key and value around
    the first ':', trailing blanks of the key and leading blanks of the
    value removed. *)
Definition cpuinfo_entry (line : string) : option (string * string) :=
  let pos := find_char line ":"%char 0 in
  if pos =? npos then None
  else Some (rstrip_by is_blank (substr line 0 pos), lstrip_by is_blank (substr line (pos + 1) npos)).

(** [std::unordered_map<std::string, std::string>]: [info[key] = value] and
    [info.find(key)]. *)
Fixpoint map_assign (m : list (string * string)) (k v : string) : list (string * string) :=
  match m with
  | [] => [(k, v)]
  | (k', v') :: m' => if String.eqb k k' then (k, v) :: m' else (k', v') :: map_assign m' k v
  end.

Fixpoint map_find (m : list (string * string)) (k : string) : option string :=
  match m with
  | [] => None
  | (k', v) :: m' => if String.eqb k k' then Some v else map_find m' k
  end.

(** [parse_cpuinfo]: the lines of /proc/cpuinfo, or [None] when it cannot be
    opened. *)
Definition parse_cpuinfo (cpuinfo : option (list string)) : list (string * string) :=
  match cpuinfo with
  | None => []
  | Some lines =>
      fold_left (fun info line =>
                   match cpuinfo_entry line with
                   | Some (k, v) => map_assign info k v
                   | None => info
                   end) lines []
  end.

(** [SystemInfoCollector::get_cpu_model] *)
Definition get_cpu_model (cpuinfo : option (list string)) : string :=
  let info := parse_cpuinfo cpuinfo in
  match map_find info "model name" with
  | Some v => v
  | None =>
      match map_find info "Hardware" with
      | Some v => v
      | None => "Unknown CPU"
      end
  end.

(** The [while (std::getline(file, line))] loop of [get_physical_cores]:
    the largest "core id" value so far; [None] where [std::stoi] throws. *)
Fixpoint core_id_scan (lines : list string) (max_core_id : Z) : option Z :=
  match lines with
  | [] => Some max_core_id
  | line :: lines' =>
      if negb (find_str line "core id" 0 =? npos) then
        let pos := find_char line ":"%char 0 in
        if negb (pos =? npos) then
          match stoi (substr line (pos + 1) npos) with
          | Some current_core_id => core_id_scan lines' (Z.max max_core_id current_core_id)
          | None => None
          end
        else core_id_scan lines' max_core_id
      else core_id_scan lines' max_core_id
  end.

(** [SystemInfoCollector::get_physical_cores] on Linux, given the value of
    [get_cpu_cores()] and the lines of /proc/cpuinfo ([None] when it cannot
    be opened); [None] where [std::stoi] throws or [max_core_id + 1]
    overflows. *)
Definition get_physical_cores (cpu_cores : Z) (cpuinfo : option (list string)) : option Z :=
  match cpuinfo with
  | None => Some cpu_cores
  | Some lines =>
      match core_id_scan lines (-1) with
      | Some max_core_id =>
          if 0 <=? max_core_id then
            if max_core_id <? int_max then Some (max_core_id + 1) else None
          else Some cpu_cores
      | None => None
      end
  end.

(** [SystemInfoCollector::get_threads_per_core]: [int] division. *)
Definition get_threads_per_core (logical physical : Z) : Z :=
  if 0 <? physical then Z.quot logical physical else 1.

(** The size parsing [get_l1_cache], [get_l2_cache] and [get_l3_cache] each
    repeat: the unit suffix, then [std::stoul(cache_size) * multiplier];
    [None] where [stoul] throws. *)
Definition parse_cache_size (cache_size : string) : option Z :=
  let multiplier :=
    match str_back cache_size with
    | Some c => if Ascii.eqb c "K"%char then 1024
                else if Ascii.eqb c "M"%char then 1024 * 1024 else 1
    | None => 1
    end in
  option_map (fun v => size_t_wrap (v * multiplier)) (stoul cache_size).

Definition cache_index_path (i : Z) (file : string) : string :=
  "/sys/devices/system/cpu/cpu0/cache/index" ++ fmt_int i ++ "/" ++ file.

(** [get_l1_cache]; [read_file] returns the empty string for a file that
    cannot be opened. *)
Definition get_l1_cache (read_file : string -> string) : Z :=
  let cs0 := trim (read_file (cache_index_path 0 "size")) in
  let cache_size := if String.eqb cs0 EmptyString
                    then trim (read_file (cache_index_path 1 "size")) else cs0 in
  if negb (String.eqb cache_size EmptyString) then
    match parse_cache_size cache_size with
    | Some v => v
    | None => 32 * 1024
    end
  else 32 * 1024.

(** The [for (int i = 0; i < 8; ++i)] loop of [get_l2_cache] and
    [get_l3_cache], from index [i] with [fuel] iterations left. *)
Fixpoint scan_cache_levels (read_file : string -> string) (level : string) (i : Z)
    (fuel : nat) : option Z :=
  match fuel with
  | O => None
  | S fuel' =>
      if String.eqb (trim (read_file (cache_index_path i "level"))) level then
        let cache_size := trim (read_file (cache_index_path i "size")) in
        if negb (String.eqb cache_size EmptyString) then
          match parse_cache_size cache_size with
          | Some v => Some v
          | None => scan_cache_levels read_file level (i + 1) fuel'
          end
        else scan_cache_levels read_file level (i + 1) fuel'
      else scan_cache_levels read_file level (i + 1) fuel'
  end.

Definition get_l2_cache (read_file : string -> string) : Z :=
  match scan_cache_levels read_file "2" 0 8 with
  | Some v => v
  | None => 256 * 1024
  end.

Definition get_l3_cache (read_file : string -> string) : Z :=
  match scan_cache_levels read_file "3" 0 8 with
  | Some v => v
  | None => 8 * 1024 * 1024
  end.

(** [SystemInfoCollector::collect], restricted to the cache sizes. *)
Definition collect_caches (read_file : string -> string) : SystemInfo :=
  {| l1_cache := get_l1_cache read_file; l2_cache := get_l2_cache read_file;
     l3_cache := get_l3_cache read_file |}.

Definition quote_char : ascii := "034"%char.

(** [SystemInfoCollector::get_os_name] on Linux, given the content of
    /etc/os-release (empty when it cannot be opened). *)
Definition get_os_name (os_release : string) : string :=
  if negb (String.eqb os_release EmptyString) then
    let pos := find_str os_release "PRETTY_NAME=" 0 in
    if negb (pos =? npos) then
      let start := find_char os_release quote_char pos in
      let end_ := find_char os_release quote_char (size_t_wrap (start + 1)) in
      if negb (start =? npos) && negb (end_ =? npos)
      then substr os_release (start + 1) (end_ - start - 1)
      else "Linux"
    else "Linux"
  else "Linux".

(** ** [OutputFormatter::to_csv] (benchmark.cpp) *)

Section Csv.

Variable A : Arith.

(** [std::format("{:.Nf}", x)] for a [double] [x]. *)
Variable format_fixed : nat -> val A -> string.

Definition csv_header : string :=
  "Level,Function,Config,Threads,Min(ms),Avg(ms),Max(ms),GFLOPS" ++ newline.

Definition csv_row (level : string) (r : BenchmarkResult A) : string :=
  level ++ "," ++ function_name A r ++ "," ++ config_str A r ++ "," ++ fmt_int (threads A r)
  ++ "," ++ format_fixed 3 (min_time_ms A r) ++ "," ++ format_fixed 3 (avg_time_ms A r)
  ++ "," ++ format_fixed 3 (max_time_ms A r) ++ "," ++ format_fixed 2 (gflops A r) ++ newline.

Definition to_csv (report : BenchmarkReport A) : string :=
  csv_header
  ++ String.concat EmptyString (map (csv_row "1") (level1_results A report))
  ++ String.concat EmptyString (map (csv_row "2") (level2_results A report))
  ++ String.concat EmptyString (map (csv_row "3") (level3_results A report)).

End Csv.

(** Character-level vocabulary of the string properties. *)
Fixpoint forall_chars (p : ascii -> bool) (s : string) : bool :=
  match s with
  | EmptyString => true
  | String c s' => p c && forall_chars p s'
  end.

Fixpoint count_char (c : ascii) (s : string) : nat :=
  match s with
  | EmptyString => O
  | String c' s' => ((if Ascii.eqb c c' then 1 else 0) + count_char c s')%nat
  end.

Definition is_ws (c : ascii) : bool := str_has whitespace c.

Definition str_head (s : string) : option ascii := String.get 0 s.

Definition is_digit (c : ascii) : bool := has_value (digit_value c).

(** A non-empty run of decimal digits, and its value. *)
Definition digit_string (s : string) : bool :=
  negb (String.eqb s EmptyString) && forall_chars is_digit s.

Fixpoint digits_value_from (acc : Z) (s : string) : Z :=
  match s with
  | EmptyString => acc
  | String c s' =>
      digits_value_from (10 * acc + match digit_value c with Some d => d | None => 0 end) s'
  end.

Definition digits_value (s : string) : Z := digits_value_from 0 s.

Definition starts_with_digit (s : string) : bool :=
  match s with EmptyString => false | String c _ => is_digit c end.

(** [std::string::max_size()] is below [npos]. *)
Definition valid_string (s : string) : Prop := str_size s < npos.

(** A machine with 32 KiB L1, 256 KiB L2 and 8 MiB L3 caches. *)
Definition sample_system_info : SystemInfo :=
  {| l1_cache := 32768; l2_cache := 262144; l3_cache := 8388608 |}.

Definition initial_state : St := {| trace := []; ticks := 0 |}.

(** The default configuration with every operation list emptied. *)
Definition no_functions_config : config.BenchmarkConfig :=
  {| config.threads := 1; config.cycles := 5; config.warmup := 3;
     config.flush_cache := true;
     config.level1_size := Some 1000000; config.level2_size := Some (1024, 1024);
     config.level3_size := Some (1024, 1024, 1024);
     config.level1_functions := []; config.level2_functions := [];
     config.level3_functions := [] |}.

(** Throughput as the specification words it: flops / (avg_time_ms * 10^6). *)
Definition spec_gflops (A : Arith) (flops_count : Z) (avg_time_ms : val A) : val A :=
  a_div A (a_of_size A flops_count) (a_mul A avg_time_ms (a_of_size A 1000000)).

(** Whether some level-1 result of a run violates the specification's
    throughput formula, compared with the [double] equality. *)
Definition level1_gflops_mismatch (r : Outcome (BenchmarkReport Double)) : bool :=
  match r with
  | Ok rep _ =>
      existsb (fun res => negb (PrimFloat.eqb (gflops Double res)
                                  (spec_gflops Double (flops Double res) (avg_time_ms Double res))))
              (level1_results Double rep)
  | _ => false
  end.

(** * Properties *)

(** Command lines: no size options; a level-1 size that is not a number;
    a negative level-1 size. *)
Definition sample_options : CliOptions :=
  {| opt_threads := 4; opt_cycles := 2; opt_warmup := 1;
     level1_str := EmptyString; level2_str := EmptyString; level3_str := EmptyString |}.

Definition bad_level1_options : CliOptions :=
  {| opt_threads := 1; opt_cycles := 5; opt_warmup := 3;
     level1_str := "large"; level2_str := EmptyString; level3_str := EmptyString |}.

Definition negative_level1_options : CliOptions :=
  {| opt_threads := 1; opt_cycles := 5; opt_warmup := 3;
     level1_str := "-1"; level2_str := EmptyString; level3_str := EmptyString |}.

(** The key of a level's operation list in the [functions] table. *)
Definition functions_key (lv : Level) : string :=
  match lv with L1 => "level1" | L2 => "level2" | L3 => "level3" end.

(** A [node::value<int>()] that accepts exactly the integer nodes. *)
Definition sample_int_value (n : toml_node) : option Z :=
  match n with TInteger z => Some z | _ => None end.

(** A sysfs tree whose index0 size file reads "48K\n". *)
Definition sysfs_l1 (path : string) : string :=
  if String.eqb path (cache_index_path 0 "size") then ("48" ++ String "K"%char newline)%string
  else EmptyString.

(** One iteration of the loop of [parse_cpuinfo]. *)
Definition cpuinfo_step (info : list (string * string)) (line : string) : list (string * string) :=
  match cpuinfo_entry line with
  | Some (k, v) => map_assign info k v
  | None => info
  end.

(** No entry of [lines] has key [k]. *)
Definition no_key (k : string) (lines : list string) : Prop :=
  Forall (fun l => forall k' w, cpuinfo_entry l = Some (k', w) -> k' <> k) lines.

Definition sample_ddot_result : BenchmarkResult Exact :=
  Build_BenchmarkResult Exact "ddot" "N=1000000" 4 1%Q 1%Q 1%Q 2%Q 2000000.

Definition sample_dgemv_result : BenchmarkResult Exact :=
  Build_BenchmarkResult Exact "dgemv" "M=4096,N=4096" 1 1%Q 1%Q 1%Q 1%Q 33554432.

Definition sample_dgemm_result : BenchmarkResult Exact :=
  Build_BenchmarkResult Exact "dgemm" "M=8,N=8,K=8" 4 1%Q 1%Q 1%Q 1%Q 1024.

(** ** Supporting lemmas *)

Lemma size_t_modulus_pos : 0 < size_t_modulus.
Proof. unfold size_t_modulus; lia. Qed.

Lemma size_t_wrap_small (z : Z) : 0 <= z < size_t_modulus -> size_t_wrap z = z.
Proof. intros H; unfold size_t_wrap; apply Z.mod_small; exact H. Qed.

Lemma size_t_wrap_mul_l (a b : Z) : size_t_wrap (size_t_wrap a * b) = size_t_wrap (a * b).
Proof.
  unfold size_t_wrap; apply Z.mul_mod_idemp_l.
  pose proof size_t_modulus_pos; lia.
Qed.

Lemma flush_loop_seq (i fuel : nat) :
  flush_loop (Z.of_nat i) fuel
  = flat_map (fun j => [ReadElem (Z.of_nat j); WriteElem (Z.of_nat j)]) (seq i fuel).
Proof.
  revert i; induction fuel as [|fuel IH]; intros i; [reflexivity|].
  cbn [flush_loop seq flat_map app].
  rewrite <- IH, Nat2Z.inj_succ; reflexivity.
Qed.

(** ** C3: the FLOP model *)

(** C3 (as stated, refuted): [flops::gemm] on [std::size_t] does not return
    [2MNK] for M = N = K = 2^22: the product 2^67 wraps to 0. *)
Lemma flops_gemm_wraps :
  flops.gemm 4194304 4194304 4194304 <> 2 * 4194304 * 4194304 * 4194304.
Proof. intros H; vm_compute in H; discriminate H. Qed.

(** C3 (amended): for arguments in [std::size_t] range, [dot] and [axpy]
    return [2N mod 2^64], [scal] returns [N], [gemv] returns [2MN mod 2^64]
    and [gemm] returns [2MNK mod 2^64]; each is the exact count [2N], [2MN],
    [2MNK] whenever that count is below 2^64. *)
Theorem flops_model_counts (m n k : Z) :
  size_t_range m -> size_t_range n -> size_t_range k ->
  flops.dot n = (2 * n) mod size_t_modulus
  /\ flops.axpy n = (2 * n) mod size_t_modulus
  /\ flops.scal n = n
  /\ flops.gemv m n = (2 * m * n) mod size_t_modulus
  /\ flops.gemm m n k = (2 * m * n * k) mod size_t_modulus
  /\ (2 * n < size_t_modulus -> flops.dot n = 2 * n /\ flops.axpy n = 2 * n)
  /\ (2 * m * n < size_t_modulus -> flops.gemv m n = 2 * m * n)
  /\ (2 * m * n * k < size_t_modulus -> flops.gemm m n k = 2 * m * n * k).
Proof.
  unfold size_t_range; intros Hm Hn Hk.
  assert (Hgemv : flops.gemv m n = size_t_wrap (2 * m * n))
    by (unfold flops.gemv; apply size_t_wrap_mul_l).
  assert (Hgemm : flops.gemm m n k = size_t_wrap (2 * m * n * k))
    by (unfold flops.gemm; rewrite size_t_wrap_mul_l, <- Z.mul_assoc, size_t_wrap_mul_l;
        rewrite !Z.mul_assoc; reflexivity).
  rewrite Hgemv, Hgemm; unfold flops.dot, flops.axpy, flops.scal.
  refine (conj eq_refl (conj eq_refl (conj eq_refl (conj eq_refl (conj eq_refl _))))).
  repeat split; intros; apply size_t_wrap_small; nia.
Qed.

(** ** C4: the cache size used for flushing *)

(** C4: with cache sizes whose sum fits in [std::size_t], the runner uses
    16 MiB when L1 + L2 + L3 is below 1 MiB and the sum itself otherwise; in
    particular a detected total of 512 KiB gives 16 MiB. *)
Theorem runner_cache_size_floor (config : config.BenchmarkConfig) (sys_info : SystemInfo) :
  0 <= l1_cache sys_info -> 0 <= l2_cache sys_info -> 0 <= l3_cache sys_info ->
  l1_cache sys_info + l2_cache sys_info + l3_cache sys_info < size_t_modulus ->
  m_cache_size (make_runner config sys_info)
  = (let total := l1_cache sys_info + l2_cache sys_info + l3_cache sys_info in
     if total <? MiB then 16 * MiB else total)
  /\ (l1_cache sys_info + l2_cache sys_info + l3_cache sys_info = 512 * 1024 ->
      m_cache_size (make_runner config sys_info) = 16 * MiB).
Proof.
  intros H1 H2 H3 Hsum; cbn [make_runner m_cache_size]; unfold runner_cache_size.
  rewrite (size_t_wrap_small (l1_cache sys_info + l2_cache sys_info)) by lia.
  rewrite size_t_wrap_small by lia.
  split; [reflexivity|].
  intros Heq; rewrite Heq; reflexivity.
Qed.

Lemma runner_cache_size_floor_witness :
  0 <= 32768 /\ 0 <= 491520 /\ 0 <= 0 /\ 32768 + 491520 + 0 < size_t_modulus /\
  m_cache_size (make_runner config.get_default
                  {| l1_cache := 32768; l2_cache := 491520; l3_cache := 0 |}) = 16 * MiB.
Proof.
  refine (conj _ (conj _ (conj _ (conj _ _)))); [lia | lia | lia | vm_compute; reflexivity |].
  apply (proj2 (runner_cache_size_floor config.get_default
                  {| l1_cache := 32768; l2_cache := 491520; l3_cache := 0 |}
                  ltac:(cbn; lia) ltac:(cbn; lia) ltac:(cbn; lia) ltac:(vm_compute; reflexivity)));
    reflexivity.
Defined.

(** ** C8: the cache evictor *)

(** C8 (as stated, refuted): for a target of 1 MiB + 1 bytes the evictor's
    buffer of [double]s holds 4 MiB, 4 bytes short of four times the target. *)
Lemma flush_cache_odd_short :
  match utils.flush_cache (fun _ => true) 1048577 with
  | inr (buffer_size, _) => sizeof_double * buffer_size < 4 * 1048577
  | inl _ => False
  end.
Proof.
  unfold utils.flush_cache; cbv zeta.
  replace (flush_buffer_size 1048577) with 524288 by (vm_compute; reflexivity).
  replace (vector_alloc (fun _ => true) vector_ctor_msg 524288) with (@None Exn)
    by (vm_compute; reflexivity).
  cbv beta iota; unfold sizeof_double; lia.
Qed.

(** C8 (amended): for a target [S] with [4S] in [std::size_t] range, the
    evictor's buffer has [S / 2] (rounded down) [double]s, that is [4S] bytes
    when [S] is even and [4S - 4] bytes when [S] is odd.  Beyond
    [max_size() = 2^60 - 1] elements the [std::vector] constructor throws
    [std::length_error], when [operator new] fails it throws
    [std::bad_alloc]; otherwise the evictor reads then writes each element
    once, in index order. *)
Theorem flush_cache_touches (heap_ok : Z -> bool) (S : Z) :
  0 <= S -> 4 * S < size_t_modulus ->
  flush_buffer_size S = S / 2
  /\ sizeof_double * (S / 2) = 4 * S - 4 * (S mod 2)
  /\ 4 * S - 4 <= sizeof_double * (S / 2) <= 4 * S
  /\ utils.flush_cache heap_ok S
     = if vector_max_size <? S / 2 then inl (LengthError vector_ctor_msg)
       else if (S / 2 =? 0) || heap_ok (S / 2)
       then inr (S / 2, flat_map (fun j => [ReadElem (Z.of_nat j); WriteElem (Z.of_nat j)])
                                 (seq 0 (Z.to_nat (S / 2))))
       else inl BadAlloc.
Proof.
  intros H0 H4.
  assert (Hb : flush_buffer_size S = S / 2).
  { unfold flush_buffer_size, sizeof_double; cbv zeta.
    rewrite size_t_wrap_small by lia.
    replace (S * 4) with (S * 4 * 1) by lia.
    rewrite (Z.mul_comm S 4), <- Z.mul_assoc.
    replace 8 with (4 * 2) by reflexivity.
    rewrite <- Z.div_div by lia. rewrite Z.mul_1_r, Z.mul_comm, Z.div_mul by lia.
    reflexivity. }
  pose proof (Z.div_mod S 2 ltac:(lia)) as Hd.
  pose proof (Z.mod_pos_bound S 2 ltac:(lia)) as Hr.
  split; [exact Hb|]; unfold sizeof_double in *.
  split; [lia|]; split; [lia|].
  unfold utils.flush_cache, vector_alloc; cbv zeta; rewrite Hb.
  destruct (vector_max_size <? S / 2); [reflexivity|].
  destruct ((S / 2 =? 0) || heap_ok (S / 2)); [|reflexivity].
  rewrite (flush_loop_seq 0); reflexivity.
Qed.

Lemma flush_cache_touches_witness :
  (0 <= 16777216 /\ 4 * 16777216 < size_t_modulus
   /\ exists accesses, utils.flush_cache (fun _ => true) 16777216 = inr (8388608, accesses))
  /\ (0 <= 2 ^ 61 /\ 4 * 2 ^ 61 < size_t_modulus
      /\ utils.flush_cache (fun _ => true) (2 ^ 61) = inl (LengthError vector_ctor_msg)).
Proof.
  split.
  - refine (conj _ (conj _ _)); [lia | vm_compute; reflexivity |].
    destruct (flush_cache_touches (fun _ => true) 16777216 ltac:(lia)
                ltac:(vm_compute; reflexivity)) as (_ & _ & _ & H).
    rewrite H.
    replace (16777216 / 2) with 8388608 by reflexivity.
    replace (vector_max_size <? 8388608) with false by (vm_compute; reflexivity).
    cbv beta iota; eexists; reflexivity.
  - refine (conj _ (conj _ _)); [lia | vm_compute; reflexivity |].
    destruct (flush_cache_touches (fun _ => true) (2 ^ 61) ltac:(lia)
                ltac:(vm_compute; reflexivity)) as (_ & _ & _ & H).
    rewrite H.
    replace (vector_max_size <? 2 ^ 61 / 2) with true by (vm_compute; reflexivity).
    reflexivity.
Defined.

Lemma flops_model_counts_witness :
  size_t_range 1024 /\ flops.gemm 1024 1024 1024 = 2 * 1024 * 1024 * 1024.
Proof.
  split; [unfold size_t_range, size_t_modulus; lia|].
  destruct (flops_model_counts 1024 1024 1024) as (_ & _ & _ & _ & _ & _ & _ & H);
    try (unfold size_t_range, size_t_modulus; lia).
  apply H; unfold size_t_modulus; lia.
Defined.

(** ** The measurement loop *)

Section EngineFacts.

Variable A : Arith.
Variable clock : nat -> val A.
Variable env : Env.

Lemma vector_alloc_ok (what : string) (n : Z) :
  alloc_ok env n = true -> vector_alloc (heap_ok env) what n = None.
Proof.
  unfold alloc_ok, vector_alloc; intros H; apply andb_prop in H as [H1 H2].
  apply Z.leb_le in H1.
  destruct (vector_max_size <? n) eqn:E; [apply Z.ltb_lt in E; lia|].
  rewrite H2; reflexivity.
Qed.

Lemma vector_alloc_fail (what : string) (n : Z) :
  alloc_ok env n = false ->
  vector_alloc (heap_ok env) what n = Some BadAlloc
  \/ vector_alloc (heap_ok env) what n = Some (LengthError what).
Proof.
  unfold alloc_ok, vector_alloc; intros H.
  destruct (vector_max_size <? n) eqn:E; [right; reflexivity|left].
  apply Z.ltb_ge in E; apply Z.leb_le in E; rewrite E in H; cbn [andb] in H.
  rewrite H; reflexivity.
Qed.

Lemma allocate_ok (what : string) (n : Z) (st : St) :
  alloc_ok env n = true -> allocate env what n st = Ok tt st.
Proof. intros H; unfold allocate; rewrite (vector_alloc_ok what n H); reflexivity. Qed.

Lemma maybe_flush_run (fl : bool) (c : Z) (st : St) :
  negb fl || alloc_ok env (flush_buffer_size c) = true ->
  maybe_flush env fl c st
  = Ok tt {| trace := trace st ++ flush_events fl c; ticks := ticks st |}.
Proof.
  destruct fl; cbn [negb orb]; intros H; unfold maybe_flush.
  - cbn [bind]; rewrite allocate_ok by exact H; reflexivity.
  - cbn; rewrite app_nil_r; destruct st; reflexivity.
Qed.

Lemma generate_operands_ok (sizes : list Z) (st : St) :
  forallb (alloc_ok env) sizes = true -> random_device_ok env = true ->
  generate_operands env sizes st = Ok tt st.
Proof.
  intros Hs Hr; induction sizes as [|n sizes IH]; [reflexivity|].
  cbn [forallb] in Hs; apply andb_prop in Hs as [Hn Hs].
  cbn [generate_operands bind]; unfold generate_random_data; cbn [bind].
  rewrite allocate_ok by exact Hn; rewrite Hr; cbn [ret]; exact (IH Hs).
Qed.

Lemma generate_operands_fail (sizes : list Z) (st : St) :
  forallb (alloc_ok env) sizes = false -> random_device_ok env = true ->
  exists e, generate_operands env sizes st = Thrown e st
            /\ (e = BadAlloc \/ e = LengthError vector_ctor_msg).
Proof.
  intros Hs Hr; induction sizes as [|n sizes IH]; [discriminate|].
  cbn [forallb] in Hs.
  cbn [generate_operands bind]; unfold generate_random_data; cbn [bind].
  destruct (alloc_ok env n) eqn:Hn.
  - rewrite allocate_ok by exact Hn; rewrite Hr; cbn [ret andb] in *; exact (IH Hs).
  - unfold allocate.
    destruct (vector_alloc_fail vector_ctor_msg n Hn) as [E|E]; rewrite E;
      eexists; split; try reflexivity; auto.
Qed.

Lemma warmup_loop_run (k : Kernel) (fl : bool) (c : Z) (n : nat) (st : St) :
  negb fl || alloc_ok env (flush_buffer_size c) = true ->
  repeat_M n (maybe_flush env fl c ;;; emit (EvWarmup k)) st
  = Ok tt {| trace := trace st ++ List.concat (repeat (flush_events fl c ++ [EvWarmup k]) n);
             ticks := ticks st |}.
Proof.
  intros Hf; revert st; induction n as [|n IH]; intros st; cbn [repeat_M repeat List.concat].
  - cbn; rewrite app_nil_r; destruct st; reflexivity.
  - cbn [bind]; rewrite maybe_flush_run by exact Hf; cbn [emit trace ticks].
    rewrite IH; cbn [trace ticks]; rewrite !app_assoc; reflexivity.
Qed.

Lemma kernel_env_ok_parts (k : Kernel) (fl : bool) (c : Z) :
  kernel_env_ok env k fl c = true ->
  forallb (alloc_ok env) (operand_sizes k) = true /\ random_device_ok env = true
  /\ negb fl || alloc_ok env (flush_buffer_size c) = true.
Proof.
  unfold kernel_env_ok; intros H.
  apply andb_prop in H as [H H3]; apply andb_prop in H as [H1 H2]; auto.
Qed.

(** One call of a benchmark closure with [cycles = 1]: the operands, [W]
    warmups, then one timed call whose reading becomes the returned
    average. *)
Lemma benchmark_kernel_one (k : Kernel) (W : Z) (fl : bool) (c : Z) (st : St) :
  kernel_env_ok env k fl c = true ->
  benchmark_kernel A clock env k W 1 fl c st
  = Ok (a_div A (a_add A (a_zero A) (clock (ticks st))) (a_of_size A 1))
       {| trace := trace st ++ cycle_events k (Z.to_nat W) fl c;
          ticks := S (ticks st) |}.
Proof.
  intros Hk; destruct (kernel_env_ok_parts k fl c Hk) as (Hs & Hr & Hf).
  unfold benchmark_kernel; change (Z.to_nat 1) with 1%nat; cbn [bind].
  rewrite generate_operands_ok by assumption.
  rewrite warmup_loop_run by exact Hf; cbn [timed_loop bind].
  rewrite maybe_flush_run by exact Hf; cbn [timed_call trace ticks timed_loop ret].
  unfold cycle_events; rewrite !app_assoc; reflexivity.
Qed.

Lemma collect_times_run (k : Kernel) (W : Z) (fl : bool) (c : Z) (n : nat) (st : St) :
  kernel_env_ok env k fl c = true ->
  collect_times A n (benchmark_kernel A clock env k W 1 fl c) st
  = Ok (map (fun i => a_div A (a_add A (a_zero A) (clock i)) (a_of_size A 1))
            (seq (ticks st) n))
       {| trace := trace st ++ List.concat (repeat (cycle_events k (Z.to_nat W) fl c) n);
          ticks := ticks st + n |}.
Proof.
  intros Hk; revert st; induction n as [|n IH]; intros st; cbn [collect_times].
  - cbn; rewrite app_nil_r, Nat.add_0_r; destruct st; reflexivity.
  - cbn [bind]; rewrite benchmark_kernel_one, IH by exact Hk; cbn [trace ticks ret seq map].
    rewrite <- !app_assoc, Nat.add_succ_r; reflexivity.
Qed.

Lemma aggregate_fields (cfg : config.BenchmarkConfig) (name cstr : string)
    (times : list (val A)) (fc : Z) (r : BenchmarkResult A) :
  aggregate A cfg name cstr times fc = Some r ->
  function_name A r = name /\ config_str A r = cstr
  /\ threads A r = config.threads cfg /\ flops A r = fc
  /\ avg_time_ms A r = average A times
  /\ gflops A r = gflops_of A fc (avg_time_ms A r)
  /\ min_element A times = Some (min_time_ms A r)
  /\ max_element A times = Some (max_time_ms A r).
Proof.
  unfold aggregate.
  destruct (min_element A times) eqn:Hmin; [|discriminate].
  destruct (max_element A times) eqn:Hmax; [|discriminate].
  intros H; injection H as <-; cbn; repeat split.
Qed.

Lemma aggregate_some (cfg : config.BenchmarkConfig) (name cstr : string)
    (times : list (val A)) (fc : Z) :
  times <> [] -> exists r, aggregate A cfg name cstr times fc = Some r.
Proof.
  destruct times as [|t times]; [congruence|]; intros _.
  unfold aggregate; cbn; eexists; reflexivity.
Qed.

(** [run_single_benchmark] over a benchmark closure, for [cycles >= 1]. *)
Lemma run_single_kernel (cfg : config.BenchmarkConfig) (name cstr : string)
    (k : Kernel) (W : Z) (fl : bool) (c fc : Z) (st : St) :
  1 <= config.cycles cfg ->
  alloc_ok env (size_of_int (config.cycles cfg)) = true ->
  kernel_env_ok env k fl c = true ->
  exists r,
    aggregate A cfg name cstr
      (map (fun i => a_div A (a_add A (a_zero A) (clock i)) (a_of_size A 1))
           (seq (ticks st) (Z.to_nat (config.cycles cfg)))) fc = Some r
    /\ run_single_benchmark A env cfg name cstr (benchmark_kernel A clock env k W 1 fl c) fc st
       = Ok r {| trace := trace st ++ List.concat (repeat (cycle_events k (Z.to_nat W) fl c)
                                                  (Z.to_nat (config.cycles cfg)));
                 ticks := ticks st + Z.to_nat (config.cycles cfg) |}.
Proof.
  intros Hc Hres Hk.
  destruct (aggregate_some cfg name cstr
              (map (fun i => a_div A (a_add A (a_zero A) (clock i)) (a_of_size A 1))
                   (seq (ticks st) (Z.to_nat (config.cycles cfg)))) fc) as [r Hr].
  { destruct (Z.to_nat (config.cycles cfg)) eqn:E; [lia|]; cbn; congruence. }
  exists r; split; [exact Hr|].
  unfold run_single_benchmark; cbn [bind].
  rewrite allocate_ok by exact Hres; rewrite collect_times_run, Hr by exact Hk; reflexivity.
Qed.

(** [run_single_benchmark] when an operand of the benchmark cannot be
    allocated: the first call throws, before any backend call. *)
Lemma run_single_kernel_fail (cfg : config.BenchmarkConfig) (name cstr : string)
    (k : Kernel) (W : Z) (fl : bool) (c fc : Z) (st : St) :
  1 <= config.cycles cfg ->
  alloc_ok env (size_of_int (config.cycles cfg)) = true ->
  random_device_ok env = true ->
  forallb (alloc_ok env) (operand_sizes k) = false ->
  exists e,
    run_single_benchmark A env cfg name cstr (benchmark_kernel A clock env k W 1 fl c) fc st
    = Thrown e st
    /\ (e = BadAlloc \/ e = LengthError vector_ctor_msg).
Proof.
  intros Hc Hres Hr Hs.
  destruct (generate_operands_fail (operand_sizes k) st Hs Hr) as (e & He & He').
  exists e; split; [|exact He'].
  unfold run_single_benchmark; cbn [bind]; rewrite allocate_ok by exact Hres.
  destruct (Z.to_nat (config.cycles cfg)) eqn:E; [lia|].
  cbn [collect_times bind]; unfold benchmark_kernel; cbn [bind]; rewrite He; reflexivity.
Qed.

End EngineFacts.

Lemma backend_calls_app (l1 l2 : list Event) :
  List.length (filter is_backend_call (l1 ++ l2))
  = (List.length (filter is_backend_call l1) + List.length (filter is_backend_call l2))%nat.
Proof. rewrite filter_app, length_app; reflexivity. Qed.

Lemma backend_calls_cycle (k : Kernel) (W : nat) (fl : bool) (c : Z) :
  List.length (filter is_backend_call (cycle_events k W fl c)) = (W + 1)%nat.
Proof.
  unfold cycle_events; rewrite !backend_calls_app.
  assert (Hf : List.length (filter is_backend_call (flush_events fl c)) = 0%nat)
    by (destruct fl; reflexivity).
  induction W as [|W IH]; cbn [repeat List.concat]; rewrite ?backend_calls_app, Hf in *;
    cbn in *; lia.
Qed.

Lemma backend_calls_rounds (k : Kernel) (W C : nat) (fl : bool) (c : Z) :
  List.length (filter is_backend_call (List.concat (repeat (cycle_events k W fl c) C)))
  = (C * (W + 1))%nat.
Proof.
  induction C as [|C IH]; cbn [repeat List.concat]; [reflexivity|].
  rewrite backend_calls_app, backend_calls_cycle, IH; lia.
Qed.

Lemma Qplus_fold_left (l : list Q) (acc : Q) :
  (fold_left Qplus l acc == acc + fold_right Qplus 0 l)%Q.
Proof.
  revert acc; induction l as [|x l IH]; intros acc; cbn [fold_left fold_right].
  - ring.
  - rewrite IH; ring.
Qed.

Lemma Qplus_fold_right_Forall2 (l l' : list Q) :
  Forall2 Qeq l l' -> (fold_right Qplus 0 l == fold_right Qplus 0 l')%Q.
Proof.
  induction 1 as [|x x' l l' Hx _ IH]; cbn [fold_right]; [reflexivity|].
  rewrite Hx, IH; reflexivity.
Qed.

(** The average the code computes is, in exact arithmetic, the mean. *)
Lemma average_exact_mean (l l' : list Q) :
  Forall2 Qeq l l' -> (average Exact l == mean l')%Q.
Proof.
  intros H; unfold average, mean; cbn [a_div a_add a_zero a_of_size Exact].
  change (val Exact) with Q.
  rewrite (Forall2_length H), Qplus_fold_left, (Qplus_fold_right_Forall2 _ _ H).
  rewrite Qplus_0_l; reflexivity.
Qed.

Lemma sample_exact (x : Q) : ((0 + x) / inject_Z 1 == x)%Q.
Proof. unfold Qdiv; change (Qinv (inject_Z 1)) with 1%Q; ring. Qed.

(** ** C1: warmup and timed cycles *)

(** C1 (as stated, refuted): with one warmup and two timed cycles, the
    benchmark makes four backend calls, warmup, timed, warmup, timed, and not
    [W + C = 3]. *)
Lemma measurement_loop_not_w_plus_c :
  let cfg := {| config.threads := 1; config.cycles := 2; config.warmup := 1;
                config.flush_cache := false;
                config.level1_size := Some 1000; config.level2_size := None;
                config.level3_size := None;
                config.level1_functions := ["cblas_ddot"%string];
                config.level2_functions := []; config.level3_functions := [] |} in
  let clk := fun _ : nat => elapsed_ms Double 1000 in
  let run := run_single_benchmark Double unlimited_env cfg "ddot" "N=1000"
               (benchmark_dot Double clk unlimited_env 1000 1 1 false (16 * MiB))
               (flops.dot 1000) {| trace := []; ticks := 0 |} in
  match run with Ok _ st' => trace st' | _ => [] end
    = [EvWarmup (KDot 1000); EvTimed (KDot 1000); EvWarmup (KDot 1000); EvTimed (KDot 1000)]
  /\ match run with
     | Ok _ st' => List.length (filter is_backend_call (trace st'))
     | _ => 0%nat
     end <> (1 + 2)%nat.
Proof. vm_compute; split; [reflexivity | discriminate]. Qed.

Lemma run_single_reserve_fail (A : Arith) (env : Env) (cfg : config.BenchmarkConfig)
    (name cstr : string) (f : M (val A)) (fc : Z) (st : St) :
  alloc_ok env (size_of_int (config.cycles cfg)) = false ->
  exists e, run_single_benchmark A env cfg name cstr f fc st = Thrown e st
            /\ (e = BadAlloc \/ e = LengthError vector_reserve_msg).
Proof.
  intros H; unfold run_single_benchmark, allocate; cbn [bind].
  destruct (vector_alloc_fail env vector_reserve_msg _ H) as [E|E]; rewrite E;
    eexists; split; try reflexivity; auto.
Qed.

(** C1 (amended): for [cycles = C >= 1] and [warmup = W >= 0], when the
    random device can be read and the flush buffer (if flushing) can be
    allocated: if the [reserve] of the [C] samples and every operand of the
    operation can be allocated, the measurement loop calls the benchmark
    closure [C] times and each call performs [W] untimed warmup calls
    followed by one timed call, each preceded by a flush of [cache] when
    flushing is on; the run makes [C * (W + 1)] backend calls, its [C]
    samples are the [C] clock readings of the timed calls, and the reported
    average is, in exact arithmetic, their mean.  Otherwise the run throws
    [std::bad_alloc] or [std::length_error] before any backend call. *)
Theorem measurement_loop_rounds (clock : nat -> Q) (env : Env) (cfg : config.BenchmarkConfig)
    (name cstr : string) (k : Kernel) (cache fc : Z) (st : St) :
  1 <= config.cycles cfg -> 0 <= config.warmup cfg <= 2147483647 ->
  random_device_ok env = true ->
  negb (config.flush_cache cfg) || alloc_ok env (flush_buffer_size cache) = true ->
  let W := Z.to_nat (config.warmup cfg) in
  let C := Z.to_nat (config.cycles cfg) in
  let func := benchmark_kernel Exact clock env k (size_of_int (config.warmup cfg)) 1
                               (config.flush_cache cfg) cache in
  (alloc_ok env (size_of_int (config.cycles cfg)) && forallb (alloc_ok env) (operand_sizes k)
   = true ->
   exists times st' r,
     collect_times Exact C func st = Ok times st'
     /\ trace st' = trace st ++ List.concat (repeat (cycle_events k W (config.flush_cache cfg) cache) C)
     /\ ticks st' = (ticks st + C)%nat
     /\ List.length (filter is_backend_call (trace st'))
        = (List.length (filter is_backend_call (trace st)) + C * (W + 1))%nat
     /\ Forall2 Qeq times (map clock (seq (ticks st) C))
     /\ run_single_benchmark Exact env cfg name cstr func fc st = Ok r st'
     /\ (avg_time_ms Exact r == mean (map clock (seq (ticks st) C)))%Q)
  /\ (alloc_ok env (size_of_int (config.cycles cfg)) && forallb (alloc_ok env) (operand_sizes k)
      = false ->
      exists e, run_single_benchmark Exact env cfg name cstr func fc st = Thrown e st
                /\ (e = BadAlloc \/ e = LengthError vector_ctor_msg
                    \/ e = LengthError vector_reserve_msg)).
Proof.
  intros Hc Hw Hrd Hfl W C func.
  assert (HW : size_of_int (config.warmup cfg) = config.warmup cfg)
    by (apply size_t_wrap_small; unfold size_t_modulus; lia).
  split.
  - intros Hok; apply andb_prop in Hok as [Hres Hops].
    assert (Hk : kernel_env_ok env k (config.flush_cache cfg) cache = true)
      by (unfold kernel_env_ok; rewrite Hops, Hrd, Hfl; reflexivity).
    destruct (run_single_kernel Exact clock env cfg name cstr k (size_of_int (config.warmup cfg))
                (config.flush_cache cfg) cache fc st Hc Hres Hk) as [r [Hagg Hrun]].
    rewrite HW in Hrun.
    do 3 eexists; split; [unfold func; rewrite collect_times_run, HW by exact Hk; reflexivity|].
    cbn [trace ticks]; split; [reflexivity|]; split; [reflexivity|].
    assert (Hs : Forall2 Qeq
                   (map (fun i => a_div Exact (a_add Exact (a_zero Exact) (clock i))
                                        (a_of_size Exact 1)) (seq (ticks st) C))
                   (map clock (seq (ticks st) C))).
    { clear. induction (seq (ticks st) C) as [|i l IH]; cbn [map]; constructor;
        [apply sample_exact | exact IH]. }
    split; [rewrite backend_calls_app, backend_calls_rounds; reflexivity|].
    split; [exact Hs|]; split; [unfold func; rewrite HW; exact Hrun|].
    destruct (aggregate_fields _ _ _ _ _ _ _ Hagg) as (_ & _ & _ & _ & Havg & _).
    rewrite Havg; apply average_exact_mean; exact Hs.
  - intros Hko.
    destruct (alloc_ok env (size_of_int (config.cycles cfg))) eqn:Hres.
    + cbn [andb] in Hko.
      destruct (run_single_kernel_fail Exact clock env cfg name cstr k
                  (size_of_int (config.warmup cfg)) (config.flush_cache cfg) cache fc st
                  Hc Hres Hrd Hko) as (e & He & He').
      exists e; split; [exact He | tauto].
    + destruct (run_single_reserve_fail Exact env cfg name cstr func fc st Hres)
        as (e & He & He').
      exists e; split; [exact He | tauto].
Qed.

Lemma measurement_loop_rounds_witness :
  1 <= config.cycles config.get_default /\ 0 <= config.warmup config.get_default <= 2147483647 /\
  (exists r st',
    run_single_benchmark Exact unlimited_env config.get_default "ddot" "N=1000000"
      (benchmark_kernel Exact (fun i => inject_Z (Z.of_nat i)) unlimited_env (KDot 1000000) 3 1
                        true (16 * MiB))
      (flops.dot 1000000) {| trace := []; ticks := 0 |} = Ok r st'
    /\ List.length (filter is_backend_call (trace st')) = 20%nat)
  /\ (exists e,
    run_single_benchmark Exact unlimited_env config.get_default "ddot" "N=2^61"
      (benchmark_kernel Exact (fun i => inject_Z (Z.of_nat i)) unlimited_env (KDot (2 ^ 61)) 3 1
                        true (16 * MiB))
      (flops.dot (2 ^ 61)) {| trace := []; ticks := 0 |} = Thrown e {| trace := []; ticks := 0 |}
    /\ (e = BadAlloc \/ e = LengthError vector_ctor_msg \/ e = LengthError vector_reserve_msg)).
Proof.
  refine (conj _ (conj _ (conj _ _))); [cbn; lia | cbn; lia | |].
  - destruct (measurement_loop_rounds (fun i => inject_Z (Z.of_nat i)) unlimited_env
                config.get_default "ddot" "N=1000000" (KDot 1000000) (16 * MiB)
                (flops.dot 1000000) {| trace := []; ticks := 0 |} ltac:(cbn; lia) ltac:(cbn; lia)
                eq_refl ltac:(vm_compute; reflexivity)) as [Hok _].
    destruct (Hok ltac:(vm_compute; reflexivity))
      as (times & st' & r & _ & _ & _ & Hcount & _ & Hrun & _).
    exists r, st'; split; [exact Hrun | rewrite Hcount; reflexivity].
  - destruct (measurement_loop_rounds (fun i => inject_Z (Z.of_nat i)) unlimited_env
                config.get_default "ddot" "N=2^61" (KDot (2 ^ 61)) (16 * MiB)
                (flops.dot (2 ^ 61)) {| trace := []; ticks := 0 |} ltac:(cbn; lia) ltac:(cbn; lia)
                eq_refl ltac:(vm_compute; reflexivity)) as [_ Hko].
    exact (Hko ltac:(vm_compute; reflexivity)).
Defined.

(** ** C2: the result aggregator *)

Lemma Qltb_spec (x y : Q) : Qltb x y = true <-> (x < y)%Q.
Proof.
  unfold Qltb; rewrite negb_true_iff; split; intros H.
  - apply Qnot_le_lt; intros Hle; apply Qle_bool_iff in Hle; congruence.
  - destruct (Qle_bool y x) eqn:E; [|reflexivity].
    apply Qle_bool_iff in E; exfalso; apply (Qlt_not_le _ _ H E).
Qed.

Lemma Qltb_false (x y : Q) : Qltb x y = false -> (y <= x)%Q.
Proof.
  unfold Qltb; rewrite negb_false_iff; apply Qle_bool_iff.
Qed.

Lemma min_from_spec (l : list Q) (m : Q) :
  In (min_from Exact m l) (m :: l) /\ Forall (fun x => min_from Exact m l <= x)%Q (m :: l).
Proof.
  revert m; induction l as [|x l IH]; intros m; cbn [min_from].
  - split; [left; reflexivity | constructor; [apply Qle_refl | constructor]].
  - cbn [a_ltb Exact].
    destruct (Qltb x m) eqn:E; destruct (IH (if Qltb x m then x else m)) as [Hin Hall];
      rewrite E in Hin, Hall; inversion Hall as [|? ? Hm Hrest]; subst.
    + split; [destruct Hin; [right; left; auto | right; right; auto]|].
      apply Qltb_spec in E.
      constructor; [apply Qlt_le_weak, (Qle_lt_trans _ _ _ Hm E)|constructor; auto].
    + split; [destruct Hin; [left; auto | right; right; auto]|].
      apply Qltb_false in E.
      constructor; [exact Hm | constructor; [apply (Qle_trans _ _ _ Hm E) | exact Hrest]].
Qed.

Lemma max_from_spec (l : list Q) (m : Q) :
  In (max_from Exact m l) (m :: l) /\ Forall (fun x => x <= max_from Exact m l)%Q (m :: l).
Proof.
  revert m; induction l as [|x l IH]; intros m; cbn [max_from].
  - split; [left; reflexivity | constructor; [apply Qle_refl | constructor]].
  - cbn [a_ltb Exact].
    destruct (Qltb m x) eqn:E; destruct (IH (if Qltb m x then x else m)) as [Hin Hall];
      rewrite E in Hin, Hall; inversion Hall as [|? ? Hm Hrest]; subst.
    + split; [destruct Hin; [right; left; auto | right; right; auto]|].
      apply Qltb_spec in E.
      constructor; [apply Qlt_le_weak, (Qlt_le_trans _ _ _ E Hm)|constructor; auto].
    + split; [destruct Hin; [left; auto | right; right; auto]|].
      apply Qltb_false in E.
      constructor; [exact Hm | constructor; [apply (Qle_trans _ _ _ E Hm) | exact Hrest]].
Qed.

Lemma sum_lower (l : list Q) (m : Q) :
  Forall (fun x => m <= x)%Q l ->
  (inject_Z (Z.of_nat (List.length l)) * m <= fold_right Qplus 0 l)%Q.
Proof.
  induction 1 as [|x l Hx _ IH]; cbn [List.length fold_right].
  - change (inject_Z (Z.of_nat 0)) with 0%Q; rewrite Qmult_0_l; apply Qle_refl.
  - rewrite Nat2Z.inj_succ, <- Z.add_1_r, inject_Z_plus; change (inject_Z 1) with 1%Q.
    setoid_replace ((inject_Z (Z.of_nat (List.length l)) + 1) * m)%Q
      with (m + inject_Z (Z.of_nat (List.length l)) * m)%Q by ring.
    apply Qplus_le_compat; assumption.
Qed.

Lemma sum_upper (l : list Q) (m : Q) :
  Forall (fun x => x <= m)%Q l ->
  (fold_right Qplus 0 l <= inject_Z (Z.of_nat (List.length l)) * m)%Q.
Proof.
  induction 1 as [|x l Hx _ IH]; cbn [List.length fold_right].
  - change (inject_Z (Z.of_nat 0)) with 0%Q; rewrite Qmult_0_l; apply Qle_refl.
  - rewrite Nat2Z.inj_succ, <- Z.add_1_r, inject_Z_plus; change (inject_Z 1) with 1%Q.
    setoid_replace ((inject_Z (Z.of_nat (List.length l)) + 1) * m)%Q
      with (m + inject_Z (Z.of_nat (List.length l)) * m)%Q by ring.
    apply Qplus_le_compat; assumption.
Qed.

Lemma length_pos_Q {T} (l : list T) :
  l <> [] -> (0 < inject_Z (Z.of_nat (List.length l)))%Q.
Proof.
  destruct l as [|x l]; [congruence|]; intros _.
  change (List.length (x :: l)) with (S (List.length l)).
  unfold Qlt; cbn [inject_Z Qnum Qden]; lia.
Qed.

(** C2 (as stated, refuted): three timed cycles of 100 microseconds each
    (0.1 ms per sample) make the [double] average 0.10000000000000002 ms,
    above the reported maximum 0.1 ms. *)
Lemma aggregate_avg_above_max :
  match run_single_benchmark Double unlimited_env
          (level1_config 3 0 false 1000 ["cblas_ddot"%string]) "ddot" "N=1000"
          (benchmark_dot Double (fun _ => elapsed_ms Double 100) unlimited_env 1000 0 1 false
                         (16 * MiB))
          (flops.dot 1000) {| trace := []; ticks := 0 |} with
  | Ok r _ => PrimFloat.ltb (max_time_ms Double r) (avg_time_ms Double r)
  | _ => false
  end = true.
Proof. vm_compute; reflexivity. Qed.

(** C2 (amended): for a non-empty sample vector the aggregator reports as
    [min] a least sample and as [max] a greatest sample; [avg] is
    [(0.0 + s1 + ... + sn) / n], which in exact arithmetic is the arithmetic
    mean, so [min <= avg <= max] there.  With [double] samples 1, 2, 3, 4, 5 ms
    ([cycles = 5], [warmup = 0]) the reported values are exactly 1, 3 and 5. *)
Theorem aggregate_stats (cfg : config.BenchmarkConfig) (name cstr : string)
    (times : list Q) (fc : Z) :
  times <> [] ->
  (exists r,
     aggregate Exact cfg name cstr times fc = Some r
     /\ In (min_time_ms Exact r) times /\ Forall (fun x => min_time_ms Exact r <= x)%Q times
     /\ In (max_time_ms Exact r) times /\ Forall (fun x => x <= max_time_ms Exact r)%Q times
     /\ (avg_time_ms Exact r == mean times)%Q
     /\ (min_time_ms Exact r <= avg_time_ms Exact r <= max_time_ms Exact r)%Q)
  /\ match run_single_benchmark Double unlimited_env
             (level1_config 5 0 true 1000000 ["cblas_ddot"%string]) "ddot" "N=1000000"
             (benchmark_dot Double (fun i => float_of_Z (Z.of_nat (S i))) unlimited_env
                            1000000 0 1 true (16 * MiB))
             (flops.dot 1000000) {| trace := []; ticks := 0 |} with
     | Ok r _ => Some (min_time_ms Double r, avg_time_ms Double r, max_time_ms Double r)
     | _ => None
     end = Some (float_of_Z 1, float_of_Z 3, float_of_Z 5).
Proof.
  intros Hne; split; [|vm_compute; reflexivity].
  destruct (aggregate_some Exact cfg name cstr times fc Hne) as [r Hr].
  exists r; split; [exact Hr|].
  destruct (aggregate_fields _ _ _ _ _ _ _ Hr) as (_ & _ & _ & _ & Havg & _ & Hmin & Hmax).
  destruct times as [|t times']; [congruence|].
  cbn [min_element max_element] in Hmin, Hmax.
  injection Hmin as Hmin; injection Hmax as Hmax.
  destruct (min_from_spec times' t) as [Hin_min Hall_min].
  destruct (max_from_spec times' t) as [Hin_max Hall_max].
  rewrite Hmin in Hin_min, Hall_min; rewrite Hmax in Hin_max, Hall_max.
  assert (Hmean : (avg_time_ms Exact r == mean (t :: times'))%Q).
  { rewrite Havg; apply average_exact_mean.
    clear; induction (t :: times'); constructor; [reflexivity | assumption]. }
  pose proof (length_pos_Q (t :: times') ltac:(congruence)) as Hpos.
  do 5 (split; [assumption|]).
  rewrite Hmean; unfold mean; split.
  - apply Qle_shift_div_l; [exact Hpos|].
    rewrite Qmult_comm; apply sum_lower; exact Hall_min.
  - apply Qle_shift_div_r; [exact Hpos|].
    rewrite Qmult_comm; apply sum_upper; exact Hall_max.
Qed.

Lemma aggregate_stats_witness :
  [1%Q; 2%Q] <> [] /\
  exists r, aggregate Exact config.get_default "ddot" "N=1000000" [1%Q; 2%Q] 2000000 = Some r
            /\ (avg_time_ms Exact r == 3 # 2)%Q.
Proof.
  split; [discriminate|].
  destruct (aggregate_stats config.get_default "ddot" "N=1000000" [1%Q; 2%Q] 2000000
              ltac:(discriminate)) as [[r (Hr & _ & _ & _ & _ & Havg & _)] _].
  exists r; split; [exact Hr|]; rewrite Havg; reflexivity.
Defined.

(** ** C9: throughput *)

Lemma gflops_exact_eq (F : Z) (t : Q) :
  ~ (t == 0)%Q ->
  (gflops_of Exact F t == inject_Z F / (t * inject_Z 1000000))%Q.
Proof.
  intros Ht; unfold gflops_of; cbn [a_div a_mul a_of_size Exact].
  field; repeat split; try exact Ht; discriminate.
Qed.

(** C9 (as stated, refuted): in [double] arithmetic the latencies 0.013 ms
    (13 microseconds) and 0.013000000000000001 ms (the average of five such
    samples) differ, yet give the same throughput for 2,000,000 FLOPs. *)
Lemma gflops_not_strict_in_double :
  let t1 := elapsed_ms Double 13 in
  let t2 := average Double (repeat t1 5) in
  PrimFloat.ltb t1 t2 = true
  /\ gflops_of Double 2000000 t1 = gflops_of Double 2000000 t2.
Proof. vm_compute; split; reflexivity. Qed.

(** C9 (amended): throughput is [(double)F / ((t / 1000.0) * 1e9)]; in exact
    arithmetic this is [F / (t * 10^6)], strictly decreasing in [t] for
    [F > 0] and strictly positive for [F > 0], [t > 0]. *)
Theorem gflops_exact_monotone (F : Z) (t1 t2 : Q) :
  0 < F -> (0 < t1)%Q -> (t1 < t2)%Q ->
  (gflops_of Exact F t1 == inject_Z F / (t1 * inject_Z 1000000))%Q
  /\ (gflops_of Exact F t2 < gflops_of Exact F t1)%Q
  /\ (0 < gflops_of Exact F t1)%Q.
Proof.
  intros HF H1 H12.
  assert (H2 : (0 < t2)%Q) by (apply (Qlt_trans _ _ _ H1 H12)).
  assert (HFq : (0 < inject_Z F)%Q) by (unfold Qlt; cbn; lia).
  assert (Hc : (0 < inject_Z 1000000)%Q) by reflexivity.
  assert (Hn1 : ~ (t1 == 0)%Q) by (intros E; rewrite E in H1; apply (Qlt_irrefl 0 H1)).
  assert (Hn2 : ~ (t2 == 0)%Q) by (intros E; rewrite E in H2; apply (Qlt_irrefl 0 H2)).
  assert (Hp1 : (0 < t1 * inject_Z 1000000)%Q) by (apply Qmult_lt_0_compat; assumption).
  assert (Hp2 : (0 < t2 * inject_Z 1000000)%Q) by (apply Qmult_lt_0_compat; assumption).
  rewrite (gflops_exact_eq F t2 Hn2), (gflops_exact_eq F t1 Hn1).
  split; [reflexivity|]; split.
  - unfold Qdiv; apply Qmult_lt_l; [exact HFq|].
    apply (proj1 (Qinv_lt_contravar _ _ Hp1 Hp2)).
    apply Qmult_lt_compat_r; assumption.
  - apply Qlt_shift_div_l; [exact Hp1|]; rewrite Qmult_0_l; exact HFq.
Qed.

Lemma gflops_exact_monotone_witness :
  0 < 2000000 /\ (0 < 1)%Q /\ (1 < 2)%Q /\
  (gflops_of Exact 2000000 2 < gflops_of Exact 2000000 1)%Q.
Proof.
  refine (conj _ (conj _ (conj _ _))); [lia | reflexivity | reflexivity |].
  apply (gflops_exact_monotone 2000000 1 2 ltac:(lia) ltac:(reflexivity) ltac:(reflexivity)).
Defined.

(** ** The orchestrator *)

Lemma forallb_incl {T} (f : T -> bool) (l1 l2 : list T) :
  incl l1 l2 -> forallb f l2 = true -> forallb f l1 = true.
Proof.
  intros Hi H; apply forallb_forall; intros x Hx; rewrite forallb_forall in H; auto.
Qed.

Ltac dispatch_hit E :=
  apply String.eqb_eq in E; subst; repeat split; eexists; split;
  [reflexivity | intros x Hx; cbn in Hx |- *; tauto].

Lemma dispatch1_ok (A : Arith) (clock : nat -> val A) (env : Env) (runner : BenchmarkRunner)
    (n : Z) :
  config.level1_size (m_config runner) = Some n ->
  dispatch_ok A clock env runner L1 (dispatch1 A clock env runner n).
Proof.
  intros Hn s; unfold dispatch1, configured_flops, level_operand_sizes; rewrite Hn.
  destruct (String.eqb s "cblas_ddot") eqn:E1; [dispatch_hit E1|].
  destruct (String.eqb s "cblas_daxpy") eqn:E2; [dispatch_hit E2|].
  destruct (String.eqb s "cblas_dscal") eqn:E3; [dispatch_hit E3|].
  unfold recognized; cbn [recognized_names existsb]; rewrite E1, E2, E3; reflexivity.
Qed.

Lemma dispatch2_ok (A : Arith) (clock : nat -> val A) (env : Env) (runner : BenchmarkRunner)
    (m n : Z) :
  config.level2_size (m_config runner) = Some (m, n) ->
  dispatch_ok A clock env runner L2 (dispatch2 A clock env runner m n).
Proof.
  intros Hn s; unfold dispatch2, configured_flops, level_operand_sizes; rewrite Hn.
  destruct (String.eqb s "cblas_dgemv") eqn:E1; [dispatch_hit E1|].
  unfold recognized; cbn [recognized_names existsb]; rewrite E1; reflexivity.
Qed.

Lemma dispatch3_ok (A : Arith) (clock : nat -> val A) (env : Env) (runner : BenchmarkRunner)
    (m n k : Z) :
  config.level3_size (m_config runner) = Some (m, n, k) ->
  dispatch_ok A clock env runner L3 (dispatch3 A clock env runner m n k).
Proof.
  intros Hn s; unfold dispatch3, configured_flops, level_operand_sizes; rewrite Hn.
  destruct (String.eqb s "cblas_dgemm") eqn:E1; [dispatch_hit E1|].
  unfold recognized; cbn [recognized_names existsb]; rewrite E1; reflexivity.
Qed.

Lemma rounds_no_warn (lv : Level) (k : Kernel) (W C : nat) (fl : bool) (c : Z) :
  filter (is_warn_for lv) (List.concat (repeat (cycle_events k W fl c) C)) = [].
Proof.
  assert (Hf : filter (is_warn_for lv) (flush_events fl c) = []) by (destruct fl; reflexivity).
  assert (Hc : filter (is_warn_for lv) (cycle_events k W fl c) = []).
  { unfold cycle_events; rewrite !filter_app, Hf.
    induction W as [|W IH]; cbn [repeat List.concat]; [reflexivity|].
    rewrite !filter_app, Hf in *; exact IH. }
  induction C as [|C IH]; cbn [repeat List.concat]; [reflexivity|].
  rewrite filter_app, Hc, IH; reflexivity.
Qed.

Lemma push_result_same {A} (lv : Level) (report : BenchmarkReport A) (r : BenchmarkResult A) :
  level_results (push_result A lv report r) lv = level_results report lv ++ [r].
Proof. destruct lv; reflexivity. Qed.

Lemma push_result_other {A} (lv lv' : Level) (report : BenchmarkReport A) (r : BenchmarkResult A) :
  level_eqb lv lv' = false ->
  level_results (push_result A lv report r) lv' = level_results report lv'.
Proof. destruct lv, lv'; cbn; congruence. Qed.

Lemma level_eqb_refl (lv : Level) : level_eqb lv lv = true.
Proof. destruct lv; reflexivity. Qed.

Lemma level_eqb_sym (lv lv' : Level) : level_eqb lv lv' = level_eqb lv' lv.
Proof. destruct lv, lv'; reflexivity. Qed.

Lemma run_allocs_ok_parts (env : Env) (runner : BenchmarkRunner) :
  run_allocs_ok env runner = true ->
  alloc_ok env (size_of_int (config.cycles (m_config runner))) = true
  /\ random_device_ok env = true
  /\ negb (config.flush_cache (m_config runner))
     || alloc_ok env (flush_buffer_size (m_cache_size runner)) = true
  /\ forall lv, level_runs (m_config runner) lv = true ->
       forallb (alloc_ok env) (level_operand_sizes (m_config runner) lv) = true.
Proof.
  unfold run_allocs_ok; cbv zeta; intros H.
  apply andb_prop in H as [H H4]; apply andb_prop in H as [H H3];
    apply andb_prop in H as [H1 H2].
  split; [exact H1|]; split; [exact H2|]; split; [exact H3|].
  intros lv Hr; cbn [forallb] in H4; rewrite andb_true_r in H4.
  apply andb_prop in H4 as [H4 H5]; apply andb_prop in H5 as [H5 H6].
  destruct lv; [rename H4 into Hl|rename H5 into Hl|rename H6 into Hl];
    rewrite Hr in Hl; exact Hl.
Qed.

(** The loop of one level under a correct dispatch chain, when every
    allocation succeeds: one result per recognised name, in order, and one
    warning per other name. *)
Lemma run_level_loop_spec (A : Arith) (clock : nat -> val A) (env : Env)
    (runner : BenchmarkRunner) (lv : Level) (d : Dispatch A) (cstr : string)
    (names : list string) (report : BenchmarkReport A) (st : St) :
  1 <= config.cycles (m_config runner) ->
  alloc_ok env (size_of_int (config.cycles (m_config runner))) = true ->
  random_device_ok env = true ->
  negb (config.flush_cache (m_config runner))
  || alloc_ok env (flush_buffer_size (m_cache_size runner)) = true ->
  forallb (alloc_ok env) (level_operand_sizes (m_config runner) lv) = true ->
  dispatch_ok A clock env runner lv d ->
  exists report' st' evs results,
    run_level_loop A env lv d (m_config runner) cstr names report st = Ok report' st'
    /\ trace st' = trace st ++ evs
    /\ level_results report' lv = level_results report lv ++ results
    /\ (forall lv', level_eqb lv lv' = false ->
                    level_results report' lv' = level_results report lv')
    /\ map cblas_name results = filter (recognized lv) names
    /\ Forall (result_ok (m_config runner)) results
    /\ (forall lv', filter (is_warn_for lv') evs
                    = if level_eqb lv lv'
                      then map (EvWarn lv) (filter (fun s => negb (recognized lv s)) names)
                      else []).
Proof.
  intros Hc Hres Hrd Hfl Hops Hd; revert report st;
    induction names as [|s names IH]; intros report st.
  - exists report, st, [], []; cbn; rewrite !app_nil_r.
    repeat split; [constructor|]; intros lv'; destruct (level_eqb lv lv'); reflexivity.
  - cbn [run_level_loop]; specialize (Hd s) as Hs.
    destruct (d s) as [[[nm f] fc]|] eqn:Ed.
    + destruct Hs as (Hrec & Hnm & Hfc & k & -> & Hincl).
      assert (Hk : kernel_env_ok env k (config.flush_cache (m_config runner))
                                 (m_cache_size runner) = true).
      { unfold kernel_env_ok; rewrite (forallb_incl _ _ _ Hincl Hops), Hrd, Hfl; reflexivity. }
      destruct (run_single_kernel A clock env (m_config runner) nm cstr k
                  (size_of_int (config.warmup (m_config runner)))
                  (config.flush_cache (m_config runner))
                  (m_cache_size runner) fc st Hc Hres Hk) as [r [Hagg Hrun]].
      cbn [bind]; rewrite Hrun.
      destruct (IH (push_result A lv report r)
                   {| trace := trace st ++ List.concat
                                 (repeat (cycle_events k (Z.to_nat (size_of_int (config.warmup (m_config runner))))
                                           (config.flush_cache (m_config runner)) (m_cache_size runner))
                                         (Z.to_nat (config.cycles (m_config runner))));
                      ticks := ticks st + Z.to_nat (config.cycles (m_config runner)) |})
        as (report' & st' & evs & results & H1 & H2 & H3 & H4 & H5 & H6 & H7).
      apply aggregate_fields in Hagg as (Hname & _ & Hthr & Hflops & _ & Hgf & _).
      eexists report', st', _, (r :: results); split; [exact H1|].
      split; [rewrite H2; cbn [trace]; rewrite <- app_assoc; reflexivity|].
      split; [rewrite H3, push_result_same, <- app_assoc; reflexivity|].
      split; [intros lv' Hne; rewrite H4, push_result_other by exact Hne; reflexivity|].
      split; [cbn [map filter]; rewrite Hrec, H5; unfold cblas_name; rewrite Hname, Hnm; reflexivity|].
      split; [constructor; [unfold result_ok; rewrite Hthr, Hgf, Hname, Hflops; auto|exact H6]|].
      intros lv'; rewrite filter_app, rounds_no_warn, H7; cbn [filter]; rewrite Hrec; reflexivity.
    + cbn [bind emit].
      destruct (IH report {| trace := trace st ++ [EvWarn lv s]; ticks := ticks st |})
        as (report' & st' & evs & results & H1 & H2 & H3 & H4 & H5 & H6 & H7).
      exists report', st', (EvWarn lv s :: evs), results; split; [exact H1|].
      split; [rewrite H2; cbn [trace]; rewrite <- app_assoc; reflexivity|].
      split; [exact H3|]; split; [exact H4|].
      split; [cbn [filter]; rewrite Hs; exact H5|]; split; [exact H6|].
      intros lv'; cbn [filter is_warn_for]; rewrite Hs, H7, level_eqb_sym; cbn [negb].
      destruct (level_eqb lv lv'); reflexivity.
Qed.

(** One stage of [run_all]: a level that runs, or is skipped. *)
Lemma run_level_stage (A : Arith) (clock : nat -> val A) (env : Env)
    (runner : BenchmarkRunner) (lv : Level) (report : BenchmarkReport A) (st : St) :
  1 <= config.cycles (m_config runner) -> run_allocs_ok env runner = true ->
  exists report' st' evs results,
    (if level_runs (m_config runner) lv then run_level A clock env runner lv report
     else ret report) st = Ok report' st'
    /\ trace st' = trace st ++ evs
    /\ level_results report' lv = level_results report lv ++ results
    /\ (forall lv', level_eqb lv lv' = false ->
                    level_results report' lv' = level_results report lv')
    /\ map cblas_name results
       = (if level_runs (m_config runner) lv
          then filter (recognized lv) (level_functions (m_config runner) lv) else [])
    /\ Forall (result_ok (m_config runner)) results
    /\ (forall lv', filter (is_warn_for lv') evs
                    = if level_eqb lv lv' && level_runs (m_config runner) lv
                      then map (EvWarn lv) (filter (fun s => negb (recognized lv s))
                                                   (level_functions (m_config runner) lv))
                      else []).
Proof.
  intros Hc Hal; destruct (run_allocs_ok_parts env runner Hal) as (Hres & Hrd & Hfl & Hlv).
  destruct (level_runs (m_config runner) lv) eqn:Hr.
  - assert (Hsize : level_has_size (m_config runner) lv = true)
      by (unfold level_runs in Hr; apply andb_prop in Hr; apply Hr).
    pose proof (Hlv lv Hr) as Hops.
    assert (Hloop : exists report' st' evs results,
      run_level A clock env runner lv report st = Ok report' st'
      /\ trace st' = trace st ++ evs
      /\ level_results report' lv = level_results report lv ++ results
      /\ (forall lv', level_eqb lv lv' = false ->
                      level_results report' lv' = level_results report lv')
      /\ map cblas_name results = filter (recognized lv) (level_functions (m_config runner) lv)
      /\ Forall (result_ok (m_config runner)) results
      /\ (forall lv', filter (is_warn_for lv') evs
                      = if level_eqb lv lv'
                        then map (EvWarn lv) (filter (fun s => negb (recognized lv s))
                                                     (level_functions (m_config runner) lv))
                        else [])).
    { destruct lv; cbn [level_has_size] in Hsize; cbn [run_level level_functions].
      - unfold run_level1; cbv zeta.
        destruct (config.level1_size (m_config runner)) as [n|] eqn:Hs; [|discriminate].
        apply run_level_loop_spec with (clock := clock); try assumption.
        apply dispatch1_ok; exact Hs.
      - unfold run_level2; cbv zeta.
        destruct (config.level2_size (m_config runner)) as [[m n]|] eqn:Hs; [|discriminate].
        apply run_level_loop_spec with (clock := clock); try assumption.
        apply dispatch2_ok; exact Hs.
      - unfold run_level3; cbv zeta.
        destruct (config.level3_size (m_config runner)) as [[[m n] k]|] eqn:Hs; [|discriminate].
        apply run_level_loop_spec with (clock := clock); try assumption.
        apply dispatch3_ok; exact Hs. }
    destruct Hloop as (report' & st' & evs & results & H1 & H2 & H3 & H4 & H5 & H6 & H7).
    exists report', st', evs, results; repeat (split; [eassumption|]).
    intros lv'; rewrite andb_true_r; apply H7.
  - exists report, st, [], []; cbn; rewrite !app_nil_r.
    repeat split; [constructor|]; intros lv'; rewrite andb_false_r; reflexivity.
Qed.

Lemma run_all_stages (A : Arith) (clock : nat -> val A) (env : Env) (runner : BenchmarkRunner)
    (st : St) :
  run_all A clock env runner st
  = (emit (EvSetThreads (config.threads (m_config runner))) ;;;
     r1 <- (if level_runs (m_config runner) L1
            then run_level A clock env runner L1
                   {| level1_results := []; level2_results := []; level3_results := [];
                      report_config := m_config runner |}
            else ret {| level1_results := []; level2_results := []; level3_results := [];
                        report_config := m_config runner |}) ;;
     r2 <- (if level_runs (m_config runner) L2 then run_level A clock env runner L2 r1
            else ret r1) ;;
     r3 <- (if level_runs (m_config runner) L3 then run_level A clock env runner L3 r2
            else ret r2) ;;
     ret r3) st.
Proof. reflexivity. Qed.

(** [run_all] for [cycles >= 1], when every allocation succeeds: per level,
    the results of the recognised names in configuration order and a warning
    for every other name, both only for a level that runs. *)
Lemma run_all_spec (A : Arith) (clock : nat -> val A) (env : Env) (runner : BenchmarkRunner)
    (st : St) :
  1 <= config.cycles (m_config runner) -> run_allocs_ok env runner = true ->
  exists report st' evs,
    run_all A clock env runner st = Ok report st'
    /\ trace st' = trace st ++ EvSetThreads (config.threads (m_config runner)) :: evs
    /\ forall lv,
         map cblas_name (level_results report lv)
         = (if level_runs (m_config runner) lv
            then filter (recognized lv) (level_functions (m_config runner) lv) else [])
         /\ Forall (result_ok (m_config runner)) (level_results report lv)
         /\ filter (is_warn_for lv) evs
            = (if level_runs (m_config runner) lv
               then map (EvWarn lv) (filter (fun s => negb (recognized lv s))
                                            (level_functions (m_config runner) lv))
               else []).
Proof.
  intros Hc Hal; rewrite run_all_stages; cbn [bind emit].
  match goal with |- context [(if _ then run_level _ _ _ _ L1 ?R0 else _) ?s] =>
    destruct (run_level_stage A clock env runner L1 R0 s Hc Hal)
      as (r1 & s1 & e1 & x1 & I1 & I2 & I3 & I4 & I5 & I6 & I7) end.
  rewrite I1; cbn [bind].
  destruct (run_level_stage A clock env runner L2 r1 s1 Hc Hal)
    as (r2 & s2 & e2 & x2 & J1 & J2 & J3 & J4 & J5 & J6 & J7).
  rewrite J1; cbn [bind].
  destruct (run_level_stage A clock env runner L3 r2 s2 Hc Hal)
    as (r3 & s3 & e3 & x3 & K1 & K2 & K3 & K4 & K5 & K6 & K7).
  rewrite K1; cbn [bind ret].
  exists r3, s3, (e1 ++ e2 ++ e3); split; [reflexivity|].
  split; [rewrite K2, J2, I2; cbn [trace]; rewrite <- !app_assoc; reflexivity|].
  intros lv; rewrite !filter_app, I7, J7, K7.
  destruct lv; cbn [level_eqb andb]; rewrite ?app_nil_r.
  - rewrite (K4 L1 eq_refl), (J4 L1 eq_refl), I3; cbn [level_results level1_results app].
    split; [exact I5|split; [exact I6|reflexivity]].
  - rewrite (K4 L2 eq_refl), J3, (I4 L2 eq_refl); cbn [level_results level2_results app].
    split; [exact J5|split; [exact J6|reflexivity]].
  - rewrite K3, (J4 L3 eq_refl), (I4 L3 eq_refl); cbn [level_results level3_results app].
    split; [exact K5|split; [exact K6|reflexivity]].
Qed.

(** ** Completed runs *)

Lemma bind_ok_inv {T U} (c : M T) (k : T -> M U) (st : St) (u : U) (st'' : St) :
  bind c k st = Ok u st'' -> exists x st', c st = Ok x st' /\ k x st' = Ok u st''.
Proof.
  cbn [bind]; destruct (c st) as [x st'| |]; intros H; [eauto|discriminate|discriminate].
Qed.

Lemma run_single_ok_inv (A : Arith) (env : Env) (cfg : config.BenchmarkConfig)
    (name cstr : string) (f : M (val A)) (fc : Z) (st : St) (r : BenchmarkResult A)
    (st' : St) :
  run_single_benchmark A env cfg name cstr f fc st = Ok r st' ->
  exists times, aggregate A cfg name cstr times fc = Some r.
Proof.
  unfold run_single_benchmark; intros H.
  apply bind_ok_inv in H as (u & s1 & _ & H); cbv beta in H.
  apply bind_ok_inv in H as (times & s2 & _ & H); cbv beta in H.
  exists times; destruct (aggregate A cfg name cstr times fc) eqn:E;
    cbv [ret undefined] in H; [injection H as ->; reflexivity|discriminate].
Qed.

Lemma run_level_loop_ok_inv (A : Arith) (clock : nat -> val A) (env : Env)
    (runner : BenchmarkRunner) (lv : Level) (d : Dispatch A) (cstr : string)
    (names : list string) :
  dispatch_ok A clock env runner lv d ->
  forall report st report' st',
    run_level_loop A env lv d (m_config runner) cstr names report st = Ok report' st' ->
    (forall lv', level_eqb lv lv' = false -> level_results report' lv' = level_results report lv')
    /\ exists results, level_results report' lv = level_results report lv ++ results
                       /\ Forall (result_ok (m_config runner)) results.
Proof.
  intros Hd; induction names as [|s names IH]; intros report st report' st' H.
  - cbn in H; injection H as <- _; split; [reflexivity|].
    exists []; rewrite app_nil_r; split; [reflexivity|constructor].
  - cbn [run_level_loop] in H; specialize (Hd s) as Hs.
    destruct (d s) as [[[nm f] fc]|] eqn:Ed.
    + destruct Hs as (_ & _ & Hfc & _).
      apply bind_ok_inv in H as (r & s1 & Hr & H); cbv beta in H.
      destruct (IH _ _ _ _ H) as [H1 (results & H2 & H3)].
      destruct (run_single_ok_inv _ _ _ _ _ _ _ _ _ _ Hr) as [times Hagg].
      apply aggregate_fields in Hagg as (Hname & _ & Hthr & Hflops & _ & Hgf & _).
      split; [intros lv' Hne; rewrite H1, push_result_other by exact Hne; reflexivity|].
      exists (r :: results); split; [rewrite H2, push_result_same, <- app_assoc; reflexivity|].
      constructor; [unfold result_ok; rewrite Hthr, Hgf, Hname, Hflops; auto|exact H3].
    + apply bind_ok_inv in H as (u & s1 & _ & H); cbv beta in H.
      exact (IH _ _ _ _ H).
Qed.

Lemma run_level_stage_ok_inv (A : Arith) (clock : nat -> val A) (env : Env)
    (runner : BenchmarkRunner) (lv : Level) (report : BenchmarkReport A) (st : St)
    (report' : BenchmarkReport A) (st' : St) :
  (if level_runs (m_config runner) lv then run_level A clock env runner lv report
   else ret report) st = Ok report' st' ->
  (forall lv', level_eqb lv lv' = false -> level_results report' lv' = level_results report lv')
  /\ exists results, level_results report' lv = level_results report lv ++ results
                     /\ Forall (result_ok (m_config runner)) results.
Proof.
  destruct (level_runs (m_config runner) lv).
  - destruct lv; cbn [run_level].
    + unfold run_level1; cbv zeta.
      destruct (config.level1_size (m_config runner)) as [n|] eqn:Hs;
        [|cbn; intros H; discriminate H].
      apply run_level_loop_ok_inv with (clock := clock); apply dispatch1_ok; exact Hs.
    + unfold run_level2; cbv zeta.
      destruct (config.level2_size (m_config runner)) as [[m n]|] eqn:Hs;
        [|cbn; intros H; discriminate H].
      apply run_level_loop_ok_inv with (clock := clock); apply dispatch2_ok; exact Hs.
    + unfold run_level3; cbv zeta.
      destruct (config.level3_size (m_config runner)) as [[[m n] k]|] eqn:Hs;
        [|cbn; intros H; discriminate H].
      apply run_level_loop_ok_inv with (clock := clock); apply dispatch3_ok; exact Hs.
  - cbn; intros H; injection H as <- _; split; [reflexivity|].
    exists []; rewrite app_nil_r; split; [reflexivity|constructor].
Qed.

(** Whatever its environment, a run of [run_all] that completes reports only
    results with consistent fields. *)
Lemma run_all_ok_inv (A : Arith) (clock : nat -> val A) (env : Env) (runner : BenchmarkRunner)
    (st : St) (report : BenchmarkReport A) (st' : St) :
  run_all A clock env runner st = Ok report st' ->
  forall lv, Forall (result_ok (m_config runner)) (level_results report lv).
Proof.
  rewrite run_all_stages; intros H.
  apply bind_ok_inv in H as (u & s0 & _ & H); cbv beta in H.
  apply bind_ok_inv in H as (r1 & s1 & E1 & H); cbv beta in H.
  apply bind_ok_inv in H as (r2 & s2 & E2 & H); cbv beta in H.
  apply bind_ok_inv in H as (r3 & s3 & E3 & H); cbv beta in H.
  cbn [ret] in H; injection H as Hr _; subst r3.
  apply run_level_stage_ok_inv in E1 as [I1 (x1 & I2 & I3)].
  apply run_level_stage_ok_inv in E2 as [J1 (x2 & J2 & J3)].
  apply run_level_stage_ok_inv in E3 as [K1 (x3 & K2 & K3)].
  intros [].
  - rewrite (K1 L1 eq_refl), (J1 L1 eq_refl), I2; exact I3.
  - rewrite (K1 L2 eq_refl), J2, (I1 L2 eq_refl); exact J3.
  - rewrite K2, (J1 L3 eq_refl), (I1 L3 eq_refl); exact K3.
Qed.

(** ** Runs with no sample *)

Lemma size_of_int_neg (c : Z) : - 2 ^ 63 <= c < 0 -> size_of_int c = c + size_t_modulus.
Proof.
  intros H; unfold size_of_int, size_t_wrap, size_t_modulus.
  rewrite <- (Z_mod_plus_full c 1 (2 ^ 64)), Z.mod_small; lia.
Qed.

Lemma vector_max_size_value : vector_max_size = 1152921504606846975.
Proof. reflexivity. Qed.

(** For [cycles <= 0], [run_single_benchmark] has no sample: for [0] the
    dereference of [min_element] is undefined, for a negative count the
    [reserve] of [size_t(cycles) > max_size()] throws. *)
Lemma run_single_nonpos (A : Arith) (env : Env) (cfg : config.BenchmarkConfig)
    (name cstr : string) (f : M (val A)) (fc : Z) (st : St) :
  int_min <= config.cycles cfg <= 0 ->
  run_single_benchmark A env cfg name cstr f fc st
  = if config.cycles cfg =? 0 then UB else Thrown (LengthError vector_reserve_msg) st.
Proof.
  intros Hc; unfold run_single_benchmark, allocate, vector_alloc; cbn [bind].
  destruct (config.cycles cfg =? 0) eqn:E.
  - apply Z.eqb_eq in E; rewrite E; reflexivity.
  - apply Z.eqb_neq in E; unfold int_min in Hc.
    rewrite (size_of_int_neg (config.cycles cfg)) by lia.
    replace (vector_max_size <? config.cycles cfg + size_t_modulus) with true; [reflexivity|].
    symmetry; apply Z.ltb_lt; rewrite vector_max_size_value; unfold size_t_modulus; lia.
Qed.

Lemma run_level_loop_nonpos (A : Arith) (clock : nat -> val A) (env : Env)
    (runner : BenchmarkRunner) (lv : Level) (d : Dispatch A) (cstr : string)
    (names : list string) (report : BenchmarkReport A) (st : St) :
  int_min <= config.cycles (m_config runner) <= 0 -> dispatch_ok A clock env runner lv d ->
  exists st',
    filter is_backend_call (trace st') = filter is_backend_call (trace st)
    /\ ticks st' = ticks st
    /\ run_level_loop A env lv d (m_config runner) cstr names report st
       = if existsb (recognized lv) names
         then (if config.cycles (m_config runner) =? 0 then UB
               else Thrown (LengthError vector_reserve_msg) st')
         else Ok report st'.
Proof.
  intros Hc Hd; revert st; induction names as [|s names IH]; intros st.
  - exists st; split; [reflexivity|split; reflexivity].
  - specialize (Hd s) as Hs; cbn [run_level_loop existsb].
    destruct (d s) as [[[nm f] fc]|] eqn:Ed.
    + destruct Hs as (Hrec & _); rewrite Hrec; cbn [orb bind].
      rewrite run_single_nonpos by exact Hc.
      exists st; split; [reflexivity|split; [reflexivity|]].
      destruct (config.cycles (m_config runner) =? 0); reflexivity.
    + rewrite Hs; cbn [orb bind emit].
      destruct (IH {| trace := trace st ++ [EvWarn lv s]; ticks := ticks st |})
        as (st' & H1 & H2 & H3).
      exists st'; split; [|split; [exact H2|exact H3]].
      rewrite H1; cbn [trace]; rewrite filter_app; cbn; apply app_nil_r.
Qed.

Lemma run_level_stage_nonpos (A : Arith) (clock : nat -> val A) (env : Env)
    (runner : BenchmarkRunner) (lv : Level) (report : BenchmarkReport A) (st : St) :
  int_min <= config.cycles (m_config runner) <= 0 ->
  exists st',
    filter is_backend_call (trace st') = filter is_backend_call (trace st)
    /\ ticks st' = ticks st
    /\ (if level_runs (m_config runner) lv then run_level A clock env runner lv report
        else ret report) st
       = if level_runs (m_config runner) lv
            && existsb (recognized lv) (level_functions (m_config runner) lv)
         then (if config.cycles (m_config runner) =? 0 then UB
               else Thrown (LengthError vector_reserve_msg) st')
         else Ok report st'.
Proof.
  intros Hc; destruct (level_runs (m_config runner) lv) eqn:Hr; cbn [andb];
    [|exists st; split; [reflexivity|split; reflexivity]].
  assert (Hsize : level_has_size (m_config runner) lv = true)
    by (unfold level_runs in Hr; apply andb_prop in Hr; apply Hr).
  destruct lv; cbn [level_has_size] in Hsize; cbn [run_level level_functions].
  - unfold run_level1; cbv zeta.
    destruct (config.level1_size (m_config runner)) as [n|] eqn:Hs; [|discriminate].
    apply run_level_loop_nonpos with (clock := clock); [exact Hc|apply dispatch1_ok; exact Hs].
  - unfold run_level2; cbv zeta.
    destruct (config.level2_size (m_config runner)) as [[m n]|] eqn:Hs; [|discriminate].
    apply run_level_loop_nonpos with (clock := clock); [exact Hc|apply dispatch2_ok; exact Hs].
  - unfold run_level3; cbv zeta.
    destruct (config.level3_size (m_config runner)) as [[[m n] k]|] eqn:Hs; [|discriminate].
    apply run_level_loop_nonpos with (clock := clock); [exact Hc|apply dispatch3_ok; exact Hs].
Qed.

(** ** C5: cycles = 0 *)

(** C5 (as stated, refuted): a configuration with [cycles = 0], a level-1
    size and the operation [cblas_ddot] passes the only check of [main] and
    reaches [run_single_benchmark], which dereferences [min_element] of an
    empty sample vector. *)
Lemma zero_cycles_accepted :
  no_benchmark_sizes (level1_config 0 3 true 1000000 ["cblas_ddot"%string]) = false
  /\ main_after_config Double (fun _ => elapsed_ms Double 9) unlimited_env
       (Some sample_system_info) (level1_config 0 3 true 1000000 ["cblas_ddot"%string])
       EmptyString initial_state = UB.
Proof. split; vm_compute; reflexivity. Qed.

(** C5 (amended): no validation rejects [cycles <= 0].  [main] proceeds
    whenever some size is set, and as soon as a level that runs lists a
    recognised name, [run_single_benchmark] collects no sample, before any
    backend call: for [cycles = 0] the run is undefined, for a negative
    [cycles] the [reserve] of [size_t(cycles)] elements throws
    [std::length_error], which [main] reports as a failed benchmark before
    exiting with status 1. *)
Theorem zero_cycles_undefined (A : Arith) (clock : nat -> val A) (env : Env) (sys : SystemInfo)
    (cfg : config.BenchmarkConfig) (out : string) (st : St) :
  int_min <= config.cycles cfg <= 0 ->
  no_benchmark_sizes cfg = false ->
  (exists lv, level_runs cfg lv && existsb (recognized lv) (level_functions cfg lv) = true) ->
  exists st',
    filter is_backend_call (trace st') = filter is_backend_call (trace st)
    /\ ticks st' = ticks st
    /\ main_after_config A clock env (Some sys) cfg out st
       = if config.cycles cfg =? 0 then UB
         else Ok 1 {| trace := trace st' ++ [EvBenchmarkFailed (LengthError vector_reserve_msg)];
                      ticks := ticks st' |}.
Proof.
  intros Hc Hno Hex; unfold main_after_config; rewrite Hno.
  unfold run_benchmarks, try_catch; cbn [construct_runner bind ret].
  rewrite run_all_stages; cbn [bind emit].
  match goal with |- context [(if _ then run_level _ _ _ _ L1 ?R0 else _) ?s] =>
    destruct (run_level_stage_nonpos A clock env (make_runner cfg sys) L1 R0 s Hc)
      as (s1 & F1 & T1 & E1) end.
  rewrite E1; cbn [trace ticks] in F1, T1.
  rewrite filter_app in F1; cbn [filter is_backend_call] in F1; rewrite app_nil_r in F1.
  change (m_config (make_runner cfg sys)) with cfg in *.
  destruct (level_runs cfg L1 && existsb (recognized L1) (level_functions cfg L1)) eqn:B1.
  { exists s1; split; [exact F1|split; [exact T1|]].
    destruct (config.cycles cfg =? 0); reflexivity. }
  cbn beta iota.
  match goal with |- context [(if _ then run_level _ _ _ _ L2 ?R1 else _) ?s] =>
    destruct (run_level_stage_nonpos A clock env (make_runner cfg sys) L2 R1 s Hc)
      as (s2 & F2 & T2 & E2) end.
  change (m_config (make_runner cfg sys)) with cfg in *; rewrite E2.
  destruct (level_runs cfg L2 && existsb (recognized L2) (level_functions cfg L2)) eqn:B2.
  { exists s2; split; [congruence|split; [congruence|]].
    destruct (config.cycles cfg =? 0); reflexivity. }
  cbn beta iota.
  match goal with |- context [(if _ then run_level _ _ _ _ L3 ?R2 else _) ?s] =>
    destruct (run_level_stage_nonpos A clock env (make_runner cfg sys) L3 R2 s Hc)
      as (s3 & F3 & T3 & E3) end.
  change (m_config (make_runner cfg sys)) with cfg in *; rewrite E3.
  destruct (level_runs cfg L3 && existsb (recognized L3) (level_functions cfg L3)) eqn:B3.
  { exists s3; split; [congruence|split; [congruence|]].
    destruct (config.cycles cfg =? 0); reflexivity. }
  destruct Hex as [[] Hlv]; congruence.
Qed.

Lemma zero_cycles_undefined_witness :
  (int_min <= config.cycles (level1_config 0 3 true 1000000 ["cblas_ddot"%string]) <= 0
   /\ main_after_config Double (fun _ => elapsed_ms Double 9) unlimited_env
        (Some sample_system_info) (level1_config 0 3 true 1000000 ["cblas_ddot"%string])
        EmptyString initial_state = UB)
  /\ (int_min <= config.cycles (level1_config (-1) 3 true 1000000 ["cblas_ddot"%string]) <= 0
      /\ exists st',
           main_after_config Double (fun _ => elapsed_ms Double 9) unlimited_env
             (Some sample_system_info) (level1_config (-1) 3 true 1000000 ["cblas_ddot"%string])
             EmptyString initial_state
           = Ok 1 {| trace := trace st' ++ [EvBenchmarkFailed (LengthError vector_reserve_msg)];
                     ticks := ticks st' |}).
Proof.
  split.
  - split; [cbn; unfold int_min; lia|].
    destruct (zero_cycles_undefined Double (fun _ => elapsed_ms Double 9) unlimited_env
                sample_system_info (level1_config 0 3 true 1000000 ["cblas_ddot"%string])
                EmptyString initial_state ltac:(cbn; unfold int_min; lia) eq_refl
                ltac:(exists L1; vm_compute; reflexivity)) as (st' & _ & _ & H).
    exact H.
  - split; [cbn; unfold int_min; lia|].
    destruct (zero_cycles_undefined Double (fun _ => elapsed_ms Double 9) unlimited_env
                sample_system_info (level1_config (-1) 3 true 1000000 ["cblas_ddot"%string])
                EmptyString initial_state ltac:(cbn; unfold int_min; lia) eq_refl
                ltac:(exists L1; vm_compute; reflexivity)) as (st' & _ & _ & H).
    exists st'; rewrite H; reflexivity.
Defined.

(** ** C6: nothing to run *)

(** C6 (as stated, refuted): with sizes for all three levels and every
    operation list empty, no level runs, yet [main] reports no error and
    exits with status 0; the run only sets the thread count and writes the
    (empty) report to standard output. *)
Lemma empty_lists_exit_zero :
  (forall lv, level_runs no_functions_config lv = false)
  /\ main_after_config Double (fun _ => elapsed_ms Double 9) unlimited_env
       (Some sample_system_info) no_functions_config EmptyString initial_state
     = Ok 0 {| trace := [EvSetThreads 1; EvOutput EmptyString]; ticks := 0 |}.
Proof. split; [intros []; reflexivity|vm_compute; reflexivity]. Qed.

(** C6 (amended): when no level has both a size and a non-empty operation
    list, no measurement runs.  [main] reports the missing sizes and exits
    with status 1 when no level has a size.  Otherwise it exits with status 1
    after a failed benchmark when the system information cannot be
    collected or the output file cannot be opened, and else it only sets the
    thread count, writes the report and exits with status 0. *)
Theorem no_level_runs_exit (A : Arith) (clock : nat -> val A) (env : Env)
    (collected : option SystemInfo) (cfg : config.BenchmarkConfig) (out : string) (st : St) :
  (forall lv, level_runs cfg lv = false) ->
  main_after_config A clock env collected cfg out st
  = if no_benchmark_sizes cfg
    then Ok 1 {| trace := trace st ++
                   [EvError "No benchmark sizes specified. Use --level1, --level2, or --level3 options."];
                 ticks := ticks st |}
    else match collected with
         | None => Ok 1 {| trace := trace st ++ [EvBenchmarkFailed StoiError]; ticks := ticks st |}
         | Some _ =>
             if String.eqb out EmptyString || file_opens env out
             then Ok 0 {| trace := trace st ++ [EvSetThreads (config.threads cfg); EvOutput out];
                          ticks := ticks st |}
             else Ok 1 {| trace := trace st ++
                            [EvSetThreads (config.threads cfg);
                             EvBenchmarkFailed (RuntimeError ("Cannot open output file: " ++ out))];
                          ticks := ticks st |}
         end.
Proof.
  intros H; unfold main_after_config; destruct (no_benchmark_sizes cfg); [reflexivity|].
  unfold run_benchmarks, try_catch; destruct collected as [sys|]; [|reflexivity].
  cbn [construct_runner bind ret]; rewrite run_all_stages; cbn [bind emit].
  change (m_config (make_runner cfg sys)) with cfg; rewrite !H; cbn [ret trace ticks].
  unfold write_output; destruct (String.eqb out EmptyString || file_opens env out);
    cbn [bind emit throw ret trace ticks]; rewrite <- !app_assoc; reflexivity.
Qed.

Lemma no_level_runs_exit_witness :
  (forall lv, level_runs no_functions_config lv = false)
  /\ main_after_config Exact (fun _ => elapsed_ms Exact 9) unlimited_env
       (Some sample_system_info) no_functions_config "results.csv" initial_state
     = Ok 0 {| trace := [EvSetThreads 1; EvOutput "results.csv"]; ticks := 0 |}.
Proof.
  split; [intros []; reflexivity|].
  rewrite (no_level_runs_exit Exact (fun _ => elapsed_ms Exact 9) unlimited_env
             (Some sample_system_info) no_functions_config "results.csv" initial_state);
    [reflexivity|].
  intros []; reflexivity.
Defined.

(** ** C7: unrecognised names *)

(** C7 (as stated, refuted): with the level-1 size [2^64 - 1] (what
    [--level1=-1] gives through [std::stoull]) and the list
    [cblas_ddot; ddot], the first operand vector of [cblas_ddot] exceeds
    [max_size()]: [run_all] throws [std::length_error] and produces no
    report, and the warning for [ddot] is never logged. *)
Lemma unallocatable_operand_no_result :
  level_has_size (level1_config 2 1 false (2 ^ 64 - 1) ["cblas_ddot"; "ddot"]%string) L1 = true
  /\ filter (recognized L1) ["cblas_ddot"; "ddot"]%string = ["cblas_ddot"%string]
  /\ run_all Exact (fun _ => elapsed_ms Exact 9) unlimited_env
       (make_runner (level1_config 2 1 false (2 ^ 64 - 1) ["cblas_ddot"; "ddot"]%string)
                    sample_system_info) initial_state
     = Thrown (LengthError vector_ctor_msg) {| trace := [EvSetThreads 1]; ticks := 0 |}.
Proof. split; [reflexivity|split; [reflexivity|vm_compute; reflexivity]]. Qed.

(** C7 (amended): when the operation list of a level with a size holds
    exactly one recognised name among any number of other names, and every
    allocation of the run succeeds, the run produces exactly one result for
    that level, for the recognised name, and logs one warning per other
    name, in list order; a name is recognised exactly when it is, character
    for character, one of the level's fixed names. *)
Theorem one_recognized_one_result (A : Arith) (clock : nat -> val A) (env : Env)
    (runner : BenchmarkRunner) (lv : Level) (f : string) (st : St) :
  1 <= config.cycles (m_config runner) ->
  run_allocs_ok env runner = true ->
  level_has_size (m_config runner) lv = true ->
  filter (recognized lv) (level_functions (m_config runner) lv) = [f] ->
  exists report st' evs r,
    run_all A clock env runner st = Ok report st'
    /\ trace st' = trace st ++ EvSetThreads (config.threads (m_config runner)) :: evs
    /\ level_results report lv = [r]
    /\ cblas_name r = f
    /\ filter (is_warn_for lv) evs
       = map (EvWarn lv) (filter (fun s => negb (recognized lv s))
                                 (level_functions (m_config runner) lv))
    /\ (forall s, recognized lv s = true <-> In s (recognized_names lv)).
Proof.
  intros Hc Hal Hsize Hf.
  destruct (run_all_spec A clock env runner st Hc Hal) as (report & st' & evs & H1 & H2 & H3).
  destruct (H3 lv) as (Hmap & _ & Hwarn).
  assert (Hr : level_runs (m_config runner) lv = true).
  { unfold level_runs; rewrite Hsize.
    destruct (level_functions (m_config runner) lv); [discriminate|reflexivity]. }
  rewrite Hr, Hf in Hmap; rewrite Hr in Hwarn.
  destruct (level_results report lv) as [|r [|r' rs]] eqn:El; try discriminate.
  exists report, st', evs, r; cbn [map] in Hmap; injection Hmap as Hname.
  repeat (split; [eassumption|]).
  intros s; unfold recognized; rewrite existsb_exists; split.
  - intros (x & Hin & Heq); apply String.eqb_eq in Heq; subst; exact Hin.
  - intros Hin; exists s; split; [exact Hin|apply String.eqb_refl].
Qed.

Lemma one_recognized_one_result_witness :
  exists report st' evs r,
    run_all Exact (fun _ => elapsed_ms Exact 9) unlimited_env
      (make_runner (level1_config 2 1 true 1000
                      ["cblas_ddot"; "ddot"; "cblas_DDOT"]%string) sample_system_info)
      initial_state = Ok report st'
    /\ trace st' = EvSetThreads 1 :: evs
    /\ level_results report L1 = [r]
    /\ cblas_name r = "cblas_ddot"%string
    /\ filter (is_warn_for L1) evs = [EvWarn L1 "ddot"; EvWarn L1 "cblas_DDOT"]%string
    /\ (forall s, recognized L1 s = true <-> In s (recognized_names L1)).
Proof.
  apply (one_recognized_one_result Exact (fun _ => elapsed_ms Exact 9) unlimited_env
           (make_runner (level1_config 2 1 true 1000
                           ["cblas_ddot"; "ddot"; "cblas_DDOT"]%string) sample_system_info)
           L1 "cblas_ddot"%string initial_state);
    [cbn; lia|vm_compute; reflexivity|reflexivity|vm_compute; reflexivity].
Defined.

(** ** C10: field consistency *)

Lemma gflops_exact_any (F : Z) (t : Q) :
  (gflops_of Exact F t == spec_gflops Exact F t)%Q.
Proof.
  destruct (Qeq_dec t 0) as [Ht|Ht].
  - unfold gflops_of, spec_gflops; cbn [a_div a_mul a_of_size Exact].
    rewrite Ht; unfold Qdiv, Qeq; cbn; ring.
  - rewrite gflops_exact_eq by exact Ht; reflexivity.
Qed.

(** C10 (as stated, refuted): level 1 with [cblas_ddot] at N = 1,000,000
    (2,000,000 FLOPs), one cycle of 9 microseconds: in [double] the reported
    throughput differs from flops / (avg_time_ms * 10^6). *)
Lemma gflops_field_double_mismatch :
  level1_gflops_mismatch
    (run_all Double (fun _ => elapsed_ms Double 9) unlimited_env
       (make_runner (level1_config 1 0 false 1000000 ["cblas_ddot"%string]) sample_system_info)
       initial_state) = true.
Proof. vm_compute; reflexivity. Qed.

(** C10 (amended): every result of every level of a run that completes has
    the configured thread count, the FLOP model value of its operation at
    the configured shape, and
    gflops = (double)flops / ((avg_time_ms / 1000.0) * 1e9), computed in the
    run's arithmetic; in exact arithmetic this is
    flops / (avg_time_ms * 10^6).  For [cycles >= 1] the run completes when
    every allocation it makes succeeds. *)
Theorem run_all_results_consistent (A : Arith) (clock : nat -> val A) (env : Env)
    (runner : BenchmarkRunner) (st : St) :
  (forall report st',
     run_all A clock env runner st = Ok report st' ->
     forall lv, Forall (result_ok (m_config runner)) (level_results report lv))
  /\ (1 <= config.cycles (m_config runner) -> run_allocs_ok env runner = true ->
      exists report st', run_all A clock env runner st = Ok report st')
  /\ (forall F t, gflops_of Exact F t == spec_gflops Exact F t)%Q.
Proof.
  split; [intros report st' H; exact (run_all_ok_inv A clock env runner st report st' H)|].
  split; [|exact gflops_exact_any].
  intros Hc Hal.
  destruct (run_all_spec A clock env runner st Hc Hal) as (report & st' & _ & H1 & _).
  exists report, st'; exact H1.
Qed.

Lemma run_all_results_consistent_witness :
  1 <= config.cycles config.get_default
  /\ run_allocs_ok unlimited_env (make_runner config.get_default sample_system_info) = true
  /\ exists report st',
       run_all Exact (fun _ => elapsed_ms Exact 9) unlimited_env
         (make_runner config.get_default sample_system_info) initial_state = Ok report st'
       /\ forall lv, Forall (result_ok config.get_default) (level_results report lv).
Proof.
  destruct (run_all_results_consistent Exact (fun _ => elapsed_ms Exact 9) unlimited_env
              (make_runner config.get_default sample_system_info) initial_state)
    as (Hinv & Hex & _).
  refine (conj _ (conj _ _)); [cbn; lia|vm_compute; reflexivity|].
  destruct (Hex ltac:(cbn; lia) ltac:(vm_compute; reflexivity)) as (report & st' & H).
  exists report, st'; split; [exact H|exact (Hinv _ _ H)].
Defined.

(** ** String library *)

Lemma str_size_app (a b : string) : str_size (a ++ b) = str_size a + str_size b.
Proof. unfold str_size; induction a as [|c a IH]; cbn [String.append String.length]; lia. Qed.

Lemma str_size_cons (c : ascii) (s : string) : str_size (String c s) = 1 + str_size s.
Proof. unfold str_size; cbn [String.length]; lia. Qed.

Lemma str_size_nonneg (s : string) : 0 <= str_size s.
Proof. unfold str_size; lia. Qed.

Lemma str_drop_app (a b : string) : str_drop (String.length a) (a ++ b) = b.
Proof. induction a as [|c a IH]; [reflexivity|exact IH]. Qed.

Lemma substring_app_l (a b : string) : String.substring 0 (String.length a) (a ++ b) = a.
Proof. induction a as [|c a IH]; cbn; [destruct b; reflexivity|rewrite IH; reflexivity]. Qed.

Lemma substring_app_r (a b : string) (n m : nat) :
  String.substring (String.length a + n) m (a ++ b) = String.substring n m b.
Proof. induction a as [|c a IH]; [reflexivity|exact IH]. Qed.

Lemma substring_all (s : string) : String.substring 0 (String.length s) s = s.
Proof. induction s as [|c s IH]; cbn; [reflexivity|rewrite IH; reflexivity]. Qed.

Lemma append_empty_r (s : string) : (s ++ EmptyString)%string = s.
Proof. induction s as [|c s IH]; cbn; [reflexivity|rewrite IH; reflexivity]. Qed.

Lemma append_assoc_str (a b c : string) : ((a ++ b) ++ c)%string = (a ++ (b ++ c))%string.
Proof. induction a as [|x a IH]; cbn; [reflexivity|rewrite IH; reflexivity]. Qed.

Lemma forall_chars_app (p : ascii -> bool) (a b : string) :
  forall_chars p (a ++ b) = forall_chars p a && forall_chars p b.
Proof. induction a as [|c a IH]; cbn; [reflexivity|rewrite IH, andb_assoc; reflexivity]. Qed.

Lemma forall_chars_impl (p q : ascii -> bool) (s : string) :
  (forall c, p c = true -> q c = true) -> forall_chars p s = true -> forall_chars q s = true.
Proof.
  intros H; induction s as [|c s IH]; cbn; [reflexivity|].
  intros Hs; apply andb_prop in Hs as [H1 H2]; rewrite (H c H1); exact (IH H2).
Qed.

Lemma first_index_app (p : ascii -> bool) (a b : string) :
  forall_chars (fun c => negb (p c)) a = true ->
  first_index p (a ++ b) = option_map (fun k => (String.length a + k)%nat) (first_index p b).
Proof.
  induction a as [|c a IH]; cbn [forall_chars]; intros H.
  - cbn [String.append String.length]; destruct (first_index p b); reflexivity.
  - apply andb_prop in H as [H1 H2]; apply negb_true_iff in H1.
    cbn [String.append first_index]; rewrite H1, IH by exact H2.
    destruct (first_index p b); reflexivity.
Qed.

Lemma last_index_app (p : ascii -> bool) (a b : string) :
  last_index p (a ++ b)
  = match last_index p b with
    | Some k => Some (String.length a + k)%nat
    | None => last_index p a
    end.
Proof.
  induction a as [|c a IH]; cbn [String.append last_index String.length].
  - destruct (last_index p b); reflexivity.
  - rewrite IH; destruct (last_index p b); reflexivity.
Qed.

Lemma last_index_none (p : ascii -> bool) (s : string) :
  last_index p s = None <-> forall_chars (fun c => negb (p c)) s = true.
Proof.
  induction s as [|c s IH]; cbn; [tauto|].
  destruct (last_index p s); [split; [discriminate|]|].
  - intros H; apply andb_prop in H as [_ H]; apply IH in H; discriminate.
  - destruct (p c); cbn; [split; discriminate|]; rewrite <- IH; tauto.
Qed.

Lemma rstrip_by_all (p : ascii -> bool) (s : string) :
  forall_chars p s = true -> rstrip_by p s = EmptyString.
Proof.
  induction s as [|c s IH]; cbn; [reflexivity|].
  intros H; apply andb_prop in H as [H1 H2]; rewrite IH by exact H2; rewrite H1; reflexivity.
Qed.

(** [substring 0 (j + 1)] up to the last character outside [p] is
    [rstrip_by p]. *)
Lemma substring_last_index (p : ascii -> bool) (s : string) (j : nat) :
  last_index (fun c => negb (p c)) s = Some j ->
  String.substring 0 (S j) s = rstrip_by p s.
Proof.
  revert j; induction s as [|c s IH]; intros j; cbn [last_index]; [discriminate|].
  destruct (last_index (fun c => negb (p c)) s) as [k|] eqn:E.
  - intros H; injection H as <-; cbn [String.substring rstrip_by].
    assert (Hne : rstrip_by p s <> EmptyString).
    { rewrite <- (IH k eq_refl); destruct s as [|c' s'];
        [cbn in E; discriminate|cbn; discriminate]. }
    rewrite (IH k eq_refl).
    destruct (rstrip_by p s) eqn:R; [congruence|reflexivity].
  - destruct (p c) eqn:Pc; cbn [negb]; [discriminate|].
    intros H; injection H as <-; cbn [String.substring rstrip_by].
    apply last_index_none in E.
    rewrite rstrip_by_all; [rewrite Pc; destruct s; reflexivity|].
    eapply forall_chars_impl; [|exact E]; intros x Hx; cbv beta in Hx; rewrite negb_involutive in Hx; exact Hx.
Qed.

Lemma substring_drop (s : string) (n m : nat) :
  String.substring n m s = String.substring 0 m (str_drop n s).
Proof.
  revert s; induction n as [|n IH]; intros s; [reflexivity|].
  destruct s as [|c s]; cbn; [destruct m; reflexivity|apply IH].
Qed.

Lemma substring_long (s : string) (m : nat) :
  (String.length s <= m)%nat -> String.substring 0 m s = s.
Proof.
  revert m; induction s as [|c s IH]; intros m Hm; cbn in *; [destruct m; reflexivity|].
  destruct m as [|m]; [lia|]; rewrite IH by lia; reflexivity.
Qed.

Lemma substr_prefix (a b : string) : substr (a ++ b) 0 (str_size a) = a.
Proof.
  unfold substr; rewrite str_size_app, Z.min_l by (pose proof (str_size_nonneg b); lia).
  unfold str_size; rewrite Nat2Z.id; apply substring_app_l.
Qed.

Lemma substr_middle (a x y : string) :
  substr (a ++ x ++ y) (str_size a) (str_size x) = x.
Proof.
  unfold substr; rewrite !str_size_app, Z.min_l by (pose proof (str_size_nonneg y); lia).
  unfold str_size; rewrite !Nat2Z.id.
  rewrite <- (Nat.add_0_r (String.length a)), substring_app_r; apply substring_app_l.
Qed.

Lemma substr_suffix (a b : string) (len : Z) :
  str_size b <= len -> substr (a ++ b) (str_size a) len = b.
Proof.
  intros H; unfold substr; rewrite str_size_app, Z.min_r by lia.
  replace (str_size a + str_size b - str_size a) with (str_size b) by lia.
  unfold str_size; rewrite !Nat2Z.id.
  rewrite <- (Nat.add_0_r (String.length a)), substring_app_r; apply substring_all.
Qed.

Lemma first_index_none (p : ascii -> bool) (s : string) :
  first_index p s = None <-> forall_chars (fun c => negb (p c)) s = true.
Proof.
  induction s as [|c s IH]; cbn; [tauto|].
  destruct (p c); cbn; [split; discriminate|].
  destruct (first_index p s); cbn; rewrite <- IH; split; congruence.
Qed.

Lemma find_char_at (a x y : string) (c : ascii) :
  forall_chars (fun ch => negb (Ascii.eqb c ch)) x = true ->
  find_char (a ++ x ++ String c y) c (str_size a) = str_size a + str_size x.
Proof.
  intros Hx; unfold find_char.
  rewrite !str_size_app, str_size_cons, (proj2 (Z.ltb_lt _ _))
    by (pose proof (str_size_nonneg x); pose proof (str_size_nonneg y); lia).
  replace (Z.to_nat (str_size a)) with (String.length a) by (unfold str_size; lia).
  rewrite str_drop_app, first_index_app by exact Hx.
  cbn [first_index]; rewrite Ascii.eqb_refl; cbn [option_map].
  unfold str_size; lia.
Qed.

Lemma find_char_none (s : string) (c : ascii) (pos : Z) :
  forall_chars (fun ch => negb (Ascii.eqb c ch)) (str_drop (Z.to_nat pos) s) = true ->
  find_char s c pos = npos.
Proof.
  intros H; unfold find_char; destruct (pos <? str_size s); [|reflexivity].
  apply first_index_none in H; rewrite H; reflexivity.
Qed.

(** ** Decimal digits *)

Lemma digit_value_range (c : ascii) (x : Z) : digit_value c = Some x -> 0 <= x <= 9.
Proof.
  unfold digit_value; destruct ((48 <=? nat_of_ascii c)%nat && (nat_of_ascii c <=? 57)%nat) eqn:H;
    [|discriminate].
  apply andb_prop in H as [H1 H2]; apply Nat.leb_le in H1, H2.
  intros E; injection E as <-; lia.
Qed.

Lemma is_digit_not_space (c : ascii) : is_digit c = true -> is_space c = false.
Proof.
  unfold is_digit, has_value, digit_value, is_space.
  destruct ((48 <=? nat_of_ascii c)%nat && (nat_of_ascii c <=? 57)%nat) eqn:H; [|discriminate].
  apply andb_prop in H as [H1 H2]; apply Nat.leb_le in H1, H2; intros _.
  rewrite (proj2 (Nat.eqb_neq _ 32)) by lia.
  rewrite (proj2 (Nat.leb_gt (nat_of_ascii c) 13)) by lia; apply andb_false_r.
Qed.

Lemma is_digit_neq (c d : ascii) : is_digit c = true -> is_digit d = false -> Ascii.eqb c d = false.
Proof. intros H1 H2; destruct (Ascii.eqb_spec c d) as [->|]; [congruence|reflexivity]. Qed.

Lemma digits_no_char (d : string) (c : ascii) :
  is_digit c = false -> forall_chars is_digit d = true ->
  forall_chars (fun ch => negb (Ascii.eqb c ch)) d = true.
Proof.
  intros Hc; apply forall_chars_impl; intros ch Hch.
  rewrite Ascii.eqb_sym, (is_digit_neq ch c Hch Hc); reflexivity.
Qed.

Lemma read_digits_app (d rest : string) (acc : Z) :
  forall_chars is_digit d = true -> starts_with_digit rest = false ->
  read_digits (d ++ rest) acc true = Some (digits_value_from acc d).
Proof.
  revert acc; induction d as [|c d IH]; intros acc Hd Hr; cbn [String.append].
  - destruct rest as [|c r]; cbn in *; [reflexivity|].
    unfold is_digit, has_value in Hr; destruct (digit_value c); [discriminate|reflexivity].
  - cbn [forall_chars] in Hd; apply andb_prop in Hd as [Hc Hd].
    unfold is_digit, has_value in Hc; cbn [read_digits digits_value_from].
    destruct (digit_value c); [apply IH; assumption|discriminate].
Qed.

Lemma read_digits_start (d rest : string) :
  digit_string d = true -> starts_with_digit rest = false ->
  read_digits (d ++ rest) 0 false = Some (digits_value d).
Proof.
  unfold digit_string; destruct d as [|c d]; [discriminate|]; cbn [String.eqb negb andb].
  intros Hd Hr; cbn [forall_chars] in Hd; apply andb_prop in Hd as [Hc Hd].
  unfold is_digit, has_value in Hc; unfold digits_value; cbn [String.append read_digits digits_value_from].
  destruct (digit_value c); [apply read_digits_app; assumption|discriminate].
Qed.

Lemma digits_value_from_nonneg (acc : Z) (d : string) :
  0 <= acc -> forall_chars is_digit d = true -> 0 <= digits_value_from acc d.
Proof.
  revert acc; induction d as [|c d IH]; intros acc Ha Hd; cbn [digits_value_from forall_chars] in *; [exact Ha|].
  apply andb_prop in Hd as [_ Hd]; apply IH; [|exact Hd].
  destruct (digit_value c) eqn:E; [apply digit_value_range in E|]; lia.
Qed.

Lemma digits_value_nonneg (d : string) : digit_string d = true -> 0 <= digits_value d.
Proof.
  unfold digit_string; intros H; apply andb_prop in H as [_ H].
  apply digits_value_from_nonneg; [lia|exact H].
Qed.

Lemma strto_parse_digits (d rest : string) :
  digit_string d = true -> starts_with_digit rest = false ->
  strto_parse (d ++ rest) = Some (false, digits_value d).
Proof.
  intros Hd Hr; pose proof (read_digits_start d rest Hd Hr) as R.
  unfold digit_string in Hd; destruct d as [|c d']; [discriminate|].
  cbn [forall_chars String.eqb negb andb] in Hd; apply andb_prop in Hd as [Hc _].
  unfold strto_parse; cbn [String.append skip_spaces]; rewrite (is_digit_not_space c Hc).
  rewrite (is_digit_neq c "-"%char Hc eq_refl), (is_digit_neq c "+"%char Hc eq_refl).
  cbn [String.append] in R; rewrite R; reflexivity.
Qed.

Lemma strto_parse_neg (d rest : string) :
  digit_string d = true -> starts_with_digit rest = false ->
  strto_parse (String "-"%char (d ++ rest)) = Some (true, digits_value d).
Proof.
  intros Hd Hr; unfold strto_parse; cbn [skip_spaces].
  replace (is_space "-"%char) with false by reflexivity; cbv iota beta.
  rewrite Ascii.eqb_refl, read_digits_start by assumption; reflexivity.
Qed.

Lemma stoi_digits (d rest : string) :
  digit_string d = true -> starts_with_digit rest = false -> digits_value d <= int_max ->
  stoi (d ++ rest) = Some (digits_value d).
Proof.
  intros Hd Hr Hm; pose proof (digits_value_nonneg d Hd).
  unfold stoi; rewrite strto_parse_digits by assumption.
  unfold int_min, int_max in *; rewrite (proj2 (Z.leb_le _ _)), (proj2 (Z.leb_le _ _)) by lia.
  reflexivity.
Qed.

Lemma stoi_digits_big (d rest : string) :
  digit_string d = true -> starts_with_digit rest = false -> int_max < digits_value d ->
  stoi (d ++ rest) = None.
Proof.
  intros Hd Hr Hm; unfold stoi; rewrite strto_parse_digits by assumption.
  rewrite (proj2 (Z.leb_gt _ _) Hm), andb_false_r; reflexivity.
Qed.

Lemma stoul_digits (d rest : string) :
  digit_string d = true -> starts_with_digit rest = false -> digits_value d <= npos ->
  stoul (d ++ rest) = Some (digits_value d).
Proof.
  intros Hd Hr Hm; unfold stoul; rewrite strto_parse_digits by assumption.
  unfold npos in Hm; rewrite (proj2 (Z.leb_le _ _) Hm); reflexivity.
Qed.

Lemma stoul_neg (d rest : string) :
  digit_string d = true -> starts_with_digit rest = false -> digits_value d <= npos ->
  stoul (String "-"%char (d ++ rest)) = Some (size_t_wrap (- digits_value d)).
Proof.
  intros Hd Hr Hm; unfold stoul; rewrite strto_parse_neg by assumption.
  unfold npos in Hm; rewrite (proj2 (Z.leb_le _ _) Hm); reflexivity.
Qed.

Lemma digit_string_chars (d : string) : digit_string d = true -> forall_chars is_digit d = true.
Proof. unfold digit_string; intros H; apply andb_prop in H as [_ H]; exact H. Qed.

Lemma digits_no_comma (d : string) :
  digit_string d = true -> forall_chars (fun ch => negb (Ascii.eqb ","%char ch)) d = true.
Proof. intros H; apply digits_no_char; [reflexivity|apply digit_string_chars, H]. Qed.

Lemma stoi_digits_only (d : string) :
  digit_string d = true -> digits_value d <= int_max -> stoi d = Some (digits_value d).
Proof.
  intros H1 H2; rewrite <- (append_empty_r d) at 1; apply stoi_digits; auto.
Qed.

Lemma stoi_empty : stoi EmptyString = None.
Proof. reflexivity. Qed.

Lemma str_size_snoc (a : string) (c : ascii) :
  str_size (a ++ String c EmptyString) = str_size a + 1.
Proof. rewrite str_size_app; reflexivity. Qed.

Lemma substring_zero (s : string) (n : nat) : String.substring n 0 s = EmptyString.
Proof. revert s; induction n as [|n IH]; intros [|c s]; cbn; auto. Qed.

Lemma substr_zero (s : string) (pos : Z) : 0 <= pos <= str_size s -> substr s pos 0 = EmptyString.
Proof. intros H; unfold substr; rewrite Z.min_l by lia; apply substring_zero. Qed.

Lemma find_char_first (x y : string) (c : ascii) :
  forall_chars (fun ch => negb (Ascii.eqb c ch)) x = true ->
  find_char (x ++ String c y) c 0 = str_size x.
Proof. intros H; exact (find_char_at EmptyString x y c H). Qed.

Lemma find_char_after (a x : string) (c : ascii) :
  forall_chars (fun ch => negb (Ascii.eqb c ch)) x = true ->
  find_char (a ++ x) c (str_size a) = npos.
Proof.
  intros H; apply find_char_none.
  replace (Z.to_nat (str_size a)) with (String.length a) by (unfold str_size; lia).
  rewrite str_drop_app; exact H.
Qed.

(** ** [parse_size_pair] and [parse_size_triple] (main.cpp) *)

(** [parse_size_pair] reads back two decimal fields "M,N" that fit an [int];
    whatever follows the second run of digits (a third field, a unit) is
    silently ignored. *)
Theorem parse_size_pair_digits (d1 d2 rest : string) :
  digit_string d1 = true -> digit_string d2 = true -> starts_with_digit rest = false ->
  digits_value d1 <= int_max -> digits_value d2 <= int_max ->
  valid_string (d1 ++ String ","%char (d2 ++ rest)) ->
  parse_size_pair (d1 ++ String ","%char (d2 ++ rest)) = Some (digits_value d1, digits_value d2).
Proof.
  intros H1 H2 Hr B1 B2 Hv.
  unfold valid_string in Hv; rewrite str_size_app, str_size_cons in Hv.
  pose proof (str_size_nonneg d1); pose proof (str_size_nonneg (d2 ++ rest)).
  unfold parse_size_pair; rewrite find_char_first by (apply digits_no_comma, H1).
  rewrite (proj2 (Z.eqb_neq _ _)) by lia.
  rewrite substr_prefix, stoi_digits_only by assumption.
  rewrite <- (str_size_snoc d1 ","%char).
  replace (d1 ++ String ","%char (d2 ++ rest))%string
    with ((d1 ++ String ","%char EmptyString) ++ (d2 ++ rest))%string
    by (rewrite append_assoc_str; reflexivity).
  rewrite substr_suffix by (unfold npos in *; lia).
  rewrite stoi_digits by assumption; reflexivity.
Qed.

Lemma parse_size_pair_digits_witness :
  parse_size_pair ("1024" ++ String ","%char ("512" ++ ",7"))
  = Some (digits_value "1024", digits_value "512").
Proof.
  apply parse_size_pair_digits; try reflexivity; unfold valid_string, int_max, npos;
    vm_compute; congruence.
Defined.

(** [parse_size_pair] rejects a string with no comma, and a string whose
    first field is a run of digits beyond [INT_MAX] ([std::stoi] throws
    [out_of_range]). *)
Theorem parse_size_pair_rejects (s d1 rest : string) :
  forall_chars (fun ch => negb (Ascii.eqb ","%char ch)) s = true ->
  digit_string d1 = true -> int_max < digits_value d1 ->
  valid_string (d1 ++ String ","%char rest) ->
  parse_size_pair s = None /\ parse_size_pair (d1 ++ String ","%char rest) = None.
Proof.
  intros Hs H1 B1 Hv; split.
  - unfold parse_size_pair; rewrite (find_char_after EmptyString s) by exact Hs; reflexivity.
  - unfold valid_string in Hv; rewrite str_size_app, str_size_cons in Hv.
    pose proof (str_size_nonneg d1); pose proof (str_size_nonneg rest).
    unfold parse_size_pair; rewrite find_char_first by (apply digits_no_comma, H1).
    rewrite (proj2 (Z.eqb_neq _ _)) by lia.
    rewrite substr_prefix, <- (append_empty_r d1), stoi_digits_big by auto; reflexivity.
Qed.

Lemma parse_size_pair_rejects_witness :
  parse_size_pair "1024x1024" = None
  /\ parse_size_pair ("4294967296" ++ String ","%char "8") = None.
Proof.
  apply parse_size_pair_rejects; try reflexivity; unfold valid_string, int_max, npos;
    vm_compute; congruence.
Defined.

(** [parse_size_triple] reads back three decimal fields "M,N,K" that fit an
    [int]; whatever follows the third run of digits is ignored. *)
Theorem parse_size_triple_digits (d1 d2 d3 rest : string) :
  digit_string d1 = true -> digit_string d2 = true -> digit_string d3 = true ->
  starts_with_digit rest = false ->
  digits_value d1 <= int_max -> digits_value d2 <= int_max -> digits_value d3 <= int_max ->
  valid_string (d1 ++ String ","%char (d2 ++ String ","%char (d3 ++ rest))) ->
  parse_size_triple (d1 ++ String ","%char (d2 ++ String ","%char (d3 ++ rest)))
  = Some (digits_value d1, digits_value d2, digits_value d3).
Proof.
  intros H1 H2 H3 Hr B1 B2 B3 Hv.
  set (s := (d1 ++ String ","%char (d2 ++ String ","%char (d3 ++ rest)))%string) in *.
  set (a := (d1 ++ String ","%char EmptyString)%string).
  set (b := (d2 ++ String ","%char EmptyString)%string).
  assert (Sa : str_size a = str_size d1 + 1) by apply str_size_snoc.
  assert (Sb : str_size b = str_size d2 + 1) by apply str_size_snoc.
  assert (E1 : s = (a ++ d2 ++ String ","%char (d3 ++ rest))%string)
    by (unfold s, a; rewrite append_assoc_str; reflexivity).
  assert (E2 : s = ((a ++ b) ++ d3 ++ rest)%string)
    by (unfold s, a, b; rewrite !append_assoc_str; reflexivity).
  unfold valid_string in Hv.
  assert (Hsz : str_size s = str_size d1 + str_size d2 + str_size (d3 ++ rest) + 2)
    by (rewrite E2, !str_size_app, Sa, Sb; lia).
  pose proof (str_size_nonneg d1); pose proof (str_size_nonneg d2);
    pose proof (str_size_nonneg (d3 ++ rest)).
  assert (P1 : find_char s ","%char 0 = str_size d1)
    by (apply find_char_first, digits_no_comma, H1).
  assert (P2 : find_char s ","%char (str_size d1 + 1) = str_size d1 + 1 + str_size d2)
    by (rewrite E1, <- Sa; apply find_char_at, digits_no_comma, H2).
  unfold parse_size_triple; rewrite P1, (proj2 (Z.eqb_neq _ _)) by lia.
  rewrite P2, (proj2 (Z.eqb_neq _ _)) by lia.
  replace (substr s 0 (str_size d1)) with d1 by (symmetry; apply substr_prefix).
  rewrite stoi_digits_only by assumption.
  replace (substr s (str_size d1 + 1) (str_size d1 + 1 + str_size d2 - str_size d1 - 1))
    with d2 by (symmetry;
                replace (str_size d1 + 1 + str_size d2 - str_size d1 - 1) with (str_size d2) by lia;
                rewrite E1, <- Sa; apply substr_middle).
  rewrite stoi_digits_only by assumption.
  replace (substr s (str_size d1 + 1 + str_size d2 + 1) npos) with (d3 ++ rest)%string
    by (symmetry; rewrite E2;
        replace (str_size d1 + 1 + str_size d2 + 1) with (str_size (a ++ b))
          by (rewrite str_size_app; lia);
        apply substr_suffix; unfold npos in *; lia).
  rewrite stoi_digits by assumption; reflexivity.
Qed.

Lemma parse_size_triple_digits_witness :
  parse_size_triple ("256" ++ String ","%char ("128" ++ String ","%char ("64" ++ EmptyString)))
  = Some (digits_value "256", digits_value "128", digits_value "64").
Proof.
  apply parse_size_triple_digits; try reflexivity; unfold valid_string, int_max, npos;
    vm_compute; congruence.
Defined.

(** [parse_size_triple] rejects a string with fewer than two commas, and a
    string whose middle field is empty ("M,,K"). *)
Theorem parse_size_triple_rejects (x y d r : string) :
  forall_chars (fun ch => negb (Ascii.eqb ","%char ch)) x = true ->
  forall_chars (fun ch => negb (Ascii.eqb ","%char ch)) y = true ->
  forall_chars (fun ch => negb (Ascii.eqb ","%char ch)) d = true ->
  valid_string (d ++ String ","%char (String ","%char r)) ->
  parse_size_triple x = None
  /\ parse_size_triple (x ++ String ","%char y) = None
  /\ parse_size_triple (d ++ String ","%char (String ","%char r)) = None.
Proof.
  intros Hx Hy Hd Hv; split; [|split].
  - unfold parse_size_triple; rewrite (find_char_after EmptyString x) by exact Hx; reflexivity.
  - unfold parse_size_triple; rewrite find_char_first by exact Hx.
    pose proof (str_size_nonneg x); unfold npos.
    destruct (Z.eqb_spec (str_size x) (size_t_modulus - 1)); [reflexivity|].
    rewrite <- (str_size_snoc x ","%char).
    replace (x ++ String ","%char y)%string with ((x ++ String ","%char EmptyString) ++ y)%string
      by (rewrite append_assoc_str; reflexivity).
    rewrite find_char_after by exact Hy; reflexivity.
  - unfold valid_string in Hv; rewrite str_size_app, !str_size_cons in Hv.
    pose proof (str_size_nonneg d); pose proof (str_size_nonneg r).
    unfold parse_size_triple; rewrite find_char_first by exact Hd.
    rewrite (proj2 (Z.eqb_neq _ _)) by lia.
    replace (d ++ String ","%char (String ","%char r))%string
      with ((d ++ String ","%char EmptyString) ++ EmptyString ++ String ","%char r)%string
      by (rewrite append_assoc_str; reflexivity).
    rewrite <- (str_size_snoc d ","%char), find_char_at by reflexivity.
    change (str_size EmptyString) with 0; rewrite Z.add_0_r.
    rewrite str_size_snoc in *.
    rewrite (proj2 (Z.eqb_neq _ _)) by lia.
    replace (str_size d + 1 - str_size d - 1) with 0 by lia.
    rewrite substr_zero by (rewrite !str_size_app, !str_size_cons;
                            change (str_size EmptyString) with 0; lia).
    rewrite stoi_empty; destruct (stoi _); reflexivity.
Qed.

Lemma parse_size_triple_rejects_witness :
  parse_size_triple "1024" = None
  /\ parse_size_triple ("1024" ++ String ","%char "1024") = None
  /\ parse_size_triple ("1024" ++ String ","%char (String ","%char "1024")) = None.
Proof.
  apply parse_size_triple_rejects; try reflexivity; unfold valid_string, npos;
    vm_compute; congruence.
Defined.

(** ** Command line and configuration loading (main.cpp) *)

Ltac apply_cli_cases H :=
  unfold apply_cli in H;
  repeat match type of H with
  | context [String.eqb ?l EmptyString] =>
      destruct (String.eqb l EmptyString) eqn:?; cbn [option_map] in H; try discriminate H
  | context [stoull ?l] => destruct (stoull l); cbn [option_map] in H; try discriminate H
  | context [parse_size_pair ?l] =>
      destruct (parse_size_pair l); cbn [option_map] in H; try discriminate H
  | context [parse_size_triple ?l] =>
      destruct (parse_size_triple l); cbn [option_map] in H; try discriminate H
  end.

Lemma apply_cli_exit_status (opts : CliOptions) (cfg : config.BenchmarkConfig) (s : Z) (msg : string) :
  apply_cli opts cfg = CliExit s msg -> s = 1.
Proof. intros H; apply_cli_cases H; injection H; auto. Qed.

Lemma apply_cli_config (opts : CliOptions) (cfg cfg' : config.BenchmarkConfig) :
  apply_cli opts cfg = CliConfig cfg' ->
  config.threads cfg' = opt_threads opts
  /\ config.cycles cfg' = opt_cycles opts
  /\ config.warmup cfg' = opt_warmup opts
  /\ config.flush_cache cfg' = config.flush_cache cfg
  /\ (forall lv, level_functions cfg' lv = level_functions cfg lv)
  /\ (level1_str opts = EmptyString -> config.level1_size cfg' = config.level1_size cfg)
  /\ (level2_str opts = EmptyString -> config.level2_size cfg' = config.level2_size cfg)
  /\ (level3_str opts = EmptyString -> config.level3_size cfg' = config.level3_size cfg)
  /\ (forall lv, level_has_size cfg lv = true -> level_has_size cfg' lv = true).
Proof.
  intros H; apply_cli_cases H; injection H as <-;
    repeat split; cbn; try reflexivity;
    first [ intros [| |]; cbn; auto
          | intros Hs; rewrite Hs in *; discriminate
          | intros _; reflexivity ].
Qed.

Ltac destruct_ifs :=
  repeat match goal with
         | |- context [if ?b then _ else _] => destruct b
         end.

Lemma parse_defaults_sizes (iv : toml_node -> option Z) (bv : toml_node -> option bool)
    (d : list (string * toml_node)) (cfg : config.BenchmarkConfig) (lv : Level) :
  level_has_size cfg lv = true -> level_has_size (parse_defaults iv bv d cfg) lv = true.
Proof. unfold parse_defaults; destruct lv; cbn; destruct_ifs; auto. Qed.

Lemma parse_string_sizes (iv : toml_node -> option Z) (bv : toml_node -> option bool)
    (tbl : list (string * toml_node)) (cfg : config.BenchmarkConfig) :
  parse_string iv bv tbl = Some cfg -> forall lv, level_has_size cfg lv = true.
Proof.
  unfold parse_string; intros H lv.
  destruct (table_contains tbl "functions");
    [destruct (as_table (table_find tbl "functions")); [|discriminate]|];
    (destruct (negb _); [discriminate|];
     destruct (table_contains tbl "defaults");
     [destruct (as_table (table_find tbl "defaults")); [|discriminate]|]);
    injection H as <-; try apply parse_defaults_sizes; destruct lv; reflexivity.
Qed.

Lemma load_config_sizes (iv : toml_node -> option Z) (bv : toml_node -> option bool)
    (src : ConfigSource) (cfg : config.BenchmarkConfig) (st st' : St) :
  load_config iv bv src st = Ok cfg st' -> forall lv, level_has_size cfg lv = true.
Proof.
  destruct src as [| | |tbl]; cbn [load_config].
  - cbn; intros H; injection H as <- _; intros [| |]; reflexivity.
  - cbn; intros H; discriminate H.
  - cbn; intros H; injection H as <- _; intros [| |]; reflexivity.
  - destruct (parse_string iv bv tbl) as [c|] eqn:E; cbv [ret undefined]; intros H;
      [injection H as <- _; apply (parse_string_sizes iv bv tbl); exact E|discriminate H].
Qed.

Lemma load_config_thrown (iv : toml_node -> option Z) (bv : toml_node -> option bool)
    (src : ConfigSource) (e : Exn) (st st' : St) :
  load_config iv bv src st = Thrown e st' -> e = FilesystemError /\ src = ConfigExistsError.
Proof.
  destruct src as [| | |tbl]; cbn [load_config]; cbn; intros H; try discriminate H.
  - injection H as <- _; split; reflexivity.
  - destruct (parse_string iv bv tbl); discriminate H.
Qed.

Lemma try_catch_ok_inv {T} (c : M T) (h : Exn -> M T) (st : St) (x : T) (st' : St) :
  try_catch c h st = Ok x st' ->
  c st = Ok x st' \/ exists e s, c st = Thrown e s /\ h e s = Ok x st'.
Proof. unfold try_catch; destruct (c st); intros H; eauto; discriminate H. Qed.

Lemma try_catch_thrown_inv {T} (c : M T) (h : Exn -> M T) (st : St) (e : Exn) (st' : St) :
  try_catch c h st = Thrown e st' -> exists e0 s, c st = Thrown e0 s /\ h e0 s = Thrown e st'.
Proof. unfold try_catch; destruct (c st); intros H; eauto; discriminate H. Qed.

(** The [try] block of [main] ends in [return 0], its [catch] in
    [return 1], and no exception leaves it. *)
Lemma run_benchmarks_status (A : Arith) (clock : nat -> val A) (env : Env)
    (collected : option SystemInfo) (cfg : config.BenchmarkConfig) (out : string)
    (st st' : St) (z : Z) :
  run_benchmarks A clock env collected cfg out st = Ok z st' -> z = 0 \/ z = 1.
Proof.
  unfold run_benchmarks; intros H; apply try_catch_ok_inv in H as [H|(e & s & _ & H)].
  - apply bind_ok_inv in H as (x1 & s1 & _ & H); cbv beta in H.
    apply bind_ok_inv in H as (x2 & s2 & _ & H); cbv beta in H.
    apply bind_ok_inv in H as (x3 & s3 & _ & H); cbv beta in H.
    cbn [ret] in H; injection H as <- _; left; reflexivity.
  - cbn in H; injection H as <- _; right; reflexivity.
Qed.

Lemma run_benchmarks_no_throw (A : Arith) (clock : nat -> val A) (env : Env)
    (collected : option SystemInfo) (cfg : config.BenchmarkConfig) (out : string)
    (st st' : St) (e : Exn) :
  run_benchmarks A clock env collected cfg out st <> Thrown e st'.
Proof.
  unfold run_benchmarks; intros H; apply try_catch_thrown_inv in H as (e0 & s & _ & H).
  cbn in H; discriminate H.
Qed.

Lemma main_run_config (A : Arith) (clock : nat -> val A) (env : Env)
    (iv : toml_node -> option Z) (bv : toml_node -> option bool)
    (collected : option SystemInfo) (src : ConfigSource) (out : string) (opts : CliOptions)
    (cfg cfg' : config.BenchmarkConfig) (st st' : St) :
  load_config iv bv src st = Ok cfg st' -> apply_cli opts cfg = CliConfig cfg' ->
  no_benchmark_sizes cfg' = false
  /\ main_run A clock env iv bv collected src (CliParsed false out opts) st
     = run_benchmarks A clock env collected cfg' out st'.
Proof.
  intros Hl Ha.
  assert (Hs : no_benchmark_sizes cfg' = false).
  { destruct (apply_cli_config opts cfg cfg' Ha) as (_ & _ & _ & _ & _ & _ & _ & _ & Hz).
    pose proof (Hz L1 (load_config_sizes iv bv src cfg st st' Hl L1)) as H1; cbn in H1.
    unfold no_benchmark_sizes; rewrite H1; reflexivity. }
  split; [exact Hs|].
  unfold main_run; cbn [bind]; rewrite Hl; cbv beta; rewrite Ha.
  unfold main_after_config; rewrite Hs; reflexivity.
Qed.

(** [main] never reaches its "No benchmark sizes specified" exit: every
    configuration it can assemble, from the defaults, a configuration file
    and the command line, has a level-1 size, so once the configuration is
    loaded and the command line accepted, [main] goes on with its [try]
    block (runner, [run_all], formatting, [write_output]) and its [catch]. *)
Theorem main_never_lacks_sizes (A : Arith) (clock : nat -> val A) (env : Env)
    (iv : toml_node -> option Z) (bv : toml_node -> option bool)
    (collected : option SystemInfo) (src : ConfigSource) (out : string) (opts : CliOptions)
    (cfg cfg' : config.BenchmarkConfig) (st st' : St) :
  load_config iv bv src st = Ok cfg st' -> apply_cli opts cfg = CliConfig cfg' ->
  no_benchmark_sizes cfg' = false
  /\ main_run A clock env iv bv collected src (CliParsed false out opts) st
     = run_benchmarks A clock env collected cfg' out st'.
Proof. apply main_run_config. Qed.

Lemma main_never_lacks_sizes_witness :
  no_benchmark_sizes (set_run_params config.get_default 4 2 1 true) = false
  /\ main_run Double (fun _ => elapsed_ms Double 9) unlimited_env (fun _ => None) (fun _ => None)
       (Some sample_system_info) NoConfigFile (CliParsed false EmptyString sample_options)
       initial_state
     = run_benchmarks Double (fun _ => elapsed_ms Double 9) unlimited_env
         (Some sample_system_info) (set_run_params config.get_default 4 2 1 true) EmptyString
         initial_state.
Proof.
  apply (main_never_lacks_sizes Double (fun _ => elapsed_ms Double 9) unlimited_env
           (fun _ => None) (fun _ => None) (Some sample_system_info) NoConfigFile EmptyString
           sample_options config.get_default); reflexivity.
Defined.

(** When [main] returns, its exit status is 0, 1, or the code
    [app.exit(e)] gives for a command-line parse error.  The only
    exceptions that leave [main] (and terminate the program) are the one of
    [std::filesystem::exists] on the configuration path and, with
    [--system-info], the one of the system-information collector. *)
Theorem main_exit_status (A : Arith) (clock : nat -> val A) (env : Env)
    (iv : toml_node -> option Z) (bv : toml_node -> option bool)
    (collected : option SystemInfo) (src : ConfigSource) (parsed : CliParse) (st : St) :
  (forall z st',
     main_run A clock env iv bv collected src parsed st = Ok z st' ->
     z = 0 \/ z = 1 \/ exists code, parsed = CliParseError code /\ z = code)
  /\ (forall e st',
        main_run A clock env iv bv collected src parsed st = Thrown e st' ->
        (e = FilesystemError /\ src = ConfigExistsError)
        \/ (e = StoiError /\ collected = None
            /\ exists out opts, parsed = CliParsed true out opts)).
Proof.
  split.
  - intros z st' H; destruct parsed as [code|ssi out opts].
    + cbn in H; injection H as <- _; right; right; exists code; split; reflexivity.
    + unfold main_run in H; destruct ssi.
      { destruct collected; cbn in H; [injection H as <- _; left; reflexivity|discriminate H]. }
      cbn [bind] in H; destruct (load_config iv bv src st) as [cfg s1| |] eqn:El;
        try discriminate H.
      destruct (apply_cli opts cfg) as [s msg|cfg'] eqn:Ha.
      * apply apply_cli_exit_status in Ha; subst s; cbn in H; injection H as <- _; right; left;
          reflexivity.
      * unfold main_after_config in H; destruct (no_benchmark_sizes cfg').
        { cbn in H; injection H as <- _; right; left; reflexivity. }
        apply run_benchmarks_status in H; tauto.
  - intros e st' H; destruct parsed as [code|ssi out opts]; [cbn in H; discriminate H|].
    unfold main_run in H; destruct ssi.
    { destruct collected; cbn in H; [discriminate H|injection H as <- _].
      right; split; [reflexivity|split; [reflexivity|eauto]]. }
    cbn [bind] in H; destruct (load_config iv bv src st) as [cfg s1|e0 s1|] eqn:El;
      try discriminate H.
    + destruct (apply_cli opts cfg) as [s msg|cfg'] eqn:Ha; [cbn in H; discriminate H|].
      unfold main_after_config in H; destruct (no_benchmark_sizes cfg');
        [cbn in H; discriminate H|].
      exfalso; exact (run_benchmarks_no_throw _ _ _ _ _ _ _ _ _ H).
    + injection H as <- _; left; exact (load_config_thrown iv bv src e0 st s1 El).
Qed.

Lemma main_exit_status_witness :
  main_run Double (fun _ => elapsed_ms Double 9) unlimited_env (fun _ => None) (fun _ => None)
    (Some sample_system_info) NoConfigFile (CliParsed false EmptyString bad_level1_options)
    initial_state
  = Ok 1 {| trace := [EvError "Invalid level1 size: large"]; ticks := 0 |}
  /\ (1 = 0 \/ 1 = 1
      \/ exists code, CliParsed false EmptyString bad_level1_options = CliParseError code
                      /\ 1 = code)
  /\ main_run Double (fun _ => elapsed_ms Double 9) unlimited_env (fun _ => None) (fun _ => None)
       (Some sample_system_info) ConfigExistsError (CliParsed false EmptyString sample_options)
       initial_state = Thrown FilesystemError initial_state
  /\ ((FilesystemError = FilesystemError /\ ConfigExistsError = ConfigExistsError)
      \/ (FilesystemError = StoiError /\ Some sample_system_info = None
          /\ exists out opts, CliParsed false EmptyString sample_options = CliParsed true out opts)).
Proof.
  split; [reflexivity|]; split.
  - destruct (main_exit_status Double (fun _ => elapsed_ms Double 9) unlimited_env
                (fun _ => None) (fun _ => None) (Some sample_system_info) NoConfigFile
                (CliParsed false EmptyString bad_level1_options) initial_state) as [Hok _].
    exact (Hok 1 _ eq_refl).
  - split; [reflexivity|].
    destruct (main_exit_status Double (fun _ => elapsed_ms Double 9) unlimited_env
                (fun _ => None) (fun _ => None) (Some sample_system_info) ConfigExistsError
                (CliParsed false EmptyString sample_options) initial_state) as [_ Hth].
    exact (Hth FilesystemError _ eq_refl).
Defined.

(** With at least one timed cycle, every command line [main] accepts leads
    to a complete run and exit status 0, when the configuration is loaded,
    the system information collected, every allocation of the run succeeds
    and the output file, if any, opens. *)
Theorem main_completes (A : Arith) (clock : nat -> val A) (env : Env)
    (iv : toml_node -> option Z) (bv : toml_node -> option bool) (sys : SystemInfo)
    (src : ConfigSource) (out : string) (opts : CliOptions)
    (cfg cfg' : config.BenchmarkConfig) (st st1 : St) :
  1 <= opt_cycles opts ->
  load_config iv bv src st = Ok cfg st1 -> apply_cli opts cfg = CliConfig cfg' ->
  run_allocs_ok env (make_runner cfg' sys) = true ->
  String.eqb out EmptyString || file_opens env out = true ->
  exists st', main_run A clock env iv bv (Some sys) src (CliParsed false out opts) st = Ok 0 st'.
Proof.
  intros Hc Hl Ha Hal Hout.
  destruct (main_run_config A clock env iv bv (Some sys) src out opts cfg cfg' st st1 Hl Ha)
    as [_ Hm].
  destruct (apply_cli_config opts cfg cfg' Ha) as (_ & Hcyc & _).
  destruct (run_all_spec A clock env (make_runner cfg' sys) st1) as (r & s2 & _ & Hr & _);
    [cbn; lia|exact Hal|].
  rewrite Hm; unfold run_benchmarks, try_catch; cbn [construct_runner bind ret].
  rewrite Hr; unfold write_output; rewrite Hout; cbn.
  eexists; reflexivity.
Qed.

Lemma main_completes_witness :
  exists st', main_run Exact (fun _ => elapsed_ms Exact 9) unlimited_env (fun _ => None)
                (fun _ => None) (Some sample_system_info) NoConfigFile
                (CliParsed false "results.csv" sample_options) initial_state = Ok 0 st'.
Proof.
  apply (main_completes Exact (fun _ => elapsed_ms Exact 9) unlimited_env (fun _ => None)
           (fun _ => None) sample_system_info NoConfigFile "results.csv" sample_options
           config.get_default (set_run_params config.get_default 4 2 1 true)
           initial_state initial_state);
    [cbn; lia|reflexivity|reflexivity|vm_compute; reflexivity|reflexivity].
Defined.

(** The thread count, cycles and warmup of the command line always replace
    those of the configuration file; the flush flag and the operation lists
    of the file are kept, and so is each size whose command-line option is
    empty. *)
Theorem apply_cli_overrides (opts : CliOptions) (cfg cfg' : config.BenchmarkConfig) :
  apply_cli opts cfg = CliConfig cfg' ->
  config.threads cfg' = opt_threads opts
  /\ config.cycles cfg' = opt_cycles opts
  /\ config.warmup cfg' = opt_warmup opts
  /\ config.flush_cache cfg' = config.flush_cache cfg
  /\ (forall lv, level_functions cfg' lv = level_functions cfg lv)
  /\ (level1_str opts = EmptyString -> config.level1_size cfg' = config.level1_size cfg)
  /\ (level2_str opts = EmptyString -> config.level2_size cfg' = config.level2_size cfg)
  /\ (level3_str opts = EmptyString -> config.level3_size cfg' = config.level3_size cfg).
Proof.
  intros H; destruct (apply_cli_config opts cfg cfg' H) as (? & ? & ? & ? & ? & ? & ? & ? & _).
  repeat split; assumption.
Qed.

Lemma apply_cli_overrides_witness :
  let cfg := level1_config 9 9 false 77 ["cblas_ddot"%string] in
  let cfg' := set_run_params cfg 4 2 1 false in
  config.threads cfg' = 4 /\ config.cycles cfg' = 2 /\ config.warmup cfg' = 1
  /\ config.flush_cache cfg' = config.flush_cache cfg
  /\ (forall lv, level_functions cfg' lv = level_functions cfg lv)
  /\ (EmptyString = EmptyString -> config.level1_size cfg' = config.level1_size cfg)
  /\ (EmptyString = EmptyString -> config.level2_size cfg' = config.level2_size cfg)
  /\ (EmptyString = EmptyString -> config.level3_size cfg' = config.level3_size cfg).
Proof.
  apply (apply_cli_overrides sample_options (level1_config 9 9 false 77 ["cblas_ddot"%string])).
  reflexivity.
Defined.

Lemma size_t_wrap_neg (v : Z) : 0 < v < size_t_modulus -> size_t_wrap (- v) = size_t_modulus - v.
Proof.
  intros H; unfold size_t_wrap.
  rewrite (Z.mod_unique (- v) size_t_modulus (-1) (size_t_modulus - v)); [reflexivity|lia|lia].
Qed.

(** [--level1 -N] is accepted: [std::stoull] negates the magnitude modulo
    [2^64], so the level-1 vector size becomes [2^64 - N]. *)
Theorem apply_cli_level1_negative (opts : CliOptions) (cfg : config.BenchmarkConfig) (d : string) :
  level1_str opts = String "-"%char d -> digit_string d = true -> 0 < digits_value d <= npos ->
  level2_str opts = EmptyString -> level3_str opts = EmptyString ->
  exists cfg', apply_cli opts cfg = CliConfig cfg'
               /\ config.level1_size cfg' = Some (size_t_modulus - digits_value d).
Proof.
  intros H1 Hd Hv H2 H3; unfold apply_cli; rewrite H1, H2, H3.
  unfold stoull; rewrite <- (append_empty_r d), stoul_neg by (auto || lia).
  rewrite size_t_wrap_neg by (unfold npos in Hv; lia).
  rewrite !append_empty_r; cbn [String.eqb option_map]; eexists; split; reflexivity.
Qed.

Lemma apply_cli_level1_negative_witness :
  exists cfg', apply_cli negative_level1_options config.get_default = CliConfig cfg'
               /\ config.level1_size cfg' = Some (size_t_modulus - digits_value "1").
Proof.
  apply (apply_cli_level1_negative negative_level1_options config.get_default "1");
    try reflexivity; unfold npos; vm_compute; split; congruence.
Defined.

(** ** [ConfigParser::parse_string] (config_parser.cpp) *)

Lemma as_table_non_table (v : toml_node) :
  (forall e, v <> TTable e) -> as_table (Some v) = None.
Proof. intros H; destruct v; try reflexivity; exfalso; eapply H; reflexivity. Qed.

Lemma table_contains_find (t : list (string * toml_node)) (k : string) (v : toml_node) :
  table_find t k = Some v -> table_contains t k = true.
Proof. unfold table_contains; intros ->; reflexivity. Qed.

Lemma table_contains_none (t : list (string * toml_node)) (k : string) :
  table_contains t k = false -> table_find t k = None.
Proof. unfold table_contains, has_value; destruct (table_find t k); congruence. Qed.

(** The result of [parse_string] when a [functions] table is found, or when
    none is: the default configuration with the lists it reads. *)
Lemma parse_string_functions_stage (iv : toml_node -> option Z) (bv : toml_node -> option bool)
    (tbl : list (string * toml_node)) (cfg : config.BenchmarkConfig) :
  parse_string iv bv tbl = Some cfg ->
  exists cfg1,
    cfg1 = (match table_find tbl "functions" with
            | Some (TTable fns) =>
                set_functions config.get_default
                  (parse_level_functions fns "level1" (config.level1_functions config.get_default))
                  (parse_level_functions fns "level2" (config.level2_functions config.get_default))
                  (parse_level_functions fns "level3" (config.level3_functions config.get_default))
            | _ => config.get_default
            end)
    /\ match table_find tbl "defaults" with
       | Some (TTable d) => cfg = parse_defaults iv bv d cfg1
       | _ => cfg = cfg1
       end.
Proof.
  unfold parse_string, table_contains, has_value; intros H.
  destruct (table_find tbl "functions") as [fv|] eqn:F;
    [destruct fv; try discriminate H|];
    (destruct (negb _); [discriminate|];
     destruct (table_find tbl "defaults") as [dv|];
     [destruct dv; try discriminate H|]);
    injection H as <-; eexists; split; reflexivity.
Qed.

(** A [functions], [weights] or [defaults] entry that is not a table makes
    [parse_string] dereference the null [as_table()] result: undefined
    behaviour, whatever the rest of the file holds. *)
Theorem parse_string_section_not_table (iv : toml_node -> option Z)
    (bv : toml_node -> option bool) (tbl : list (string * toml_node)) (key : string)
    (v : toml_node) :
  (key = "functions"%string \/ key = "weights"%string \/ key = "defaults"%string) ->
  table_find tbl key = Some v -> (forall e, v <> TTable e) ->
  parse_string iv bv tbl = None.
Proof.
  intros Hk Hf Hv; pose proof (as_table_non_table v Hv) as Ht.
  unfold parse_string.
  destruct Hk as [ -> | [ -> | -> ] ]; rewrite (table_contains_find _ _ _ Hf).
  - rewrite Hf, Ht; reflexivity.
  - rewrite Hf, Ht; cbn [has_value negb].
    destruct (if table_contains tbl "functions" then _ else _); reflexivity.
  - rewrite Hf, Ht.
    destruct (if table_contains tbl "functions" then _ else _); [|reflexivity].
    destruct (negb _); reflexivity.
Qed.

Lemma parse_string_section_not_table_witness :
  parse_string (fun _ => None) (fun _ => None)
    [("functions"%string, TTable [("level1"%string, TArray [TString "cblas_ddot"])]);
     ("defaults"%string, TInteger 4)] = None.
Proof.
  apply (parse_string_section_not_table (fun _ => None) (fun _ => None) _ "defaults" (TInteger 4)).
  - right; right; reflexivity.
  - reflexivity.
  - discriminate.
Defined.

Lemma parse_defaults_functions (iv : toml_node -> option Z) (bv : toml_node -> option bool)
    (d : list (string * toml_node)) (cfg : config.BenchmarkConfig) (lv : Level) :
  level_functions (parse_defaults iv bv d cfg) lv = level_functions cfg lv.
Proof. destruct lv; reflexivity. Qed.

(** The sizes of the [defaults] table: [level1_size] is read through
    [value_or(0)], that is the [int] toml++'s [value<int>()] gives for the
    entry, or 0 when that conversion yields no value, and converted to
    [std::size_t] (a negative value wraps); without it the default 1000000
    stays.  A level-2 size needs both [level2_m] and [level2_n], a level-3
    size all of [level3_m], [level3_n] and [level3_k]; otherwise the default
    1024 x 1024 (x 1024) stays. *)
Theorem parse_string_default_sizes (iv : toml_node -> option Z) (bv : toml_node -> option bool)
    (tbl d : list (string * toml_node)) (cfg : config.BenchmarkConfig) :
  table_find tbl "defaults" = Some (TTable d) -> parse_string iv bv tbl = Some cfg ->
  (table_contains d "level1_size" = false -> config.level1_size cfg = Some 1000000)
  /\ (forall node, table_find d "level1_size" = Some node ->
        config.level1_size cfg
        = match iv node with Some z => Some (size_of_int z) | None => Some 0 end)
  /\ (table_contains d "level2_m" && table_contains d "level2_n" = false ->
        config.level2_size cfg = Some (1024, 1024))
  /\ (table_contains d "level3_m" && table_contains d "level3_n" && table_contains d "level3_k"
        = false -> config.level3_size cfg = Some (1024, 1024, 1024)).
Proof.
  intros Hd Hp; destruct (parse_string_functions_stage iv bv tbl cfg Hp) as (cfg1 & E1 & E2).
  rewrite Hd in E2; subst cfg.
  assert (S : config.level1_size cfg1 = Some 1000000 /\ config.level2_size cfg1 = Some (1024, 1024)
              /\ config.level3_size cfg1 = Some (1024, 1024, 1024))
    by (subst cfg1; destruct (table_find tbl "functions") as [[]|]; repeat split).
  destruct S as (S1 & S2 & S3).
  unfold parse_defaults; cbn [set_sizes set_run_params config.level1_size config.level2_size
                              config.level3_size].
  repeat split.
  - intros H; rewrite H; exact S1.
  - intros node Hn; rewrite (table_contains_find _ _ _ Hn); cbn [view_at]; rewrite Hn.
    unfold int_value_or; destruct (iv node); reflexivity.
  - intros H; rewrite H; exact S2.
  - intros H; rewrite H; exact S3.
Qed.

Lemma parse_string_default_sizes_witness :
  let d := [("level1_size"%string, TInteger (-1)); ("level2_m"%string, TInteger 64)] in
  let cfg := parse_defaults sample_int_value (fun _ => None) d config.get_default in
  (table_contains d "level1_size" = false -> config.level1_size cfg = Some 1000000)
  /\ (forall node, table_find d "level1_size" = Some node ->
        config.level1_size cfg
        = match sample_int_value node with Some z => Some (size_of_int z) | None => Some 0 end)
  /\ (table_contains d "level2_m" && table_contains d "level2_n" = false ->
        config.level2_size cfg = Some (1024, 1024))
  /\ (table_contains d "level3_m" && table_contains d "level3_n" && table_contains d "level3_k"
        = false -> config.level3_size cfg = Some (1024, 1024, 1024)).
Proof.
  apply (parse_string_default_sizes sample_int_value (fun _ => None)
           [("defaults"%string, TTable [("level1_size"%string, TInteger (-1));
                                        ("level2_m"%string, TInteger 64)])]);
    reflexivity.
Defined.

(** The operation lists: a [functions.levelN] array gives its elements, an
    element that is not a string becoming the empty name; a [levelN] entry
    that is not an array empties the list; an absent one keeps the default.
    The [defaults] table never changes the lists. *)
Theorem parse_string_function_lists (iv : toml_node -> option Z) (bv : toml_node -> option bool)
    (tbl fns : list (string * toml_node)) (cfg : config.BenchmarkConfig) :
  table_find tbl "functions" = Some (TTable fns) -> parse_string iv bv tbl = Some cfg ->
  forall lv,
    level_functions cfg lv
    = match table_find fns (functions_key lv) with
      | Some (TArray items) => map (fun item => string_value_or item EmptyString) items
      | Some _ => []
      | None => level_functions config.get_default lv
      end.
Proof.
  intros Hf Hp lv; destruct (parse_string_functions_stage iv bv tbl cfg Hp) as (cfg1 & E1 & E2).
  rewrite Hf in E1.
  assert (Hc : level_functions cfg lv = level_functions cfg1 lv)
    by (destruct (table_find tbl "defaults") as [[]|]; subst cfg;
        try reflexivity; apply parse_defaults_functions).
  rewrite Hc; subst cfg1; unfold parse_level_functions, table_contains, has_value.
  destruct lv; cbn [level_functions functions_key set_functions config.level1_functions
                    config.level2_functions config.level3_functions];
    destruct (table_find fns _) as [[]|]; reflexivity.
Qed.

Lemma parse_string_function_lists_witness :
  level_functions (set_functions config.get_default ["cblas_ddot"%string; EmptyString] []
                     ["cblas_dgemm"%string]) L1 = ["cblas_ddot"%string; EmptyString]
  /\ level_functions (set_functions config.get_default ["cblas_ddot"%string; EmptyString] []
                        ["cblas_dgemm"%string]) L2 = []
  /\ level_functions (set_functions config.get_default ["cblas_ddot"%string; EmptyString] []
                        ["cblas_dgemm"%string]) L3 = ["cblas_dgemm"%string].
Proof.
  pose proof (parse_string_function_lists (fun _ => None) (fun _ => None)
                [("functions"%string, TTable [("level1"%string, TArray [TString "cblas_ddot"; TInteger 5]);
                                              ("level2"%string, TString "cblas_dgemv")])]
                [("level1"%string, TArray [TString "cblas_ddot"; TInteger 5]);
                 ("level2"%string, TString "cblas_dgemv")]
                (set_functions config.get_default ["cblas_ddot"%string; EmptyString] []
                   ["cblas_dgemm"%string]) eq_refl eq_refl) as H.
  split; [|split]; [rewrite (H L1)|rewrite (H L2)|rewrite (H L3)]; reflexivity.
Defined.

(** ** [trim] (system_info.cpp) *)

Lemma first_index_drop (q : ascii -> bool) (s : string) (k : nat) :
  first_index (fun c => negb (q c)) s = Some k -> str_drop k s = lstrip_by q s.
Proof.
  revert k; induction s as [|c s IH]; intros k; cbn [first_index]; [discriminate|].
  destruct (q c) eqn:Q; cbn [negb].
  - destruct (first_index _ s) as [k'|] eqn:E; cbn [option_map]; [|discriminate].
    intros H; injection H as <-; cbn [str_drop lstrip_by]; rewrite Q; apply IH; reflexivity.
  - intros H; injection H as <-; cbn [lstrip_by]; rewrite Q; reflexivity.
Qed.

Lemma first_index_lt (p : ascii -> bool) (s : string) (k : nat) :
  first_index p s = Some k -> (k < String.length s)%nat.
Proof.
  revert k; induction s as [|c s IH]; intros k; cbn; [discriminate|].
  destruct (p c); [intros H; injection H as <-; lia|].
  destruct (first_index p s) as [k'|] eqn:E; cbn; [|discriminate].
  intros H; injection H as <-; specialize (IH k' eq_refl); lia.
Qed.

Lemma last_index_lt (p : ascii -> bool) (s : string) (j : nat) :
  last_index p s = Some j -> (j < String.length s)%nat.
Proof.
  revert j; induction s as [|c s IH]; intros j; cbn; [discriminate|].
  destruct (last_index p s) as [k|]; [intros H; injection H as <-; specialize (IH k eq_refl); lia|].
  destruct (p c); [intros H; injection H as <-; lia|discriminate].
Qed.

Lemma first_last_index (q : ascii -> bool) (s : string) (k j : nat) :
  first_index (fun c => negb (q c)) s = Some k ->
  last_index (fun c => negb (q c)) s = Some j ->
  (k <= j)%nat /\ last_index (fun c => negb (q c)) (str_drop k s) = Some (j - k)%nat.
Proof.
  revert k j; induction s as [|c s IH]; intros k j; cbn [first_index last_index]; [discriminate|].
  destruct (q c) eqn:Q; cbn [negb].
  - destruct (first_index _ s) as [k'|] eqn:E; cbn [option_map]; [|discriminate].
    intros H; injection H as <-.
    destruct (last_index _ s) as [j'|] eqn:L; [|discriminate].
    intros H; injection H as <-.
    destruct (IH k' j' eq_refl eq_refl) as [H1 H2]; split; [lia|exact H2].
  - intros H; injection H as <-; intros H; cbn [str_drop last_index].
    rewrite Nat.sub_0_r; split; [lia|].
    revert H; destruct (last_index _ s); cbn [negb]; [auto|rewrite Q; auto].
Qed.

(** [trim] removes the leading, then the trailing, white space. *)
Lemma trim_strip (s : string) :
  valid_string s -> trim s = rstrip_by is_ws (lstrip_by is_ws s).
Proof.
  intros Hv; unfold valid_string, npos in Hv.
  unfold trim, find_first_not_of, find_last_not_of.
  change (fun c => negb (str_has whitespace c)) with (fun c => negb (is_ws c)).
  destruct (first_index (fun c => negb (is_ws c)) s) as [k|] eqn:F.
  - pose proof (first_index_lt _ _ _ F) as Hk.
    rewrite (proj2 (Z.eqb_neq _ _)) by (unfold str_size in Hv; unfold npos; lia).
    destruct (last_index (fun c => negb (is_ws c)) s) as [j|] eqn:L.
    + destruct (first_last_index is_ws s k j F L) as [Hkj HL].
      pose proof (last_index_lt _ _ _ L) as Hj.
      unfold substr; rewrite Z.min_l by (unfold str_size; lia).
      replace (Z.to_nat (Z.of_nat k)) with k by lia.
      replace (Z.to_nat (Z.of_nat j - Z.of_nat k + 1)) with (S (j - k)) by lia.
      rewrite substring_drop, (substring_last_index is_ws _ _ HL), (first_index_drop is_ws s k F).
      reflexivity.
    + exfalso; apply last_index_none in L; apply first_index_none in L; congruence.
  - rewrite Z.eqb_refl; apply first_index_none in F.
    clear Hv; induction s as [|c s IH]; [reflexivity|].
    cbn [forall_chars lstrip_by] in *; apply andb_prop in F as [F1 F2].
    rewrite negb_involutive in F1; rewrite F1; apply IH; exact F2.
Qed.

Lemma lstrip_decomp (q : ascii -> bool) (s : string) :
  exists pre, s = (pre ++ lstrip_by q s)%string /\ forall_chars q pre = true.
Proof.
  induction s as [|c s [pre [E H]]]; [exists EmptyString; split; reflexivity|].
  cbn [lstrip_by]; destruct (q c) eqn:Q.
  - exists (String c pre); split; [cbn; rewrite <- E; reflexivity|cbn; rewrite Q, H; reflexivity].
  - exists EmptyString; split; reflexivity.
Qed.

Lemma lstrip_head (q : ascii -> bool) (s : string) :
  lstrip_by q s = EmptyString \/ exists c t, lstrip_by q s = String c t /\ q c = false.
Proof.
  induction s as [|c s IH]; [left; reflexivity|].
  cbn [lstrip_by]; destruct (q c) eqn:Q; [exact IH|right; exists c, s; auto].
Qed.

Lemma rstrip_decomp (q : ascii -> bool) (s : string) :
  exists suf, s = (rstrip_by q s ++ suf)%string /\ forall_chars q suf = true.
Proof.
  induction s as [|c s [suf [E H]]]; [exists EmptyString; split; reflexivity|].
  cbn [rstrip_by]; destruct (rstrip_by q s) as [|c' r] eqn:R.
  - cbn [String.append] in E; subst s; destruct (q c) eqn:Q.
    + exists (String c suf); split; [reflexivity|cbn; rewrite Q, H; reflexivity].
    + exists suf; split; [reflexivity|exact H].
  - exists suf; split; [cbn [String.append] in *; congruence|exact H].
Qed.

Lemma rstrip_last (q : ascii -> bool) (s : string) :
  rstrip_by q s = EmptyString
  \/ exists t c, rstrip_by q s = (t ++ String c EmptyString)%string /\ q c = false.
Proof.
  induction s as [|c s IH]; [left; reflexivity|].
  cbn [rstrip_by]; destruct (rstrip_by q s) as [|c' r] eqn:R.
  - destruct (q c) eqn:Q; [left; reflexivity|right; exists EmptyString, c; auto].
  - right; destruct IH as [IH|(t & c0 & E & Q)]; [discriminate|].
    exists (String c t), c0; split; [rewrite E; reflexivity|exact Q].
Qed.

Lemma rstrip_head (q : ascii -> bool) (c : ascii) (s : string) :
  q c = false -> exists t, rstrip_by q (String c s) = String c t.
Proof.
  intros Q; cbn [rstrip_by]; destruct (rstrip_by q s); [rewrite Q|]; eexists; reflexivity.
Qed.

(** [trim] cuts a string into white space, the trimmed text and white space
    again (white space being " \t\n\r"); the trimmed text is empty or begins
    and ends with a character that is not white space. *)
Theorem trim_spec (s : string) :
  valid_string s ->
  exists pre suf,
    s = (pre ++ trim s ++ suf)%string
    /\ forall_chars is_ws pre = true /\ forall_chars is_ws suf = true
    /\ (trim s = EmptyString
        \/ (exists c t, trim s = String c t /\ is_ws c = false)
           /\ (exists t c, trim s = (t ++ String c EmptyString)%string /\ is_ws c = false)).
Proof.
  intros Hv; rewrite (trim_strip s Hv).
  destruct (lstrip_decomp is_ws s) as [pre [E1 H1]].
  destruct (rstrip_decomp is_ws (lstrip_by is_ws s)) as [suf [E2 H2]].
  exists pre, suf; split; [rewrite <- E2; exact E1|]; split; [exact H1|]; split; [exact H2|].
  destruct (rstrip_last is_ws (lstrip_by is_ws s)) as [R|R]; [left; exact R|right].
  split; [|exact R].
  destruct (lstrip_head is_ws s) as [L|(c & t & L & Q)].
  - rewrite L in R; destruct R as (t & c & E & _); destruct t; discriminate.
  - rewrite L; destruct (rstrip_head is_ws c t Q) as [t' E]; rewrite E; exists c, t'; auto.
Qed.

Lemma trim_spec_witness :
  let s := String " "%char (String "009"%char ("Intel Xeon" ++ newline)) in
  exists pre suf,
    s = (pre ++ trim s ++ suf)%string
    /\ forall_chars is_ws pre = true /\ forall_chars is_ws suf = true
    /\ (trim s = EmptyString
        \/ (exists c t, trim s = String c t /\ is_ws c = false)
           /\ (exists t c, trim s = (t ++ String c EmptyString)%string /\ is_ws c = false)).
Proof. apply trim_spec; unfold valid_string, npos; vm_compute; reflexivity. Defined.

(** ** Cache sizes (system_info.cpp) *)

Lemma length_append_str (a b : string) :
  String.length (a ++ b) = (String.length a + String.length b)%nat.
Proof. induction a as [|c a IH]; cbn; [reflexivity|rewrite IH; reflexivity]. Qed.

Lemma get_app_at (a r : string) (c : ascii) : String.get (String.length a) (a ++ String c r) = Some c.
Proof. induction a as [|x a IH]; [reflexivity|exact IH]. Qed.

Lemma str_back_snoc (a : string) (c : ascii) : str_back (a ++ String c EmptyString) = Some c.
Proof.
  unfold str_back; rewrite length_append_str; cbn [String.length].
  rewrite Nat.add_sub; apply get_app_at.
Qed.

Lemma snoc_decomp (s : string) :
  s <> EmptyString -> exists t c, s = (t ++ String c EmptyString)%string.
Proof.
  induction s as [|c s IH]; intros H; [congruence|].
  destruct s as [|c' s']; [exists EmptyString, c; reflexivity|].
  destruct IH as (t & x & E); [discriminate|].
  exists (String c t), x; rewrite E; reflexivity.
Qed.

Lemma digit_string_back (d : string) :
  digit_string d = true -> exists c, str_back d = Some c /\ is_digit c = true.
Proof.
  intros H; destruct (snoc_decomp d) as (t & c & E); [intros ->; discriminate|].
  pose proof (digit_string_chars d H) as Hc; rewrite E, forall_chars_app in Hc.
  apply andb_prop in Hc as [_ Hc]; cbn in Hc; rewrite andb_true_r in Hc.
  exists c; split; [rewrite E; apply str_back_snoc|exact Hc].
Qed.

(** [parse_cache_size] reads the sysfs notation: a decimal number followed
    by K or M scales by 1024 or 1024 * 1024 (modulo 2^64), a bare number is
    bytes; only the last character is looked at, so "32KB" is 32 bytes. *)
Theorem parse_cache_size_units (d : string) :
  digit_string d = true -> digits_value d <= npos ->
  parse_cache_size (d ++ "K") = Some (size_t_wrap (digits_value d * 1024))
  /\ parse_cache_size (d ++ "M") = Some (size_t_wrap (digits_value d * (1024 * 1024)))
  /\ parse_cache_size d = Some (digits_value d)
  /\ parse_cache_size (d ++ "KB") = Some (digits_value d).
Proof.
  intros Hd Hv; pose proof (digits_value_nonneg d Hd).
  assert (Hs : size_t_wrap (digits_value d * 1) = digits_value d)
    by (rewrite Z.mul_1_r; apply size_t_wrap_small; unfold npos in Hv; lia).
  unfold parse_cache_size; repeat split.
  - rewrite (str_back_snoc d "K"%char), stoul_digits by (auto || reflexivity); reflexivity.
  - rewrite (str_back_snoc d "M"%char), stoul_digits by (auto || reflexivity); reflexivity.
  - destruct (digit_string_back d Hd) as (c & Hb & Hc); rewrite Hb.
    rewrite (is_digit_neq c "K"%char Hc eq_refl), (is_digit_neq c "M"%char Hc eq_refl).
    rewrite <- (append_empty_r d) at 1; rewrite stoul_digits by (auto || reflexivity).
    cbn [option_map]; rewrite Hs; reflexivity.
  - replace (d ++ "KB")%string with ((d ++ "K") ++ String "B"%char EmptyString)%string
      by (rewrite append_assoc_str; reflexivity).
    rewrite str_back_snoc, append_assoc_str, stoul_digits by (auto || reflexivity).
    cbn [option_map]; f_equal; exact Hs.
Qed.

Lemma parse_cache_size_units_witness :
  parse_cache_size ("48" ++ "K") = Some (size_t_wrap (digits_value "48" * 1024))
  /\ parse_cache_size ("48" ++ "M") = Some (size_t_wrap (digits_value "48" * (1024 * 1024)))
  /\ parse_cache_size "48" = Some (digits_value "48")
  /\ parse_cache_size ("48" ++ "KB") = Some (digits_value "48").
Proof.
  apply parse_cache_size_units; [reflexivity|unfold npos; vm_compute; congruence].
Defined.

Lemma is_digit_not_ws (c : ascii) : is_digit c = true -> is_ws c = false.
Proof.
  intros H; unfold is_ws, whitespace; cbn [str_has].
  rewrite (is_digit_neq c " "%char H), (is_digit_neq c "009"%char H),
    (is_digit_neq c "010"%char H), (is_digit_neq c "013"%char H) by reflexivity.
  reflexivity.
Qed.

Lemma rstrip_by_app_keep (q : ascii -> bool) (a b : string) :
  rstrip_by q b <> EmptyString -> rstrip_by q (a ++ b) = (a ++ rstrip_by q b)%string.
Proof.
  intros H; induction a as [|c a IH]; [reflexivity|].
  cbn [String.append rstrip_by]; rewrite IH.
  destruct a; [destruct (rstrip_by q b); [congruence|reflexivity]|reflexivity].
Qed.

Lemma trim_sysfs (d : string) (u : ascii) :
  digit_string d = true -> is_ws u = false ->
  valid_string (d ++ String u newline) -> trim (d ++ String u newline) = (d ++ String u EmptyString)%string.
Proof.
  intros Hd Hu Hv; rewrite (trim_strip _ Hv).
  destruct d as [|c d']; [discriminate|].
  pose proof (digit_string_chars _ Hd) as Hc; cbn [forall_chars] in Hc;
    apply andb_prop in Hc as [Hc _].
  cbn [String.append lstrip_by]; rewrite (is_digit_not_ws c Hc).
  change (String c (d' ++ String u newline)) with (String c d' ++ String u newline)%string.
  rewrite rstrip_by_app_keep; cbn [rstrip_by newline]; rewrite Hu;
    [reflexivity|discriminate].
Qed.

(** The L1 size read from a sysfs file "<digits>K\n" (the kernel's format)
    is that many KiB. *)
Theorem get_l1_cache_sysfs (read_file : string -> string) (d : string) :
  read_file (cache_index_path 0 "size") = (d ++ String "K"%char newline)%string ->
  digit_string d = true -> digits_value d <= npos ->
  valid_string (d ++ String "K"%char newline) ->
  get_l1_cache read_file = size_t_wrap (digits_value d * 1024).
Proof.
  intros Hr Hd Hv Hs; unfold get_l1_cache; rewrite Hr, trim_sysfs by (auto || reflexivity).
  replace (String.eqb (d ++ String "K"%char EmptyString) EmptyString) with false
    by (destruct d; reflexivity).
  cbn [negb]; change (d ++ String "K"%char EmptyString)%string with (d ++ "K")%string.
  unfold parse_cache_size; rewrite (str_back_snoc d "K"%char), stoul_digits by (auto || reflexivity).
  destruct d; [discriminate Hd|reflexivity].
Qed.

Lemma get_l1_cache_sysfs_witness :
  get_l1_cache sysfs_l1 = size_t_wrap (digits_value "48" * 1024).
Proof.
  apply (get_l1_cache_sysfs sysfs_l1 "48"); try reflexivity;
    unfold valid_string, npos; vm_compute; congruence.
Defined.

Lemma scan_cache_levels_sound (read_file : string -> string) (level : string) (i : Z)
    (fuel : nat) (v : Z) :
  scan_cache_levels read_file level i fuel = Some v ->
  exists j, i <= j < i + Z.of_nat fuel
            /\ trim (read_file (cache_index_path j "level")) = level
            /\ parse_cache_size (trim (read_file (cache_index_path j "size"))) = Some v.
Proof.
  revert i; induction fuel as [|fuel IH]; intros i; cbn [scan_cache_levels]; [discriminate|].
  destruct (String.eqb (trim (read_file (cache_index_path i "level"))) level) eqn:L.
  - destruct (negb _).
    + destruct (parse_cache_size _) eqn:P.
      * intros H; injection H as <-; exists i; apply String.eqb_eq in L.
        repeat split; [lia|lia|exact L|exact P].
      * intros H; destruct (IH (i + 1) H) as (j & ? & ? & ?); exists j.
        repeat split; (lia || assumption).
    + intros H; destruct (IH (i + 1) H) as (j & ? & ? & ?); exists j.
      repeat split; (lia || assumption).
  - intros H; destruct (IH (i + 1) H) as (j & ? & ? & ?); exists j.
    repeat split; (lia || assumption).
Qed.

(** The L2 (L3) size is either its default, 256 KiB (8 MiB), or the size
    file of one of the cache indices 0..7 whose level file reads "2" ("3"). *)
Theorem get_l2_l3_cache_sound (read_file : string -> string) :
  (get_l2_cache read_file = 256 * 1024
   \/ exists j, 0 <= j < 8 /\ trim (read_file (cache_index_path j "level")) = "2"%string
       /\ parse_cache_size (trim (read_file (cache_index_path j "size")))
          = Some (get_l2_cache read_file))
  /\ (get_l3_cache read_file = 8 * 1024 * 1024
   \/ exists j, 0 <= j < 8 /\ trim (read_file (cache_index_path j "level")) = "3"%string
       /\ parse_cache_size (trim (read_file (cache_index_path j "size")))
          = Some (get_l3_cache read_file)).
Proof.
  unfold get_l2_cache, get_l3_cache; split.
  - destruct (scan_cache_levels read_file "2" 0 8) as [v|] eqn:E; [right|left; reflexivity].
    destruct (scan_cache_levels_sound _ _ _ _ _ E) as (j & Hj & H1 & H2); exists j; cbn in Hj.
    repeat split; auto; lia.
  - destruct (scan_cache_levels read_file "3" 0 8) as [v|] eqn:E; [right|left; reflexivity].
    destruct (scan_cache_levels_sound _ _ _ _ _ E) as (j & Hj & H1 & H2); exists j; cbn in Hj.
    repeat split; auto; lia.
Qed.

(** ** [/proc/cpuinfo] and [/etc/os-release] (system_info.cpp) *)

Lemma map_find_assign_same (m : list (string * string)) (k v : string) :
  map_find (map_assign m k v) k = Some v.
Proof.
  induction m as [|[k' v'] m IH]; cbn; [rewrite String.eqb_refl; reflexivity|].
  destruct (String.eqb k k') eqn:E; cbn; [rewrite String.eqb_refl; reflexivity|rewrite E; exact IH].
Qed.

Lemma map_find_assign_other (m : list (string * string)) (k k2 v : string) :
  k <> k2 -> map_find (map_assign m k v) k2 = map_find m k2.
Proof.
  intros Hk; induction m as [|[k' v'] m IH]; cbn.
  - destruct (String.eqb_spec k2 k); [congruence|reflexivity].
  - destruct (String.eqb_spec k k') as [<-|Hne]; cbn.
    + destruct (String.eqb_spec k2 k); [congruence|reflexivity].
    + destruct (String.eqb k2 k'); [reflexivity|exact IH].
Qed.

Lemma parse_cpuinfo_fold (lines : list string) :
  parse_cpuinfo (Some lines) = fold_left cpuinfo_step lines [].
Proof. reflexivity. Qed.

Lemma fold_no_key (k : string) (lines : list string) (m : list (string * string)) :
  no_key k lines -> map_find (fold_left cpuinfo_step lines m) k = map_find m k.
Proof.
  revert m; induction lines as [|l lines IH]; intros m H; [reflexivity|].
  inversion H as [|? ? Hl Hr]; subst; cbn [fold_left]; rewrite IH by exact Hr.
  unfold cpuinfo_step; destruct (cpuinfo_entry l) as [[k' w]|] eqn:E; [|reflexivity].
  apply map_find_assign_other, (Hl k' w eq_refl).
Qed.

(** [get_cpu_model] reports the value of the last "model name" entry of
    /proc/cpuinfo (key and value cut at the first ':' and stripped of blanks);
    with neither a "model name" nor a "Hardware" entry, or without a readable
    /proc/cpuinfo, it reports "Unknown CPU". *)
Theorem get_cpu_model_spec (pre post lines : list string) (line v : string) :
  cpuinfo_entry line = Some ("model name"%string, v) -> no_key "model name" post ->
  no_key "model name" lines -> no_key "Hardware" lines ->
  get_cpu_model (Some (pre ++ line :: post)) = v
  /\ get_cpu_model (Some lines) = "Unknown CPU"%string
  /\ get_cpu_model None = "Unknown CPU"%string.
Proof.
  intros Hl Hp Hm Hh; split; [|split; [|reflexivity]].
  - unfold get_cpu_model; rewrite parse_cpuinfo_fold, fold_left_app; cbn [fold_left].
    rewrite fold_no_key by exact Hp.
    unfold cpuinfo_step at 1; rewrite Hl, map_find_assign_same; reflexivity.
  - unfold get_cpu_model; rewrite parse_cpuinfo_fold, !fold_no_key by assumption; reflexivity.
Qed.

Lemma get_cpu_model_spec_witness :
  get_cpu_model (Some (app ["processor" ++ String "009"%char ": 0";
                            "model name" ++ String "009"%char ": Old CPU"]
                           (("model name" ++ String "009"%char ": Intel(R) Xeon(R) CPU @ 2.10GHz")
                            :: ["flags" ++ String "009"%char (String "009"%char ": fpu vme")]))%string)
  = "Intel(R) Xeon(R) CPU @ 2.10GHz"%string
  /\ get_cpu_model (Some ["processor : 0"%string; "BogoMIPS : 48.00"%string]) = "Unknown CPU"%string
  /\ get_cpu_model None = "Unknown CPU"%string.
Proof.
  apply get_cpu_model_spec;
    [vm_compute; reflexivity
    |repeat constructor; intros k w H; vm_compute in H; injection H as <- <-; discriminate ..].
Defined.

Lemma prefix_app (p x y : string) :
  (String.length p <= String.length x)%nat -> String.prefix p (x ++ y) = String.prefix p x.
Proof.
  revert x; induction p as [|a p IH]; intros x H; destruct x as [|b x]; cbn [String.length] in H.
  - destruct y; reflexivity.
  - reflexivity.
  - lia.
  - cbn [String.append String.prefix]; destruct (ascii_dec a b); [apply IH; lia|reflexivity].
Qed.

Lemma find_str_aux_eq (pat s : string) :
  find_str_aux pat s
  = if String.prefix pat s then Some O
    else match s with
         | EmptyString => None
         | String _ s' => option_map S (find_str_aux pat s')
         end.
Proof. destruct s; reflexivity. Qed.

Lemma find_str_aux_app (pat x y : string) (k : nat) :
  find_str_aux pat x = Some k -> (k + String.length pat <= String.length x)%nat ->
  find_str_aux pat (x ++ y) = Some k.
Proof.
  revert k; induction x as [|c x IH]; intros k H Hk.
  - rewrite find_str_aux_eq in H; destruct (String.prefix pat EmptyString); [|discriminate].
    injection H as <-; destruct pat; [|cbn in Hk; lia].
    destruct y; reflexivity.
  - rewrite find_str_aux_eq in H |- *.
    rewrite prefix_app by (destruct (String.prefix pat (String c x)); cbn in Hk |- *;
                            [lia|destruct (find_str_aux pat x); cbn in H; [|discriminate];
                                 injection H as <-; lia]).
    destruct (String.prefix pat (String c x)); [exact H|].
    change (String c x ++ y)%string with (String c (x ++ y)).
    destruct (find_str_aux pat x) as [k'|] eqn:E; cbn in H; [|discriminate].
    injection H as <-; rewrite (IH k' eq_refl) by (cbn in Hk; lia); reflexivity.
Qed.

(** On Linux, [get_os_name] returns the quoted value of the first
    PRETTY_NAME= entry of /etc/os-release. *)
Theorem get_os_name_pretty (pre name post : string) :
  find_str_aux "PRETTY_NAME=" (pre ++ "PRETTY_NAME=") = Some (String.length pre) ->
  forall_chars (fun ch => negb (Ascii.eqb quote_char ch)) name = true ->
  valid_string (pre ++ "PRETTY_NAME=" ++ String quote_char (name ++ String quote_char post)) ->
  get_os_name (pre ++ "PRETTY_NAME=" ++ String quote_char (name ++ String quote_char post)) = name.
Proof.
  intros Hf Hn Hv.
  set (pat := "PRETTY_NAME="%string) in *.
  set (s := (pre ++ pat ++ String quote_char (name ++ String quote_char post))%string) in *.
  set (a := (pre ++ pat ++ String quote_char EmptyString)%string).
  assert (Sa : str_size a = str_size pre + 13)
    by (unfold a; rewrite !str_size_app; reflexivity).
  assert (Hs : str_size s = str_size a + str_size name + 1 + str_size post).
  { unfold s; rewrite Sa, !str_size_app, str_size_cons, str_size_app, str_size_cons.
    change (str_size pat) with 12; lia. }
  unfold valid_string, npos in Hv.
  pose proof (str_size_nonneg pre); pose proof (str_size_nonneg name);
    pose proof (str_size_nonneg post).
  assert (P : find_str s pat 0 = str_size pre).
  { unfold find_str; rewrite (proj2 (Z.ltb_ge _ _)) by lia.
    change (str_drop (Z.to_nat 0) s) with s.
    unfold s; rewrite <- append_assoc_str, find_str_aux_app with (k := String.length pre);
      [reflexivity|exact Hf|rewrite length_append_str; lia]. }
  assert (Q1 : find_char s quote_char (str_size pre) = str_size pre + 12)
    by (unfold s; rewrite find_char_at by reflexivity; reflexivity).
  assert (Q2 : find_char s quote_char (size_t_wrap (str_size pre + 12 + 1))
               = str_size a + str_size name).
  { rewrite size_t_wrap_small by (unfold npos, size_t_modulus in *; lia).
    replace (str_size pre + 12 + 1) with (str_size a) by lia.
    replace s with (a ++ name ++ String quote_char post)%string
      by (unfold s, a; rewrite !append_assoc_str; reflexivity).
    apply find_char_at, Hn. }
  unfold get_os_name; cbv zeta; fold pat.
  replace (String.eqb s EmptyString) with false by (unfold s; destruct pre; reflexivity).
  rewrite P, (proj2 (Z.eqb_neq _ _)) by (unfold npos, size_t_modulus in *; lia).
  rewrite Q1, Q2; cbn [negb].
  rewrite (proj2 (Z.eqb_neq (str_size pre + 12) _)) by (unfold npos, size_t_modulus in *; lia).
  rewrite (proj2 (Z.eqb_neq (str_size a + str_size name) _)) by (unfold npos, size_t_modulus in *; lia).
  cbn [negb andb].
  replace (str_size pre + 12 + 1) with (str_size a) by lia.
  replace (str_size a + str_size name - (str_size pre + 12) - 1) with (str_size name) by lia.
  replace s with (a ++ name ++ String quote_char post)%string
    by (unfold s, a; rewrite !append_assoc_str; reflexivity).
  apply substr_middle.
Qed.

Lemma get_os_name_pretty_witness :
  get_os_name (("NAME=" ++ String quote_char ("Ubuntu" ++ String quote_char newline))
               ++ "PRETTY_NAME=" ++ String quote_char ("Ubuntu 22.04.4 LTS" ++ String quote_char newline))
  = "Ubuntu 22.04.4 LTS"%string.
Proof.
  apply get_os_name_pretty;
    [vm_compute; reflexivity|reflexivity|unfold valid_string, npos; vm_compute; reflexivity].
Defined.

(** ** Dimensions passed to CBLAS (blas_functions.h) *)

Lemma int_of_size_of_int (z : Z) :
  int_min <= z <= int_max -> int_of_size (size_of_int z) = z.
Proof.
  unfold int_min, int_max, int_of_size, size_of_int, size_t_wrap, size_t_modulus; intros Hz.
  rewrite Z.mod_mod_divide by (exists (2 ^ 32); reflexivity).
  destruct (Z.ltb_spec z 0).
  - rewrite <- (Z.mod_unique z (2 ^ 32) (-1) (z + 2 ^ 32)) by lia.
    rewrite (proj2 (Z.ltb_ge _ _)) by lia; lia.
  - rewrite Z.mod_small by lia; rewrite (proj2 (Z.ltb_lt _ _)) by lia; reflexivity.
Qed.

Lemma int_of_size_range (n : Z) :
  int_min <= int_of_size n <= int_max /\ (int_of_size n - n) mod 2 ^ 32 = 0.
Proof.
  unfold int_min, int_max, int_of_size.
  pose proof (Z.mod_pos_bound n (2 ^ 32) ltac:(lia)).
  pose proof (Z.div_mod n (2 ^ 32) ltac:(lia)).
  destruct (Z.ltb_spec (n mod 2 ^ 32) (2 ^ 31)); split; try lia.
  - replace (n mod 2 ^ 32 - n) with ((- (n / 2 ^ 32)) * 2 ^ 32) by lia.
    apply Z.mod_mul; lia.
  - replace (n mod 2 ^ 32 - 2 ^ 32 - n) with ((- (n / 2 ^ 32) - 1) * 2 ^ 32) by lia.
    apply Z.mod_mul; lia.
Qed.

(** Any [int] dimension that [main] stores as a [std::size_t] (negative
    values wrapping to [2^64 - |v|]) reaches CBLAS as the same [int]. *)
Theorem blas_dims_round_trip (m n k : Z) :
  int_min <= m <= int_max -> int_min <= n <= int_max -> int_min <= k <= int_max ->
  blas_dims (KGemm (size_of_int m) (size_of_int n) (size_of_int k)) = [m; n; k]
  /\ blas_dims (KGemv (size_of_int m) (size_of_int n)) = [m; n]
  /\ blas_dims (KDot (size_of_int n)) = [n]
  /\ blas_dims (KAxpy (size_of_int n)) = [n]
  /\ blas_dims (KScal (size_of_int n)) = [n].
Proof.
  intros Hm Hn Hk; cbn [blas_dims]; rewrite !int_of_size_of_int by assumption.
  repeat split.
Qed.

Lemma blas_dims_round_trip_witness :
  blas_dims (KGemm (size_of_int (-5)) (size_of_int 512) (size_of_int int_max)) = [-5; 512; int_max]
  /\ blas_dims (KGemv (size_of_int (-5)) (size_of_int 512)) = [-5; 512]
  /\ blas_dims (KDot (size_of_int 512)) = [512]
  /\ blas_dims (KAxpy (size_of_int 512)) = [512]
  /\ blas_dims (KScal (size_of_int 512)) = [512].
Proof. apply blas_dims_round_trip; unfold int_min, int_max; lia. Defined.

(** A [std::size_t] length reaches CBLAS unchanged exactly when it fits in
    an [int]; otherwise it is truncated modulo [2^32] into [int]'s range
    (2^31 becomes -2^31, 2^32 becomes 0). *)
Theorem blas_dims_truncation (n : Z) :
  0 <= n < size_t_modulus ->
  (blas_dims (KDot n) = [n] <-> n <= int_max)
  /\ (forall d, In d (blas_dims (KGemm n n n)) -> int_min <= d <= int_max /\ (d - n) mod 2 ^ 32 = 0).
Proof.
  intros Hn; split.
  - cbn [blas_dims]; split.
    + intros H; injection H as H; pose proof (int_of_size_range n); lia.
    + intros H; f_equal; unfold int_of_size, int_max in *.
      rewrite Z.mod_small by lia; rewrite (proj2 (Z.ltb_lt _ _)) by lia; reflexivity.
  - cbn [blas_dims In]; intros d Hd.
    destruct Hd as [<-|[<-|[<-|[]]]]; apply int_of_size_range.
Qed.

Lemma blas_dims_truncation_witness :
  (blas_dims (KDot (2 ^ 31)) = [2 ^ 31] <-> 2 ^ 31 <= int_max)
  /\ (forall d, In d (blas_dims (KGemm (2 ^ 31) (2 ^ 31) (2 ^ 31))) ->
                int_min <= d <= int_max /\ (d - 2 ^ 31) mod 2 ^ 32 = 0).
Proof. apply blas_dims_truncation; unfold size_t_modulus; lia. Defined.

(** ** CSV output (benchmark.cpp) *)

Lemma count_char_app (c : ascii) (a b : string) :
  count_char c (a ++ b) = (count_char c a + count_char c b)%nat.
Proof. induction a as [|c' a IH]; cbn [String.append count_char]; [reflexivity|rewrite IH; lia]. Qed.

Lemma concat_empty_cons (x : string) (xs : list string) :
  String.concat EmptyString (x :: xs) = (x ++ String.concat EmptyString xs)%string.
Proof. destruct xs; [rewrite append_empty_r|]; reflexivity. Qed.

Lemma uint_string_no_char (c : ascii) (d : Decimal.uint) :
  is_digit c = false -> count_char c (NilEmpty.string_of_uint d) = O.
Proof.
  intros Hc; induction d as [|d IH|d IH|d IH|d IH|d IH|d IH|d IH|d IH|d IH|d IH];
    cbn [NilEmpty.string_of_uint count_char]; [reflexivity|..];
    (destruct (Ascii.eqb c _) eqn:E; [apply Ascii.eqb_eq in E; subst c; discriminate Hc|];
     rewrite IH; reflexivity).
Qed.

Lemma fmt_int_no_char (c : ascii) (z : Z) :
  is_digit c = false -> Ascii.eqb c "-"%char = false -> count_char c (fmt_int z) = O.
Proof.
  intros Hc Hm; unfold fmt_int, NilZero.string_of_int, NilZero.string_of_uint.
  destruct z as [|p|p]; cbn [Z.to_int].
  - apply uint_string_no_char, Hc.
  - destruct (Pos.to_uint p);
      first [apply uint_string_no_char, Hc|apply (uint_string_no_char c (Decimal.D0 Decimal.Nil)), Hc].
  - cbn [String.append count_char]; rewrite Hm.
    destruct (Pos.to_uint p);
      first [apply uint_string_no_char, Hc|apply (uint_string_no_char c (Decimal.D0 Decimal.Nil)), Hc].
Qed.

Lemma csv_rows_newlines (A : Arith) (ff : nat -> val A -> string) (lvl : string)
    (l : list (BenchmarkResult A)) :
  (forall r, In r l -> count_char "010"%char (csv_row A ff lvl r) = 1%nat) ->
  count_char "010"%char (String.concat EmptyString (map (csv_row A ff lvl) l)) = List.length l.
Proof.
  induction l as [|r l IH]; intros H; [reflexivity|].
  cbn [map List.length]; rewrite concat_empty_cons, count_char_app, H by (left; reflexivity).
  rewrite IH by (intros r' Hr'; apply H; right; exact Hr'); reflexivity.
Qed.

Lemma csv_row_count (A : Arith) (ff : nat -> val A -> string) (lvl : string)
    (r : BenchmarkResult A) (c : ascii) :
  is_digit c = false -> Ascii.eqb c "-"%char = false ->
  (forall p v, count_char c (ff p v) = O) ->
  count_char c (csv_row A ff lvl r)
  = (count_char c lvl + count_char c (function_name A r) + count_char c (config_str A r)
     + 7 * count_char c "," + count_char c newline)%nat.
Proof.
  intros Hd Hm Hf; unfold csv_row; rewrite !count_char_app, !Hf, fmt_int_no_char by assumption.
  lia.
Qed.

(** Every line of [to_csv] ends in '\n': when no formatted value, function
    name or configuration string contains a newline, the output has exactly
    one line per result plus the header line. *)
Theorem to_csv_line_count (A : Arith) (ff : nat -> val A -> string) (report : BenchmarkReport A) :
  (forall p v, count_char "010"%char (ff p v) = O) ->
  (forall lv r, In r (level_results report lv) ->
     count_char "010"%char (function_name A r) = O /\ count_char "010"%char (config_str A r) = O) ->
  count_char "010"%char (to_csv A ff report)
  = S (List.length (level1_results A report) + List.length (level2_results A report)
       + List.length (level3_results A report)).
Proof.
  intros Hf Hr; unfold to_csv; rewrite !count_char_app.
  assert (Row : forall lv lvl, count_char "010"%char lvl = O ->
            forall r, In r (level_results report lv) -> count_char "010"%char (csv_row A ff lvl r) = 1%nat).
  { intros lv lvl Hl r Hin; destruct (Hr lv r Hin) as [H1 H2].
    rewrite csv_row_count, Hl, H1, H2 by (reflexivity || exact Hf); reflexivity. }
  rewrite !csv_rows_newlines by (apply (Row L1) || apply (Row L2) || apply (Row L3); reflexivity).
  change (count_char "010"%char csv_header) with 1%nat; lia.
Qed.

Lemma to_csv_line_count_witness :
  count_char "010"%char
    (to_csv Exact (fun _ _ => "0.500"%string)
       {| level1_results := [sample_ddot_result]; level2_results := [];
          level3_results := [sample_dgemm_result]; report_config := config.get_default |})
  = 3%nat.
Proof.
  apply (to_csv_line_count Exact (fun _ _ => "0.500"%string)); [reflexivity|].
  intros lv r Hin; destruct lv; cbn in Hin;
    repeat (destruct Hin as [<-|Hin]; [split; reflexivity|]); destruct Hin.
Defined.

(** The configuration string is written into the CSV row without quoting:
    a level-2 row ("M=..,N=..") has 8 commas and a level-3 row 9, while the
    header and level-1 rows have 7. *)
Theorem csv_row_commas (A : Arith) (ff : nat -> val A -> string) (r : BenchmarkResult A)
    (m n k : Z) :
  (forall p v, count_char ","%char (ff p v) = O) ->
  count_char ","%char (function_name A r) = O ->
  count_char ","%char csv_header = 7%nat
  /\ (config_str A r = ("N=" ++ fmt_int n)%string ->
      count_char ","%char (csv_row A ff "1" r) = 7%nat)
  /\ (config_str A r = ("M=" ++ fmt_int m ++ ",N=" ++ fmt_int n)%string ->
      count_char ","%char (csv_row A ff "2" r) = 8%nat)
  /\ (config_str A r = ("M=" ++ fmt_int m ++ ",N=" ++ fmt_int n ++ ",K=" ++ fmt_int k)%string ->
      count_char ","%char (csv_row A ff "3" r) = 9%nat).
Proof.
  intros Hf Hn; split; [reflexivity|].
  split; [|split]; intros Hc;
    rewrite csv_row_count, Hn, Hc by (reflexivity || exact Hf);
    rewrite !count_char_app, !fmt_int_no_char by reflexivity; reflexivity.
Qed.

Lemma csv_row_commas_witness :
  count_char ","%char csv_header = 7%nat
  /\ (config_str Exact sample_dgemv_result = ("N=" ++ fmt_int 4096)%string ->
      count_char ","%char (csv_row Exact (fun _ _ => "1.000"%string) "1" sample_dgemv_result) = 7%nat)
  /\ (config_str Exact sample_dgemv_result = ("M=" ++ fmt_int 4096 ++ ",N=" ++ fmt_int 4096)%string ->
      count_char ","%char (csv_row Exact (fun _ _ => "1.000"%string) "2" sample_dgemv_result) = 8%nat)
  /\ (config_str Exact sample_dgemv_result
      = ("M=" ++ fmt_int 4096 ++ ",N=" ++ fmt_int 4096 ++ ",K=" ++ fmt_int 1)%string ->
      count_char ","%char (csv_row Exact (fun _ _ => "1.000"%string) "3" sample_dgemv_result) = 9%nat).
Proof. apply (csv_row_commas Exact (fun _ _ => "1.000"%string)); reflexivity. Defined.

(** ** Physical cores (system_info.cpp) *)







Lemma fold_max_ge (l : list Z) (m : Z) : m <= fold_left Z.max l m.
Proof. revert m; induction l as [|x l IH]; intros m; cbn; [lia|specialize (IH (Z.max m x)); lia]. Qed.

Lemma fold_max_lt (l : list Z) (m B : Z) :
  Forall (fun x => x < B) l -> m < B -> fold_left Z.max l m < B.
Proof. intros H; revert m; induction H as [|x l Hx _ IH]; intros m Hm; cbn; [lia|apply IH; lia]. Qed.

(** A "core id" line of /proc/cpuinfo: "core id", a tab, ": " and the id. *)
Lemma core_id_line_scan (d : string) (m : Z) (rest : list string) :
  digit_string d = true -> digits_value d <= int_max -> valid_string d ->
  core_id_scan (("core id" ++ String "009"%char (": " ++ d))%string :: rest) m
  = core_id_scan rest (Z.max m (digits_value d)).
Proof.
  intros Hd Hv Hs.
  assert (Hsub : substr ("core id" ++ String "009"%char (": " ++ d))%string (8 + 1) npos
                 = String " "%char d).
  { replace (("core id" ++ String "009"%char (": " ++ d))%string)
      with (("core id" ++ String "009"%char ":")%string ++ String " "%char d)%string by reflexivity.
    replace (8 + 1) with (str_size ("core id" ++ String "009"%char ":")%string) by reflexivity.
    apply substr_suffix; rewrite str_size_cons; unfold valid_string in Hs; lia. }
  cbn [core_id_scan]; cbv zeta.
  replace (find_str _ "core id" 0) with 0
    by (unfold find_str; rewrite (proj2 (Z.ltb_ge _ _)) by apply str_size_nonneg; reflexivity).
  replace (find_char _ ":"%char 0) with 8 by reflexivity.
  rewrite Hsub; change (stoi (String " "%char d)) with (stoi d).
  rewrite stoi_digits_only by assumption; reflexivity.
Qed.

(** With one "core id" line per logical CPU carrying the ids [ds],
    [get_physical_cores] is the largest id plus one. *)
Theorem get_physical_cores_max_id (c : Z) (ds : list string) :
  ds <> [] ->
  Forall (fun d => digit_string d = true /\ digits_value d < int_max /\ valid_string d) ds ->
  get_physical_cores c (Some (map (fun d => ("core id" ++ String "009"%char (": " ++ d))%string) ds))
  = Some (fold_left Z.max (map digits_value ds) (-1) + 1).
Proof.
  intros Hne Hds.
  assert (Scan : forall m, core_id_scan (map (fun d => ("core id" ++ String "009"%char (": " ++ d))%string) ds) m
                           = Some (fold_left Z.max (map digits_value ds) m)).
  { clear Hne; induction Hds as [|d ds [H1 [H2 H3]] _ IH]; intros m; [reflexivity|].
    cbn [map fold_left]; rewrite core_id_line_scan by (assumption || lia); apply IH. }
  unfold get_physical_cores; rewrite Scan.
  destruct ds as [|d ds]; [congruence|].
  inversion Hds as [|? ? [Hd [Hv _]] Hrest]; subst.
  cbn [map fold_left].
  pose proof (digits_value_nonneg d Hd).
  pose proof (fold_max_ge (map digits_value ds) (Z.max (-1) (digits_value d))).
  assert (fold_left Z.max (map digits_value ds) (Z.max (-1) (digits_value d)) < int_max).
  { apply fold_max_lt; [|lia].
    apply Forall_map; eapply Forall_impl; [|exact Hrest]; cbn; tauto. }
  rewrite (proj2 (Z.leb_le _ _)) by lia; rewrite (proj2 (Z.ltb_lt _ _)) by lia; reflexivity.
Qed.

Lemma get_physical_cores_max_id_witness :
  get_physical_cores 8 (Some (map (fun d => ("core id" ++ String "009"%char (": " ++ d))%string)
                                  ["0"; "1"; "2"; "3"; "0"; "1"; "2"; "3"]%string))
  = Some 4.
Proof.
  etransitivity; [apply get_physical_cores_max_id; [discriminate|]|reflexivity].
  repeat constructor; unfold valid_string, npos, size_t_modulus, int_max; vm_compute; reflexivity.
Defined.
